(** * Prosodylab-Aligner: a shallow embedding of [align.py]

    The script drives HTK and SoX over a corpus of paired [.wav]/[.lab]
    files.  Its pure parts (sample-rate selection, trace parsing, label
    derivation) are embedded as functions; its effects (files written,
    directories made, tools invoked, the process exiting through [error])
    are embedded in a state-and-exception monad over an explicit [World]. *)

From Stdlib Require Import ZArith Lia Ascii String Sorted DecimalString DecimalNat.
From stdpp Require Import base list strings gmap.

Local Open Scope Z_scope.

(** ** Global variables of the script *)

Module Globals.

Definition sp : string := "sp".
Definition sil : string := "sil".
Definition temp : string := "temp".
Definition macro : string := "macros".
Definition hmmdf : string := "hmmdefs".
Definition vFloors : string := "vFloors".
Definition unpaired : string := "unpaired.txt".
Definition outofdict : string := "outofdict.txt".

(** [f = str(0.01)] and [pruning = [str(i) for i in (250.0, 150.0, 2000.0)]]:
    the decimal renderings Python gives for these float literals. *)
Definition f : string := "0.01".
Definition pruning : list string := ["250.0"; "150.0"; "2000.0"].

Definition align_mlf : string := ".ALIGN.mlf".
Definition scores_txt : string := ".SCORES.txt".

(** Divisors of 1e7, truncated on either end. *)
Definition SRs : list Z :=
  [4000; 8000; 10000; 12500; 15625; 16000; 20000; 25000; 31250; 40000;
   50000; 62500; 78125; 80000; 100000; 125000; 156250; 200000].

End Globals.
Export Globals.

(** ** Sample-rate selection ([-s] option of [__main__]) *)

Module SampleRate.

(** [bisect.bisect] of the Python library is [bisect_right]:
<<
    while lo < hi:
        mid = (lo+hi)//2
        if x < a[mid]: hi = mid
        else: lo = mid+1
    return lo
>>
    The loop halves [hi - lo], so [length a] iterations are enough. *)
Fixpoint bisect_loop (fuel : nat) (a : list Z) (x : Z) (lo hi : nat) : nat :=
  match fuel with
  | O => lo
  | S fuel' =>
      if (lo <? hi)%nat then
        let mid := ((lo + hi) / 2)%nat in
        if x <? nth mid a 0
        then bisect_loop fuel' a x lo mid
        else bisect_loop fuel' a x (mid + 1)%nat hi
      else lo
  end.

Definition bisect (a : list Z) (x : Z) : nat :=
  bisect_loop (length a) a x 0%nat (length a).

(** Lines 604-611, the body of [if sr not in SRs: ...]; both the [elif]
    and the [else] branch assign [SRs[i]]. *)
Definition nearest_viable (sr : Z) : Z :=
  let i := bisect SRs sr in
  if (i =? 0)%nat then nth 0 SRs 0
  else if (i =? length SRs)%nat then List.last SRs 0
  else if nth i SRs 0 - sr >? sr - nth (i - 1) SRs 0 then nth i SRs 0
  else nth i SRs 0.

(** The sample rate the models are built with, for a request [sr]
    ([sr = int(val)] has passed the [sr > 0] test). *)
Definition sane_samplerate (sr : Z) : Z :=
  if bool_decide (sr ∈ SRs) then sr else nearest_viable sr.

(** What "nearest of the two neighbours" means, for comparison with the
    code: the neighbour at the smaller distance. *)
Definition nearer (lo hi sr : Z) : Z :=
  if sr - lo <? hi - sr then lo else hi.

(** Sortedness in the form the binary search uses it. *)
Definition sorted_nth (a : list Z) : Prop :=
  ∀ i j : nat, (i ≤ j < length a)%nat → nth i a 0 ≤ nth j a 0.

End SampleRate.

(** ** Python library functions the script relies on

    Strings are byte strings (the script is Python 2); a path is a string. *)

Module Py.

(** [s[:n]] and [s[n:]] for [0 <= n]. *)
Fixpoint stake (n : nat) (s : string) : string :=
  match n, s with
  | S n', String c s' => String c (stake n' s')
  | _, _ => ""
  end.

Fixpoint sdrop (n : nat) (s : string) : string :=
  match n, s with
  | S n', String _ s' => sdrop n' s'
  | _, _ => s
  end.

(** [s.rfind(c)] for a one-character [c]; [None] stands for [-1]. *)
Fixpoint rfind (c : ascii) (s : string) : option nat :=
  match s with
  | "" => None
  | String a s' =>
      match rfind c s' with
      | Some i => Some (S i)
      | None => if decide (a = c) then Some 0%nat else None
      end
  end.

(** [s.endswith(suf)]. *)
Fixpoint endswith (s suf : string) : bool :=
  if decide (s = suf) then true
  else match s with
       | "" => false
       | String _ s' => endswith s' suf
       end.

Definition startswith (s pre : string) : bool := String.prefix pre s.

(** [os.path.join(a, b)] (posixpath, two arguments). *)
Definition join (a b : string) : string :=
  if startswith b "/" then b
  else if bool_decide (a = "") || endswith a "/" then a +:+ b
  else a +:+ "/" +:+ b.

(** [os.path.split(p)[1]]: what follows the last slash. *)
Definition basename (p : string) : string :=
  match rfind "/" p with
  | Some i => sdrop (S i) p
  | None => p
  end.

Fixpoint has_nondot (s : string) : bool :=
  match s with
  | "" => false
  | String c s' => if decide (c = "."%char) then has_nondot s' else true
  end.

(** [os.path.splitext(p)]: the extension starts at the last dot of the
    last component, unless only dots precede it there. *)
Definition splitext (p : string) : string * string :=
  match rfind "." p with
  | None => (p, "")
  | Some dotIndex =>
      let filenameIndex :=
        match rfind "/" p with Some sepIndex => S sepIndex | None => 0%nat end in
      if decide (filenameIndex ≤ dotIndex)%nat then
        if has_nondot (stake (dotIndex - filenameIndex) (sdrop filenameIndex p))
        then (stake dotIndex p, sdrop dotIndex p)
        else (p, "")
      else (p, "")
  end.

(** [sep.join(l)]. *)
Fixpoint str_join (sep : string) (l : list string) : string :=
  match l with
  | [] => ""
  | [x] => x
  | x :: l' => x +:+ sep +:+ str_join sep l'
  end.

(** Concatenation of the pieces written to a file one after the other. *)
Definition cat (l : list string) : string := foldr String.append "" l.

(** [f.readline()] on a freshly opened file with contents [s]: up to and
    including the first newline. *)
Fixpoint readline (s : string) : string :=
  match s with
  | "" => ""
  | String c s' =>
      if decide (c = "010"%char) then String c "" else String c (readline s')
  end.

(** Iterating over a file, or [readlines()]: the lines with their
    terminators. *)
Fixpoint readlines_go (cur : string) (s : string) : list string :=
  match s with
  | "" => if decide (cur = "") then [] else [String.rev cur]
  | String c s' =>
      if decide (c = "010"%char)
      then String.rev (String c cur) :: readlines_go "" s'
      else readlines_go (String c cur) s'
  end.
Definition readlines (s : string) : list string := readlines_go "" s.

(** [s.rstrip()] and [s.split()] on whitespace. *)
Fixpoint rstrip (s : string) : string :=
  match s with
  | "" => ""
  | String c s' =>
      let r := rstrip s' in
      if Ascii.is_space c && bool_decide (r = "") then "" else String c r
  end.

Definition split (s : string) : list string := String.words s.

(** [str(n)] for a non-negative integer and [s.zfill(width)] for a string
    of digits. *)
Definition str (n : nat) : string := NilZero.string_of_uint (Nat.to_uint n).

Fixpoint zeros (k : nat) : string :=
  match k with
  | O => ""
  | S k' => String "0" (zeros k')
  end.

Definition zfill (width : nat) (s : string) : string :=
  zeros (width - String.length s) +:+ s.

Global Arguments join : simpl never.
Global Arguments basename : simpl never.
Global Arguments splitext : simpl never.

End Py.

(** ** The regular expression for the HVite trace

    [re.match] for the fragment of the syntax the script uses: single
    characters, [.], [\d], the greedy [+] with backtracking, and one
    capturing group.  Matching is anchored at the start of the line
    and not at its end. *)

Module Re.

Inductive cls :=
| Dot                  (* any character but a newline *)
| Digit                (* [0-9] *)
| Lit (c : ascii).

Inductive item :=
| One (c : cls)
| Plus (c : cls)
| GroupOpen
| GroupClose.

Definition cls_match (c : cls) (a : ascii) : bool :=
  match c with
  | Dot => negb (bool_decide (a = "010"%char))
  | Digit => bool_decide (is_Some (Ascii.is_nat a))
  | Lit b => bool_decide (a = b)
  end.

(** The matcher state: the input left when the group was opened, and the
    text of the group once it is closed. *)
Record mstate := { g_open : string; g_text : string }.

(** [plus c k s]: one or more [c], as many as possible first, then the
    rest of the pattern [k]; gives back characters while [k] fails. *)
Fixpoint plus (c : cls) (k : string → option mstate) (s : string)
  : option mstate :=
  match s with
  | "" => None
  | String a s' =>
      if cls_match c a then
        match plus c k s' with
        | Some r => Some r
        | None => k s'
        end
      else None
  end.

Fixpoint match_items (p : list item) (st : mstate) (s : string)
  : option mstate :=
  match p with
  | [] => Some st
  | One c :: p' =>
      match s with
      | String a s' => if cls_match c a then match_items p' st s' else None
      | "" => None
      end
  | Plus c :: p' => plus c (match_items p' st) s
  | GroupOpen :: p' =>
      match_items p' {| g_open := s; g_text := g_text st |} s
  | GroupClose :: p' =>
      let n := (String.length (g_open st) - String.length s)%nat in
      match_items p' {| g_open := g_open st;
                        g_text := Py.stake n (g_open st) |} s
  end.

Fixpoint lits (s : string) : list item :=
  match s with
  | "" => []
  | String a s' => One (Lit a) :: lits s'
  end.

(** [p.match(line)] followed by [.group(1)]; [None] when there is no
    match. *)
Definition match_group1 (p : list item) (line : string) : option string :=
  g_text <$> match_items p {| g_open := ""; g_text := "" |} line.

End Re.

(** [HVite_score = re.compile('.+==  \[\d+ frames\] (-\d+\.\d+)')] *)
Definition HVite_score : list Re.item :=
  [Re.Plus Re.Dot] ++ Re.lits "==  [" ++ [Re.Plus Re.Digit] ++
  Re.lits " frames] " ++
  [Re.GroupOpen; Re.One (Re.Lit "-"); Re.Plus Re.Digit; Re.One (Re.Lit ".");
   Re.Plus Re.Digit; Re.GroupClose].

(** ** The world the script runs in *)

Module Sys.

(** The exceptions that can end a run.  [error(msg, ...)] of the script
    writes the usage text to [stderr] and leaves through
    [exit('Error: ' + msg)], a [SystemExit] carrying that string.
    [WaveError] stands for what [wave.open] raises on a file that is not
    a WAVE file ([wave.Error], [EOFError] or [struct.error], with its
    text). *)
Inductive exn :=
| SystemExit (msg : string)
| IndexError
| OSError (path : string)
| IOError (path : string)
| WaveError (what : string).

Inductive result (A : Type) :=
| Ok (a : A)
| Raise (e : exn).
Global Arguments Ok {A} a.
Global Arguments Raise {A} e.

(** Directories, regular files with their contents, and the tools run
    so far (oldest first), each with its command line and the files it
    found when it started.  Paths are compared as strings. *)
Record World := mkWorld {
  dirs : gset string;
  files : gmap string string;
  calls : list (list string * gmap string string)
}.

(** What the script cannot decide: the file system's real paths, the name
    [mkdtemp] picks, what HTK and SoX do to the files and print, what
    [wave.open] makes of the contents of an audio file (the header, or
    the exception it raises on contents that are not a WAVE file),
    whether [sox] is on the [PATH], and what [glob] finds for a pattern
    whose directory part has pattern characters of its own.  The tools
    are taken to be installed and to write regular files only. *)
Record Env := mkEnv {
  realpath : string → string;
  mkdtemp_name : World → string;
  tool_files : list string → gmap string string → gmap string string;
  tool_stdout : list string → gmap string string → list string;
  wave_header : string → string + Z * Z; (* (framerate, nchannels) *)
  wave_repr : string → string;           (* [str] of a [Wave_read] object *)
  sox_in_path : bool;
  glob_magic : string → World → list string
}.

(** A computation changes the world and returns or raises; what was
    written before an exception stays written. *)
Definition M (A : Type) : Type := World → result A * World.

Global Instance M_ret : MRet M := λ A a w, (Ok a, w).
Global Instance M_bind : MBind M := λ A B k m w,
  match m w with
  | (Ok a, w') => k a w'
  | (Raise e, w') => (Raise e, w')
  end.

Definition raise {A} (e : exn) : M A := λ w, (Raise e, w).
Definition get_world : M World := λ w, (Ok w, w).

Definition error {A} (msg : string) : M A :=
  raise (SystemExit ("Error: " +:+ msg)).

Fixpoint for_each {A} (l : list A) (body : A → M unit) : M unit :=
  match l with
  | [] => mret ()
  | x :: l' => body x ;; for_each l' body
  end.

Fixpoint foldM {A S} (body : S → A → M S) (acc : S) (l : list A) : M S :=
  match l with
  | [] => mret acc
  | x :: l' => acc' ← body acc x; foldM body acc' l'
  end.

(** [xrange(n)] iterations of a body without a loop variable. *)
Fixpoint repeatM {S} (n : nat) (body : S → M S) (acc : S) : M S :=
  match n with
  | O => mret acc
  | S n' => acc' ← body acc; repeatM n' body acc'
  end.

Definition path_exists (w : World) (p : string) : bool :=
  bool_decide (p ∈ dirs w) || bool_decide (p ∈ dom (files w)).

(** [os.mkdir(p)]: refuses a path that exists. *)
Definition mkdir (p : string) : M unit := λ w,
  if path_exists w p then (Raise (OSError p), w)
  else (Ok (), mkWorld ({[p]} ∪ dirs w) (files w) (calls w)).

(** [open(p, 'w')], [open(p, 'a')], [file.write(s)] on a file opened for
    writing at [p], and reading a whole file. *)
Definition open_w (p : string) : M unit := λ w,
  (Ok (), mkWorld (dirs w) (<[p := ""]> (files w)) (calls w)).

Definition open_a (p : string) : M unit := λ w,
  (Ok (), mkWorld (dirs w) (<[p := default "" (files w !! p)]> (files w))
                  (calls w)).

Definition fwrite (p s : string) : M unit := λ w,
  (Ok (), mkWorld (dirs w)
                  (<[p := default "" (files w !! p) +:+ s]> (files w))
                  (calls w)).

Definition fread (p : string) : M string := λ w,
  match files w !! p with
  | Some c => (Ok c, w)
  | None => (Raise (IOError p), w)
  end.

(** [open(p, 'w').write(s)] *)
Definition write_file (p s : string) : M unit := open_w p ;; fwrite p s.

(** [glob(os.path.join(d, '*' + ext))] for a directory path [d] without
    pattern characters: the entries of [d] whose name ends in [ext] and
    does not start with a dot, as full paths, in the order the file
    system lists them. *)
Definition dir_slash (d : string) : string := Py.join d "".

Definition glob_match (d ext p : string) : bool :=
  Py.startswith p (dir_slash d) &&
  (let name := Py.sdrop (String.length (dir_slash d)) p in
   negb (bool_decide (name = "")) &&
   negb (bool_decide (is_Some (Py.rfind "/" name))) &&
   negb (Py.startswith name ".") &&
   Py.endswith name ext).

Definition glob (d ext : string) (w : World) : list string :=
  filter (λ p, glob_match d ext p = true)
         (elements (dirs w ∪ dom (files w))).

(** [glob.has_magic]: one of the pattern characters [*], [?] and [[]
    occurs in the string. *)
Fixpoint has_magic (s : string) : bool :=
  match s with
  | EmptyString => false
  | String c s' =>
      bool_decide (c = "*"%char) || bool_decide (c = "?"%char) ||
      bool_decide (c = "["%char) || has_magic s'
  end.

(** [p] is [d] or lies below it. *)
Definition under (d p : string) : bool :=
  bool_decide (p = d) || Py.startswith p (dir_slash d).

(** [shutil.rmtree(d)] *)
Definition rmtree (d : string) : M unit := λ w,
  (Ok (), mkWorld (filter (λ p, under d p = false) (dirs w))
                  (filter (λ kv, under d kv.1 = false) (files w))
                  (calls w)).

Section WithEnv.
Context (env : Env).

(** [subprocess.call(argv)]; the script never looks at the status. *)
Definition call (argv : list string) : M unit := λ w,
  (Ok (), mkWorld (dirs w) (tool_files env argv (files w))
                  (calls w ++ [(argv, files w)])).

(** [Popen(argv, stdout=PIPE).stdout], read to its end. *)
Definition popen_stdout (argv : list string) : M (list string) := λ w,
  (Ok (tool_stdout env argv (files w)),
   mkWorld (dirs w) (tool_files env argv (files w))
           (calls w ++ [(argv, files w)])).

(** [mkdtemp(dir=...)] *)
Definition mkdtemp : M string := λ w,
  let p := mkdtemp_name env w in
  (Ok p, mkWorld ({[p]} ∪ dirs w) (files w) (calls w)).

(** [glob(os.path.join(d, '*' + ext))] for any [d]: [glob] reads pattern
    characters in the directory part as a pattern too (a directory
    [set[1]] is looked for under the name [set1]), and gives what the
    file system has for it. *)
Definition glob_in (d ext : string) (w : World) : list string :=
  if has_magic d then glob_magic env (Py.join d ("*" +:+ ext)) w
  else glob d ext w.

(** [wave.open(wav, 'r')], as far as the script uses it: the frame rate
    and the number of channels. *)
Definition wave_open (wav : string) : M (Z * Z) :=
  content ← fread wav;
  match wave_header env content with
  | inr header => mret header
  | inl what => raise (WaveError what)
  end.

End WithEnv.

End Sys.

(** ** The [Aligner] object *)

(** The attributes of [self].  [wav_list], [cur_dir], [n] and [nxt_dir]
    are set by [_subclass_specific_init]; until then they hold
    placeholders.  [n] only counts up from zero. *)
Record aligner := mkAligner {
  sr : Z;
  has_sox : bool;
  tmp_dir : string;
  aud_dir : string;
  lab_dir : string;
  hmm_dir : string;
  dictionary : string;
  the_dict : gmap string (list string);
  words : string;
  phons : string;
  proto : string;
  taskdict : string;
  copy_scp : string;
  test_scp : string;
  train_scp : string;
  cfg : string;
  pron_mlf : string;
  word_mlf : string;
  phon_mlf : string;
  wav_list : list string;
  cur_dir : string;
  n : nat;
  nxt_dir : string
}.

Definition set_wav_list (l : list string) (s : aligner) : aligner :=
  mkAligner (sr s) (has_sox s) (tmp_dir s) (aud_dir s) (lab_dir s) (hmm_dir s)
    (dictionary s) (the_dict s) (words s) (phons s) (proto s) (taskdict s)
    (copy_scp s) (test_scp s) (train_scp s) (cfg s) (pron_mlf s) (word_mlf s)
    (phon_mlf s) l (cur_dir s) (n s) (nxt_dir s).

Definition set_train_scp (p : string) (s : aligner) : aligner :=
  mkAligner (sr s) (has_sox s) (tmp_dir s) (aud_dir s) (lab_dir s) (hmm_dir s)
    (dictionary s) (the_dict s) (words s) (phons s) (proto s) (taskdict s)
    (copy_scp s) (test_scp s) p (cfg s) (pron_mlf s) (word_mlf s)
    (phon_mlf s) (wav_list s) (cur_dir s) (n s) (nxt_dir s).

Definition set_cur_dir (p : string) (s : aligner) : aligner :=
  mkAligner (sr s) (has_sox s) (tmp_dir s) (aud_dir s) (lab_dir s) (hmm_dir s)
    (dictionary s) (the_dict s) (words s) (phons s) (proto s) (taskdict s)
    (copy_scp s) (test_scp s) (train_scp s) (cfg s) (pron_mlf s) (word_mlf s)
    (phon_mlf s) (wav_list s) p (n s) (nxt_dir s).

Definition set_n (k : nat) (s : aligner) : aligner :=
  mkAligner (sr s) (has_sox s) (tmp_dir s) (aud_dir s) (lab_dir s) (hmm_dir s)
    (dictionary s) (the_dict s) (words s) (phons s) (proto s) (taskdict s)
    (copy_scp s) (test_scp s) (train_scp s) (cfg s) (pron_mlf s) (word_mlf s)
    (phon_mlf s) (wav_list s) (cur_dir s) k (nxt_dir s).

Definition set_nxt_dir (p : string) (s : aligner) : aligner :=
  mkAligner (sr s) (has_sox s) (tmp_dir s) (aud_dir s) (lab_dir s) (hmm_dir s)
    (dictionary s) (the_dict s) (words s) (phons s) (proto s) (taskdict s)
    (copy_scp s) (test_scp s) (train_scp s) (cfg s) (pron_mlf s) (word_mlf s)
    (phon_mlf s) (wav_list s) (cur_dir s) (n s) p.

(** A double quote and a newline, for the format strings. *)
Definition dq : string := String "034" "".
Definition nl : string := String "010" "".
Definition tab : string := String "009" "".

(** ** [class Aligner] *)

Module Aligner.
Import Sys.

Section WithEnv.
Context (env : Env).

(** [_the_dict]: one entry per line, a later line for the same word
    replaces the earlier one; a blank line has no [line[0]]. *)
Definition _the_dict (dictionary : string)
  : M (gmap string (list string)) :=
  content ← fread dictionary;
  foldM (λ (d : gmap string (list string)) line,
           match Py.split (Py.rstrip line) with
           | [] => raise IndexError
           | word :: pron => mret (<[word := pron]> d)
           end)
        ∅ (Py.readlines content).

(** [os.path.splitext(p)[0] + ext], the counterpart expected for [p]. *)
Definition expected (p ext : string) : string := (Py.splitext p).1 +:+ ext.

(** [_lists(path)] *)
Definition _lists (path : string) : M (list string * list string) :=
  w ← get_world;
  let wav_list := glob_in env (realpath env path) ".wav" w in
  let lab_list := glob_in env (realpath env path) ".lab" w in
  if bool_decide (length wav_list < 1)%nat then
    error ("Directory " +:+ path +:+ " has no .wav files")
  else
    let unpaired_list :=
      omap (λ lab, let wav := expected lab ".wav" in
                   if path_exists w wav then None else Some wav) lab_list ++
      omap (λ wav, let lab := expected wav ".lab" in
                   if path_exists w lab then None else Some lab) wav_list in
    (if bool_decide (unpaired_list = []) then mret ()
     else
       open_w unpaired ;;
       for_each unpaired_list (λ path, fwrite unpaired (path +:+ nl)) ;;
       error ("Missing .wav or .lab files; see " +:+ unpaired)) ;;
    mret (wav_list, lab_list).

(** The two label files derived from the transcript [lab]. *)
Definition phon_lab_path (self : aligner) (lab : string) : string :=
  Py.join (aud_dir self) (Py.basename lab).
Definition word_lab_path (self : aligner) (lab : string) : string :=
  Py.join (lab_dir self) (Py.basename lab).

(** The body of [for word in ...]: [acc] is [(found_words, ood)]. *)
Definition word_step (self : aligner) (lab : string)
    (acc : gset string * gmap string (list string)) (word : string)
  : M (gset string * gmap string (list string)) :=
  match the_dict self !! word with
  | Some pron =>
      for_each pron (λ phon, fwrite (phon_lab_path self lab) (phon +:+ nl)) ;;
      fwrite (word_lab_path self lab) (word +:+ " ") ;;
      fwrite (word_mlf self) (word +:+ nl) ;;
      mret ({[word]} ∪ acc.1, acc.2)
  | None =>
      mret (acc.1, <[word := default [] (acc.2 !! word) ++ [lab]]> acc.2)
  end.

(** The words of a transcript: its first line, split on blanks. *)
Definition transcript_words (content : string) : list string :=
  Py.split (Py.rstrip (Py.readline content)).

(** The body of [for lab in lab_list]. *)
Definition lab_step (self : aligner)
    (acc : gset string * gmap string (list string)) (lab : string)
  : M (gset string * gmap string (list string)) :=
  open_w (phon_lab_path self lab) ;;
  open_w (word_lab_path self lab) ;;
  fwrite (word_mlf self) (dq +:+ word_lab_path self lab +:+ dq +:+ nl) ;;
  fwrite (phon_lab_path self lab) (sil +:+ nl) ;;
  content ← fread lab;
  acc' ← foldM (word_step self lab) acc (transcript_words content);
  fwrite (phon_lab_path self lab) (sil +:+ nl) ;;
  fwrite (word_mlf self) ("." +:+ nl) ;;
  mret acc'.

(** The [with open(self.word_mlf, 'w')] block of [_check_dct]: returns
    [(found_words, ood)]. *)
Definition label_files (self : aligner) (lab_list : list string)
  : M (gset string * gmap string (list string)) :=
  open_w (word_mlf self) ;;
  fwrite (word_mlf self) ("#!MLF!#" +:+ nl) ;;
  foldM (lab_step self) (∅, ∅) lab_list.

(** The lines of [outofdict]; a dictionary is walked in an order of its
    own. *)
Definition ood_line (ood_mode : bool) (entry : string * list string)
  : string :=
  if ood_mode then entry.1 +:+ tab +:+ Py.str_join " " entry.2 +:+ nl
  else entry.1 +:+ nl.

(** [_check_dct(lab_list, ood_mode)] *)
Definition _check_dct (self : aligner) (lab_list : list string)
    (ood_mode : bool) : M unit :=
  '(found_words, ood) ← label_files self lab_list;
  (if bool_decide (ood = ∅) then mret ()
   else
     open_w outofdict ;;
     for_each (map_to_list ood)
              (λ entry, fwrite outofdict (ood_line ood_mode entry)) ;;
     error ("Out of dictionary word(s), see " +:+ outofdict)) ;;
  write_file (words self) (Py.str_join nl (elements found_words)) ;;
  let ded := Py.join (tmp_dir self) temp in
  write_file ded ("AS " +:+ sp +:+ nl +:+
                  "MP " +:+ sil +:+ " " +:+ sil +:+ " " +:+ sp) ;;
  call env ["HDMan"; "-m"; "-g"; ded; "-w"; words self; "-n"; phons self;
            taskdict self; dictionary self] ;;
  open_a (phons self) ;; fwrite (phons self) ("sil" +:+ nl) ;;
  open_a (taskdict self) ;; fwrite (taskdict self) ("sil sil" +:+ nl) ;;
  let led := Py.join (tmp_dir self) temp in
  write_file led ("EX" +:+ nl +:+ "IS " +:+ sil +:+ " " +:+ sil +:+ nl +:+
                  "DE " +:+ sp +:+ nl) ;;
  call env ["HLEd"; "-l"; lab_dir self; "-d"; taskdict self; "-i";
            phon_mlf self; led; word_mlf self].

(** [_check_aud(wav_list, training)]; [header] is
    [(w.getframerate(), w.getnchannels())]. *)
Definition needs_resampling (self : aligner) (header : Z * Z) : bool :=
  negb (bool_decide (header.1 = sr self)) ||
  negb (bool_decide (header.2 = 1)).

Definition _check_aud (self : aligner) (wav_list : list string)
    (training : bool) : M unit :=
  open_a (copy_scp self) ;;
  let check_scp := if training then train_scp self else test_scp self in
  open_w check_scp ;;
  if has_sox self then
    for_each wav_list (λ wav,
      let head := (Py.splitext (Py.basename wav)).1 in
      let mfc := Py.join (aud_dir self) (head +:+ ".mfc") in
      header ← wave_open env wav;
      wav' ← (if needs_resampling self header then
                let new_wav := Py.join (aud_dir self) (head +:+ ".wav") in
                call env ["sox"; wav; "-r"; Py.str (Z.to_nat (sr self));
                          new_wav; "remix"; "-"] ;;
                mret new_wav
              else mret wav);
      fwrite (copy_scp self) (wav' +:+ " " +:+ mfc +:+ nl) ;;
      fwrite check_scp (mfc +:+ nl))
  else
    for_each wav_list (λ wav,
      let head := (Py.splitext wav).1 in
      let mfc := Py.join (aud_dir self) (head +:+ ".mfc") in
      header ← wave_open env wav;
      (if needs_resampling self header then
         error ("File " +:+ wave_repr env wav +:+
                " requires resampling but Sox not found")
       else mret ()) ;;
      fwrite (copy_scp self) (wav +:+ " " +:+ mfc +:+ nl) ;;
      fwrite check_scp (mfc +:+ nl)).

(** [_check(ts_dir, ood_mode)] *)
Definition _check (self : aligner) (ts_dir : string) (ood_mode : bool)
  : M aligner :=
  '(wav_list, lab_list) ← _lists ts_dir;
  let self := set_wav_list wav_list self in
  _check_dct self lab_list ood_mode ;;
  _check_aud self (wav_list) false ;;
  mret self.

(** [_HCopy] *)
Definition cfg_tail : string :=
  "TARGETRATE = 100000.0" +:+ nl +:+ "TARGETKIND = MFCC_D_A_0" +:+ nl +:+
  "WINDOWSIZE = 250000.0" +:+ nl +:+ "PREEMCOEF = 0.97" +:+ nl +:+
  "USEHAMMING = T" +:+ nl +:+ "ENORMALIZE = T" +:+ nl +:+
  "CEPLIFTER = 22" +:+ nl +:+ "NUMCHANS = 20" +:+ nl +:+ "NUMCEPS = 12".

Definition _HCopy (self : aligner) : M unit :=
  write_file (cfg self)
    ("SOURCEKIND = WAVEFORM" +:+ nl +:+ "SOURCEFORMAT = WAVE" +:+ nl +:+
     cfg_tail) ;;
  call env ["HCopy"; "-C"; cfg self; "-S"; copy_scp self] ;;
  write_file (cfg self) cfg_tail.

(** [_subclass_specific_init(ts_dir, tr_dir, ood_mode)] *)
Definition _subclass_specific_init (self : aligner) (ts_dir tr_dir : string)
    (ood_mode : bool) : M aligner :=
  self ← _check self ts_dir ood_mode;
  _HCopy self ;;
  mret (set_cur_dir tr_dir self).

(** The command line shared by [align] and [align_and_score], after the
    program name and the trace option. *)
Definition HVite_args (self : aligner) (mlf : string) : list string :=
  ["-a"; "-m"; "-y"; "lab"; "-o"; "SM"; "-b"; sil; "-i"; mlf;
   "-L"; lab_dir self; "-C"; cfg self; "-S"; test_scp self;
   "-H"; Py.join (cur_dir self) macro; "-H"; Py.join (cur_dir self) hmmdf;
   "-I"; word_mlf self; "-t"] ++ pruning ++ [taskdict self; phons self].

(** [align(mlf)] *)
Definition align (self : aligner) (mlf : string) : M unit :=
  call env ("HVite" :: HVite_args self mlf).

(** The body of the loop over the trace in [align_and_score]; [i] is the
    row counter. *)
Definition score_step (self : aligner) (score : string) (i : nat)
    (line : string) : M nat :=
  match Re.match_group1 HVite_score line with
  | Some group1 =>
      match wav_list self !! i with
      | Some wav => fwrite score (wav +:+ tab +:+ group1 +:+ nl) ;;
                    mret (S i)
      | None => raise IndexError
      end
  | None => mret i
  end.

(** [align_and_score(mlf, score)] *)
Definition align_and_score (self : aligner) (mlf score : string) : M unit :=
  open_w score ;;
  trace ← popen_stdout env ("HVite" :: "-T" :: "1" :: HVite_args self mlf);
  foldM (score_step self score) 0%nat trace ;;
  mret ().

(** [__del__] *)
Definition __del__ (self : aligner) : M unit := rmtree (tmp_dir self).

(** [__init__(ts_dir, tr_dir, dictionary, sr, ood_mode)]; the call of
    [self._subclass_specific_init] goes to the class of the object, here
    the argument [subclass_init]. *)
Definition __init__
    (subclass_init : aligner → string → string → bool → M aligner)
    (ts_dir tr_dir dictionary : string) (sr : Z) (ood_mode : bool)
  : M aligner :=
  tmp_dir ← mkdtemp env;
  let aud_dir := Py.join tmp_dir "DAT" in
  mkdir aud_dir ;;
  let lab_dir := Py.join tmp_dir "LAB" in
  mkdir lab_dir ;;
  let hmm_dir := Py.join tmp_dir "HMM" in
  mkdir hmm_dir ;;
  the_dict ← _the_dict dictionary;
  subclass_init
    (mkAligner sr (sox_in_path env) tmp_dir aud_dir lab_dir hmm_dir
       dictionary the_dict
       (Py.join tmp_dir "words") (Py.join tmp_dir "phones")
       (Py.join tmp_dir "proto") (Py.join tmp_dir "taskdict")
       (Py.join tmp_dir "copy.scp") (Py.join tmp_dir "test.scp")
       (Py.join tmp_dir "train.scp") (Py.join tmp_dir "cfg")
       (Py.join tmp_dir "pron.mlf") (Py.join tmp_dir "words.mlf")
       (Py.join tmp_dir "phones.mlf") [] "" 0%nat "")
    ts_dir tr_dir ood_mode.

End WithEnv.

End Aligner.

(** ** [class TrainAligner(Aligner)] *)

Module TrainAligner.
Import Sys.

(** The directory of generation [k]:
    [os.path.join(self.hmm_dir, str(k).zfill(3))]. *)
Definition gen_dir (self : aligner) (k : nat) : string :=
  Py.join (hmm_dir self) (Py.zfill 3 (Py.str k)).

(** [_nxt_dir] *)
Definition _nxt_dir (self : aligner) : M aligner :=
  let self := set_cur_dir (nxt_dir self) self in
  let self := set_n (n self + 1)%nat self in
  let self := set_nxt_dir (gen_dir self (n self)) self in
  mkdir (nxt_dir self) ;;
  mret self.

(** Lines 404-414 of [_subclass_specific_init], "create the next HMM
    directory".  The source has [self.n =+ 1], which assigns [+1]. *)
Definition init_generations (self : aligner) : M aligner :=
  let self := set_n 0%nat self in
  let self := set_cur_dir (gen_dir self (n self)) self in
  mkdir (cur_dir self) ;;
  let self := set_n 1%nat self in
  let self := set_nxt_dir (gen_dir self (n self)) self in
  mkdir (nxt_dir self) ;;
  mret self.

(** The flat-start prototype. *)
Definition proto_state (i : nat) : string :=
  "<STATE> " +:+ Py.str i +:+ nl +:+ "<MEAN> 39" +:+ nl +:+
  Py.str_join " " (replicate 39 "0.0") +:+ nl +:+
  "<VARIANCE> 39" +:+ nl +:+ Py.str_join " " (replicate 39 "1.0") +:+ nl.

Definition proto_text : string :=
  "~o <VECSIZE> 39 <MFCC_D_A_0>" +:+ nl +:+ "~h " +:+ dq +:+ "proto" +:+ dq
  +:+ nl +:+ "<BEGINHMM>" +:+ nl +:+ "<NUMSTATES> 5" +:+ nl +:+
  proto_state 2 +:+ proto_state 3 +:+ proto_state 4 +:+
  "<TRANSP> 5" +:+ nl +:+ " 0.0 1.0 0.0 0.0 0.0" +:+ nl +:+
  " 0.0 0.6 0.4 0.0 0.0" +:+ nl +:+ " 0.0 0.0 0.6 0.4 0.0" +:+ nl +:+
  " 0.0 0.0 0.0 0.7 0.3" +:+ nl +:+ " 0.0 0.0 0.0 0.0 0.0" +:+ nl +:+
  "<ENDHMM>".

(** The small-pause model: what [small_pause] collects in [saved], given
    the lines of the model file. *)
Fixpoint skip_past (x : string) (l : list string) : list string :=
  match l with
  | [] => []
  | y :: l' => if decide (y = x) then l' else skip_past x l'
  end.

Fixpoint take_before (x : string) (l : list string) : list string :=
  match l with
  | [] => []
  | y :: l' => if decide (y = x) then [] else y :: take_before x l'
  end.

Definition sil_header : string := "~h " +:+ dq +:+ sil +:+ dq +:+ nl.
Definition sp_header : string := "~h " +:+ dq +:+ sp +:+ dq +:+ nl.
Definition sp_open : string :=
  "<BEGINHMM>" +:+ nl +:+ "<NUMSTATES> 3" +:+ nl +:+ "<STATE> 2" +:+ nl.
Definition sp_transp : list string :=
  ["<TRANSP> 3" +:+ nl;
   " 0.0 1.0 0.0" +:+ nl +:+ " 0.0 0.9 0.1" +:+ nl +:+ " 0.0 0.0 0.0" +:+ nl
   +:+ "<ENDHMM>"].

Definition saved_lines (source : list string) : list string :=
  let source := skip_past sil_header source in
  let source := skip_past ("<STATE> 3" +:+ nl) source in
  [sp_header; sp_open] ++ take_before ("<STATE> 4" +:+ nl) source ++ sp_transp.

(** The edit script for HHEd. *)
Definition hed_text : string :=
  "AT 2 4 0.2 {" +:+ sil +:+ ".transP}" +:+ nl +:+
  "AT 4 2 0.2 {" +:+ sil +:+ ".transP} " +:+ nl +:+
  "AT 1 3 0.3 {" +:+ sp +:+ ".transP}" +:+ nl +:+
  "TI silst {" +:+ sil +:+ ".state[3]," +:+ sp +:+ ".state[2]}" +:+ nl.

Section WithEnv.
Context (env : Env).

(** [_check(ts_dir, tr_dir, ood_mode)] *)
Definition _check (self : aligner) (ts_dir tr_dir : string) (ood_mode : bool)
  : M aligner :=
  if bool_decide (ts_dir = tr_dir) then
    '(wav_list, lab_list) ← Aligner._lists env ts_dir;
    let self := set_wav_list wav_list self in
    Aligner._check_dct env self lab_list ood_mode ;;
    Aligner._check_aud env self (wav_list) false ;;
    mret (set_train_scp (test_scp self) self)
  else
    '(wav_list, ts_lab_list) ← Aligner._lists env ts_dir;
    let self := set_wav_list wav_list self in
    '(tr_wav_list, tr_lab_list) ← Aligner._lists env tr_dir;
    Aligner._check_dct env self (ts_lab_list ++ tr_lab_list) ood_mode ;;
    Aligner._check_aud env self (wav_list) false ;;
    Aligner._check_aud env self tr_wav_list true ;;
    mret self.

(** Lines 415-462 of [_subclass_specific_init]: the prototype, the
    variance floors, the macro file and the first model file. *)
Definition flat_start (self : aligner) : M unit :=
  write_file (proto self) proto_text ;;
  call env ["HCompV"; "-f"; f; "-C"; cfg self; "-S"; train_scp self;
            "-M"; cur_dir self; proto self] ;;
  let sink := Py.join (cur_dir self) macro in
  open_a sink ;;
  source ← fread (Py.join (cur_dir self) (Py.basename (proto self)));
  for_each (take 3 (Py.readlines source)) (λ line, fwrite sink line) ;;
  floors ← fread (Py.join (cur_dir self) vFloors);
  fwrite sink floors ;;
  let sink := Py.join (cur_dir self) hmmdf in
  open_w sink ;;
  phones ← fread (phons self);
  for_each (Py.readlines phones) (λ phone,
    source ← fread (proto self);
    fwrite sink ("~h " +:+ dq +:+ Py.rstrip phone +:+ dq +:+ nl) ;;
    fwrite sink (Py.cat (drop 2 (Py.readlines source)))).

(** [_subclass_specific_init(ts_dir, tr_dir, ood_mode)] *)
Definition _subclass_specific_init (self : aligner) (ts_dir tr_dir : string)
    (ood_mode : bool) : M aligner :=
  self ← _check self ts_dir tr_dir ood_mode;
  Aligner._HCopy env self ;;
  self ← init_generations self;
  flat_start self ;;
  mret self.

(** One round of [train]: the HERest command line, then [_nxt_dir]. *)
Definition HERest_argv (self : aligner) : list string :=
  ["HERest"; "-C"; cfg self; "-S"; train_scp self; "-I"; phon_mlf self;
   "-M"; nxt_dir self; "-H"; Py.join (cur_dir self) macro;
   "-H"; Py.join (cur_dir self) hmmdf; "-t"] ++ pruning ++ [phons self].

Definition train_round (self : aligner) : M aligner :=
  call env (HERest_argv self) ;;
  _nxt_dir self.

(** [train(niter)]: [xrange(niter)] is empty for [niter <= 0]. *)
Definition train (self : aligner) (niter : Z) : M aligner :=
  repeatM (Z.to_nat niter) train_round self.

(** [small_pause] *)
Definition HHEd_argv (self : aligner) (hed : string) : list string :=
  ["HHEd"; "-H"; Py.join (cur_dir self) macro;
   "-H"; Py.join (cur_dir self) hmmdf; "-M"; nxt_dir self; hed; phons self].

Definition small_pause (self : aligner) : M aligner :=
  let source := Py.join (cur_dir self) hmmdf in
  content ← fread source;
  fwrite source (Py.cat (saved_lines (Py.readlines content))) ;;
  let hed := Py.join (tmp_dir self) temp in
  write_file hed hed_text ;;
  call env (HHEd_argv self hed) ;;
  _nxt_dir self.

End WithEnv.

End TrainAligner.

(** ** [__main__], after the options are read

    [tr_dir] is [None] without [-t]; [require_training] records a [-n] or
    [-s] option.  The run is followed up to the score table; the
    conversion of the alignment to TextGrids is done by the [textgrid]
    module. *)

Module Main.
Import Sys.

Section WithEnv.
Context (env : Env).

Definition run (ts_dir : string) (tr_dir : option string)
    (dictionary : string) (sr : Z) (ood_mode : bool) (n_per_round : Z)
    (require_training : bool) : M aligner :=
  let path_to_mlf := Py.join ts_dir align_mlf in
  match tr_dir with
  | Some tr_dir =>
      aligner ← Aligner.__init__ env (TrainAligner._subclass_specific_init env)
                  ts_dir tr_dir dictionary sr ood_mode;
      aligner ← TrainAligner.train env aligner n_per_round;
      aligner ← TrainAligner.small_pause env aligner;
      aligner ← TrainAligner.train env aligner n_per_round;
      Aligner.align env aligner (phon_mlf aligner) ;;
      aligner ← TrainAligner.train env aligner n_per_round;
      Aligner.align_and_score env aligner path_to_mlf
        (Py.join ts_dir scores_txt) ;;
      mret aligner
  | None =>
      (if require_training
       then error "-n, -s only available in training (-t) mode"
       else mret ()) ;;
      aligner ← Aligner.__init__ env (Aligner._subclass_specific_init env)
                  ts_dir "MOD" dictionary sr ood_mode;
      Aligner.align_and_score env aligner path_to_mlf
        (Py.join ts_dir scores_txt) ;;
      mret aligner
  end.

End WithEnv.

End Main.

(** ** Vocabulary for the statements *)

Module Obs.
Import Sys.

(** The log-likelihoods of the trace lines that match the score
    pattern, in the order of the trace. *)
Definition score_lines (trace : list string) : list string :=
  omap (Re.match_group1 HVite_score) trace.

(** A row of the score table: ['{0}\t{1}\n'.format(wav, group1)]. *)
Definition score_row (wav group1 : string) : string :=
  wav +:+ tab +:+ group1 +:+ nl.

(** The command line of the scoring run and the trace it prints; the
    engine starts when the score file has just been opened. *)
Definition score_argv (self : aligner) (mlf : string) : list string :=
  "HVite" :: "-T" :: "1" :: Aligner.HVite_args self mlf.

Definition score_trace (env : Env) (self : aligner) (score mlf : string)
    (w : World) : list string :=
  tool_stdout env (score_argv self mlf) (<[score := ""]> (files w)).

(** The bookkeeping of generations: the next directory is the one of
    ordinal [n], the directories up to [n] exist and none beyond. *)
Definition gen_inv (self : aligner) (w : World) : Prop :=
  nxt_dir self = TrainAligner.gen_dir self (n self) ∧
  (∀ k : nat, (k ≤ n self)%nat → TrainAligner.gen_dir self k ∈ dirs w) ∧
  (∀ k : nat, (n self < k)%nat →
     path_exists w (TrainAligner.gen_dir self k) = false).

(** The state [_nxt_dir] leaves, and the state after [k] advances. *)
Definition advanced (self : aligner) : aligner :=
  set_nxt_dir (TrainAligner.gen_dir self (n self + 1))
    (set_n (n self + 1) (set_cur_dir (nxt_dir self) self)).

Fixpoint advanced_by (k : nat) (self : aligner) : aligner :=
  match k with
  | O => self
  | S k' => advanced_by k' (advanced self)
  end.

(** The directories of the generations [a+1 .. a+k]. *)
Definition gen_dirs (self : aligner) (a k : nat) : list string :=
  TrainAligner.gen_dir self <$> seq (S a) k.

(** The tools write files, never an entry at the path of a generation
    directory. *)
Definition tools_spare_generations (env : Env) (self : aligner) : Prop :=
  ∀ argv fs (k : nat),
    fs !! TrainAligner.gen_dir self k = None →
    tool_files env argv fs !! TrainAligner.gen_dir self k = None.

(** The state [init_generations] leaves. *)
Definition initial (self : aligner) : aligner :=
  set_nxt_dir (TrainAligner.gen_dir self 1)
    (set_n 1 (set_cur_dir (TrainAligner.gen_dir self 0) (set_n 0 self))).

(** The command lines of the tools run so far. *)
Definition argvs (w : World) : list (list string) := (calls w).*1.

(** The command line of round [i] (from zero) of a [train] that starts
    in state [self]. *)
Definition round_argv (self : aligner) (i : nat) : list string :=
  TrainAligner.HERest_argv (advanced_by i self).

(** *** Corpus validation *)

(** The name of an utterance: what a [*.wav] or [*.lab] entry of a
    directory has before its extension. *)
Definition valid_stem (stem : string) : Prop :=
  stem ≠ "" ∧ Py.rfind "/" stem = None ∧ Py.startswith stem "." = false.

(** An extension: a dot and then neither dots nor slashes. *)
Definition is_ext (ext : string) : Prop :=
  ∃ e, ext = String "." e ∧ Py.rfind "." e = None ∧ Py.rfind "/" e = None.

(** The audio file and the transcript of the utterance [stem] in the
    directory [d]. *)
Definition audio_of (d stem : string) : string :=
  dir_slash d +:+ stem +:+ ".wav".




(** *** Dictionary resolution *)

(** The words of the transcript [lab] as the world [w] holds it. *)
Definition words_of (w : World) (lab : string) : list string :=
  Aligner.transcript_words (default "" (files w !! lab)).

(** Some word of some transcript is absent from the dictionary. *)
Definition some_word_missing (self : aligner) (w : World)
    (lab_list : list string) : Prop :=
  ∃ lab word, lab ∈ lab_list ∧ word ∈ words_of w lab ∧
              the_dict self !! word = None.

(** The transcripts that contain [word], once for each time they do, in
    the order of the list. *)
Fixpoint occurrences (w : World) (word : string) (lab_list : list string)
  : list string :=
  match lab_list with
  | [] => []
  | lab :: l =>
      replicate (length (filter (λ x, x = word) (words_of w lab))) lab ++
      occurrences w word l
  end.

(** The pronunciations of the in-vocabulary words of a transcript, one
    after the other. *)
Definition pronunciations (d : gmap string (list string))
    (ws : list string) : list string :=
  concat (omap (λ word, d !! word) ws).

(** A phone-level label: one phone per line between two [sil] lines. *)
Definition phon_label (d : gmap string (list string)) (ws : list string)
  : string :=
  sil +:+ nl +:+ Py.cat ((λ phon, phon +:+ nl) <$> pronunciations d ws) +:+
  sil +:+ nl.

(** The files the labelling writes. *)
Definition label_targets (self : aligner) (lab_list : list string)
  : list string :=
  word_mlf self :: (Aligner.phon_lab_path self <$> lab_list) ++
                   (Aligner.word_lab_path self <$> lab_list).

(** The object keeps its label files where [__init__] puts them, and
    [p] lies outside the workspace [tmp]. *)
Definition laid_out (self : aligner) : Prop :=
  aud_dir self = Py.join (tmp_dir self) "DAT" ∧
  lab_dir self = Py.join (tmp_dir self) "LAB" ∧
  word_mlf self = Py.join (tmp_dir self) "words.mlf".

Definition outside (tmp p : string) : Prop :=
  Py.startswith p (dir_slash tmp) = false.

(** [w'] differs from [w] at most in the contents of the files [T]. *)
Definition frame (T : list string) (w w' : World) : Prop :=
  dirs w' = dirs w ∧ calls w' = calls w ∧
  ∀ p, p ∉ T → files w' !! p = files w !! p.

(** The accumulators of [_check_dct] without the writing. *)
Definition step_word (d : gmap string (list string)) (lab : string)
    (acc : gset string * gmap string (list string)) (word : string)
  : gset string * gmap string (list string) :=
  match d !! word with
  | Some _ => ({[word]} ∪ acc.1, acc.2)
  | None => (acc.1, <[word := default [] (acc.2 !! word) ++ [lab]]> acc.2)
  end.

Definition step_lab (d : gmap string (list string)) (w : World)
    (acc : gset string * gmap string (list string)) (lab : string)
  : gset string * gmap string (list string) :=
  foldl (step_word d lab) acc (words_of w lab).

Definition resolved (self : aligner) (w : World) (lab_list : list string)
  : gset string * gmap string (list string) :=
  foldl (step_lab (the_dict self) w) (∅, ∅) lab_list.

(** [ood] holds, for every word outside the dictionary [d] that occurs,
    the list [f word], and nothing else. *)
Definition ood_inv (d : gmap string (list string))
    (ood : gmap string (list string)) (f : string → list string) : Prop :=
  ∀ word, ood !! word =
          if decide (d !! word = None ∧ f word ≠ [])
          then Some (f word) else None.

(** The last character of a string. *)
Fixpoint slast (s : string) : option ascii :=
  match s with
  | "" => None
  | String c "" => Some c
  | String _ s' => slast s'
  end.

(** Reading a string of digits back. *)
Definition parse_nat (s : string) : option nat :=
  Nat.of_uint <$> NilEmpty.uint_of_string s.

(** The world a computation ends in, and its outcome. *)
Definition world_after {A} (m : M A) (w : World) : World := (m w).2.
Definition outcome {A} (m : M A) (w : World) : result A := (m w).1.

Definition returns {A} (m : M A) (w : World) : Prop :=
  ∃ a, outcome m w = Ok a.

End Obs.

(** ** Concrete runs, for the examples *)

Module Demo.
Import Sys.

(** An environment whose tools leave the files alone and print
    [trace]; every audio file is a WAVE file, mono at 25 kHz; and no
    directory of the file system is matched by a directory part with
    pattern characters, so that [glob] finds nothing for one. *)
Definition quiet_env (trace : list string) : Env :=
  mkEnv (λ p, p) (λ _, "/tmp/tmpA") (λ _ fs, fs) (λ _ _, trace)
        (λ _, inr (25000, 1)) (λ _, "<wave.Wave_read instance>") true
        (λ _ _, []).

(** The object [__init__] builds in the workspace [tmp]. *)
Definition aligner_in (tmp : string) (d : gmap string (list string))
    (wavs : list string) : aligner :=
  mkAligner 25000 true tmp (Py.join tmp "DAT") (Py.join tmp "LAB")
    (Py.join tmp "HMM") "dictionary.txt" d
    (Py.join tmp "words") (Py.join tmp "phones") (Py.join tmp "proto")
    (Py.join tmp "taskdict") (Py.join tmp "copy.scp")
    (Py.join tmp "test.scp") (Py.join tmp "train.scp") (Py.join tmp "cfg")
    (Py.join tmp "pron.mlf") (Py.join tmp "words.mlf")
    (Py.join tmp "phones.mlf") wavs "MOD" 0%nat "".

Definition world_of (ds : list string) (fs : list (string * string))
  : World :=
  mkWorld (list_to_set ds) (list_to_map fs) [].

(** Two trace lines of HVite, as [-T 1] prints them. *)
Definition trace_a : string :=
  "sil hh ax l ow sil  ==  [397 frames] -61.3071 [Ac=-24338.9 LM=0.0] (Act=118.9)"
  +:+ nl.
Definition trace_b : string :=
  "sil w er l d sil  ==  [120 frames] -65.1250 [Ac=-7815.0 LM=0.0] (Act=97.2)"
  +:+ nl.
Definition trace_file (p : string) : string :=
  "Aligning File: " +:+ p +:+ nl.

(** A workspace as [__init__] lays it out, and a trainer in it. *)
Definition workspace : World :=
  world_of ["/tmp/tmpA"; "/tmp/tmpA/DAT"; "/tmp/tmpA/LAB"; "/tmp/tmpA/HMM"] [].
Definition trainer : aligner := aligner_in "/tmp/tmpA" ∅ ["/c/a.wav"].

(** A model file as HERest writes it, with a phone and the silence
    model, in the workspace after [init_generations]. *)
Definition ah_lines : list string :=
  (λ l, l +:+ nl) <$>
    ["~h " +:+ dq +:+ "ah" +:+ dq; "<BEGINHMM>"; "<NUMSTATES> 5";
     "<STATE> 2"; "<MEAN> 2"; " 0.1 0.2"; "<VARIANCE> 2"; " 1.0 1.0";
     "<STATE> 3"; "<MEAN> 2"; " 0.3 0.4"; "<VARIANCE> 2"; " 1.0 1.0";
     "<STATE> 4"; "<MEAN> 2"; " 0.5 0.6"; "<VARIANCE> 2"; " 1.0 1.0";
     "<TRANSP> 5"; "<ENDHMM>"].
Definition sil_state2 : list string :=
  (λ l, l +:+ nl) <$>
    ["<BEGINHMM>"; "<NUMSTATES> 5";
     "<STATE> 2"; "<MEAN> 2"; " 1.1 1.2"; "<VARIANCE> 2"; " 2.0 2.0"].
Definition sil_state3 : list string :=
  (λ l, l +:+ nl) <$> ["<MEAN> 2"; " 1.3 1.4"; "<VARIANCE> 2"; " 2.0 2.0"].
Definition sil_rest : list string :=
  (λ l, l +:+ nl) <$>
    ["<MEAN> 2"; " 1.5 1.6"; "<VARIANCE> 2"; " 2.0 2.0";
     "<TRANSP> 5"; "<ENDHMM>"].

Definition hmmdefs_text : string :=
  Py.cat (ah_lines ++ TrainAligner.sil_header :: sil_state2 ++
          ("<STATE> 3" +:+ nl) :: sil_state3 ++
          ("<STATE> 4" +:+ nl) :: sil_rest).

Definition pause_world : World :=
  Sys.mkWorld
    (list_to_set ["/tmp/tmpA"; "/tmp/tmpA/DAT"; "/tmp/tmpA/LAB";
                  "/tmp/tmpA/HMM"; "/tmp/tmpA/HMM/000"; "/tmp/tmpA/HMM/001"])
    {[ "/tmp/tmpA/HMM/000/hmmdefs" := hmmdefs_text ]} [].

(** A corpus of two utterances, the second with a word the dictionary
    lacks, and an aligner whose dictionary has two words. *)
Definition two_words : gmap string (list string) :=
  {[ "hello" := ["hh"; "ax"; "l"; "ow"]; "world" := ["w"; "er"; "l"; "d"] ]}.

Definition corpus : World :=
  world_of ["/tmp/tmpA"; "/tmp/tmpA/DAT"; "/tmp/tmpA/LAB"; "/tmp/tmpA/HMM";
            "/c"]
           [("/c/a.wav", "RIFF"); ("/c/a.lab", "hello world" +:+ nl);
            ("/c/b.wav", "RIFF"); ("/c/b.lab", "hello there  world" +:+ nl)].

Definition reader : aligner :=
  aligner_in "/tmp/tmpA" two_words ["/c/a.wav"; "/c/b.wav"].



(** Two audio files, and a trace with their two score lines. *)
Definition two_files : aligner :=
  aligner_in "/tmp/tmpA" ∅ ["/c/a.wav"; "/c/b.wav"].
Definition two_scores : Env :=
  quiet_env [trace_file "/tmp/tmpA/DAT/a.mfc"; trace_a;
             trace_file "/tmp/tmpA/DAT/b.mfc"; trace_b].

End Demo.

(** ** What every run of a computation keeps *)

Module Keeps.
Import Sys.

(** However [m] ends, the world it ends in is related by [R] to the
    world it started in. *)
Definition keeps {A} (R : relation World) (m : M A) : Prop :=
  ∀ w, R w (m w).2.

(** The same, and what [m] returns, when it returns, passes [Q]. *)
Definition yields {A} (R : relation World) (Q : A → Prop) (m : M A) : Prop :=
  ∀ w, R w (m w).2 ∧ ∀ a, (m w).1 = Ok a → Q a.

(** The same for the run from the world [w] alone. *)
Definition yields_from {A} (R : relation World) (Q : A → Prop) (m : M A)
    (w : World) : Prop :=
  R w (m w).2 ∧ ∀ a, (m w).1 = Ok a → Q a.

(** The same for the run from [w0], with [R] from the world [w1] on. *)
Definition yields_after {A} (R : relation World) (Q : A → Prop) (m : M A)
    (w1 w0 : World) : Prop :=
  R w1 (m w0).2 ∧ ∀ a, (m w0).1 = Ok a → Q a.

(** [R] is kept by a write to a path that passes [may_write], by making a
    directory, and by a tool with a command line that passes [may_run]. *)
Record disciplined (env : Env) (R : relation World)
    (may_write : string → Prop) (may_run : list string → Prop) : Prop :=
  Disciplined {
    d_fwrite : ∀ p s, may_write p → keeps R (fwrite p s);
    d_open_w : ∀ p, may_write p → keeps R (open_w p);
    d_open_a : ∀ p, may_write p → keeps R (open_a p);
    d_mkdir : ∀ p, keeps R (mkdir p);
    d_mkdtemp : keeps R (mkdtemp env);
    d_call : ∀ argv, may_run argv → keeps R (call env argv);
    d_popen : ∀ argv, may_run argv → keeps R (popen_stdout env argv)
  }.

(** No tool has been run. *)
Definition same_log : relation World := λ w w', calls w' = calls w.

Global Instance same_log_preorder : PreOrder same_log :=
  Build_PreOrder same_log (λ w, eq_refl) (λ x y z H1 H2, eq_trans H2 H1).

End Keeps.

(** ** Vocabulary for the pronouncing dictionary *)

Module DictObs.

(** A line of whitespace only (the empty line included). *)
Fixpoint blank (line : string) : bool :=
  match line with
  | "" => true
  | String c line' => Ascii.is_space c && blank line'
  end.

(** The tokens of a dictionary line: [line.rstrip().split()]. *)
Definition tokens (line : string) : list string := Py.split (Py.rstrip line).

(** The dictionary with the entry of one more line, without the
    effects. *)
Definition add_line (d : gmap string (list string)) (line : string)
  : gmap string (list string) :=
  match tokens line with
  | [] => d
  | word :: pron => <[word := pron]> d
  end.

(** No line of [lines] starts with the token [word]. *)
Definition no_entry (word : string) (lines : list string) : Prop :=
  ∀ line pron, line ∈ lines → tokens line ≠ word :: pron.

End DictObs.

(** ** More concrete runs *)

Module Samples.
Import Sys.

(** A dictionary that gives [hello] twice. *)
Definition lexicon : string :=
  "hello hh ax l ow" +:+ nl +:+ "world  w er l d" +:+ nl +:+
  "hello hh eh l ow" +:+ nl.

Definition lexicon_world : World :=
  Demo.world_of [] [("dictionary.txt", lexicon)].

End Samples.

(** ** Vocabulary for the audio check *)

Module AudObs.
Import Sys.

(** What [wave.open] makes of the audio file [wav] as the world [w]
    holds it. *)
Definition header_of (env : Env) (w : World) (wav : string)
  : string + Z * Z :=
  wave_header env (default "" (files w !! wav)).

(** [wav] is a WAVE file. *)
Definition is_wave (env : Env) (w : World) (wav : string) : bool :=
  match header_of env w wav with
  | inr _ => true
  | inl _ => false
  end.

(** [wav] is a WAVE file that is not mono at the sample rate of the
    models. *)
Definition resample (env : Env) (self : aligner) (w : World) (wav : string)
  : bool :=
  match header_of env w wav with
  | inr header => Aligner.needs_resampling self header
  | inl _ => false
  end.

(** [wav] is a WAVE file, mono at the sample rate of the models. *)
Definition fits (env : Env) (self : aligner) (w : World) (wav : string)
  : bool :=
  is_wave env w wav && negb (resample env self w wav).

(** The feature file the check asks HCopy for: without SoX (line 313)
    and with it (line 300); and the resampled copy SoX is asked for
    (line 303). *)
Definition mfc_nosox (self : aligner) (wav : string) : string :=
  Py.join (aud_dir self) ((Py.splitext wav).1 +:+ ".mfc").
Definition mfc_sox (self : aligner) (wav : string) : string :=
  Py.join (aud_dir self) ((Py.splitext (Py.basename wav)).1 +:+ ".mfc").
Definition new_wav (self : aligner) (wav : string) : string :=
  Py.join (aud_dir self) ((Py.splitext (Py.basename wav)).1 +:+ ".wav").

(** The file the check lists the feature files in. *)
Definition check_scp (self : aligner) (training : bool) : string :=
  if training then train_scp self else test_scp self.

(** The tools leave the files [P] as they are. *)
Definition spares (env : Env) (P : list string) : Prop :=
  ∀ argv fs p, p ∈ P → tool_files env argv fs !! p = fs !! p.

End AudObs.

Module Samples3.
Import Sys.

(** Tools that leave the files alone; an audio file that holds [RIFF8]
    is sampled at 8 kHz and one that holds [RIFF] at 25 kHz, both mono;
    any other file does not start with the RIFF id. *)
Definition picky_env : Env :=
  mkEnv (λ p, p) (λ _, "/tmp/tmpA") (λ _ fs, fs) (λ _ _, [])
        (λ c, if bool_decide (c = "RIFF8") then inr (8000, 1)
              else if bool_decide (c = "RIFF") then inr (25000, 1)
              else inl "file does not start with RIFF id")
        (λ _, "<wave.Wave_read instance>") true (λ _ _, []).

(** Two audio files, the second at 8 kHz. *)
Definition mixed_corpus : World :=
  Demo.world_of ["/tmp/tmpA"; "/tmp/tmpA/DAT"; "/c"]
                [("/c/a.wav", "RIFF"); ("/c/b.wav", "RIFF8")].

(** An audio file, and a text file under the name of an audio file. *)
Definition stray_corpus : World :=
  Demo.world_of ["/tmp/tmpA"; "/tmp/tmpA/DAT"; "/c"]
                [("/c/a.wav", "RIFF"); ("/c/b.wav", "notes")].

(** An aligner on a machine without SoX, and one with it. *)
Definition without_sox : aligner :=
  mkAligner 25000 false "/tmp/tmpA" "/tmp/tmpA/DAT" "/tmp/tmpA/LAB"
    "/tmp/tmpA/HMM" "dictionary.txt" ∅ "/tmp/tmpA/words" "/tmp/tmpA/phones"
    "/tmp/tmpA/proto" "/tmp/tmpA/taskdict" "/tmp/tmpA/copy.scp"
    "/tmp/tmpA/test.scp" "/tmp/tmpA/train.scp" "/tmp/tmpA/cfg"
    "/tmp/tmpA/pron.mlf" "/tmp/tmpA/words.mlf" "/tmp/tmpA/phones.mlf"
    ["/c/a.wav"; "/c/b.wav"] "MOD" 0%nat "".

Definition with_sox : aligner :=
  Demo.aligner_in "/tmp/tmpA" ∅ ["/c/a.wav"; "/c/b.wav"].

End Samples3.

(** ** Vocabulary for the flat start *)

Module FlatObs.
Import Sys.

(** The command line of HCompV. *)
Definition HCompV_argv (self : aligner) : list string :=
  ["HCompV"; "-f"; f; "-C"; cfg self; "-S"; train_scp self;
   "-M"; cur_dir self; proto self].

(** The files HCompV leaves when run from the world [w], in which the
    prototype has just been written. *)
Definition after_HCompV (env : Env) (self : aligner) (w : World)
  : gmap string string :=
  tool_files env (HCompV_argv self)
             (<[proto self := TrainAligner.proto_text]> (files w)).

(** The model of one phone in the first model file: its header and the
    prototype [protoc] from its third line on. *)
Definition flat_model (protoc phone : string) : string :=
  "~h " +:+ dq +:+ Py.rstrip phone +:+ dq +:+ nl +:+
  Py.cat (drop 2 (Py.readlines protoc)).

End FlatObs.

Module Samples4.
Import Sys.

(** An HCompV that writes the prototype it was given and a file of
    variance floors into the directory named after [-M]; the other
    tools leave the files alone. *)
Definition floors_text : string :=
  "~v varFloor1" +:+ nl +:+ "<Variance> 39" +:+ nl.

Definition flat_env : Env :=
  mkEnv (λ p, p) (λ _, "/tmp/tmpA")
        (λ argv fs,
           match argv with
           | ["HCompV"; _; _; _; _; _; _; _; dir; proto] =>
               <[Py.join dir "vFloors" := floors_text]>
                 (<[Py.join dir (Py.basename proto) :=
                      default "" (fs !! proto)]> fs)
           | _ => fs
           end)
        (λ _ _, []) (λ _, inr (25000, 1)) (λ _, "<wave.Wave_read instance>")
        true (λ _ _, []).

(** A workspace after [init_generations], with a list of two phones and
    [sil]. *)
Definition flat_world : World :=
  mkWorld (list_to_set ["/tmp/tmpA"; "/tmp/tmpA/HMM"; "/tmp/tmpA/HMM/000";
                        "/tmp/tmpA/HMM/001"])
          {[ "/tmp/tmpA/phones" := "ah" +:+ nl +:+ "ow" +:+ nl +:+ "sil" +:+ nl ]}
          [].

End Samples4.

(** ** Vocabulary for the label files *)

Module LabelObs.
Import Sys Obs.

(** The words of [ws] that the dictionary [d] has, in order. *)
Definition in_vocabulary (d : gmap string (list string)) (ws : list string)
  : list string :=
  filter (λ word, is_Some (d !! word)) ws.

(** A word-level label: each word followed by a space. *)
Definition word_label (d : gmap string (list string)) (ws : list string)
  : string :=
  Py.cat ((λ word, word +:+ " ") <$> in_vocabulary d ws).

(** The entry of the transcript [lab] in the word archive: the quoted
    path of its word-level label, its words one per line, a period. *)
Definition mlf_entry (self : aligner) (w : World) (lab : string) : string :=
  dq +:+ Aligner.word_lab_path self lab +:+ dq +:+ nl +:+
  Py.cat ((λ word, word +:+ nl) <$>
          in_vocabulary (the_dict self) (words_of w lab)) +:+
  "." +:+ nl.

End LabelObs.

Module Samples5.
Import Sys.

(** A test and a training directory that both have an [s01]. *)
Definition namesakes : World :=
  Demo.world_of ["/tmp/tmpA"; "/tmp/tmpA/DAT"; "/tmp/tmpA/LAB"; "/ts"; "/tr"]
    [("/ts/s01.lab", "hello world" +:+ nl);
     ("/tr/s01.lab", "hello there" +:+ nl)].

End Samples5.

(** ** Vocabulary for the trace lines *)

Module TraceObs.

(** Every character of [s] passes [P]. *)
Fixpoint all_of (P : ascii → bool) (s : string) : bool :=
  match s with
  | "" => true
  | String c s' => P c && all_of P s'
  end.

Definition is_digit (c : ascii) : bool :=
  bool_decide (is_Some (Ascii.is_nat c)).

(** A non-empty string of decimal digits. *)
Definition number (s : string) : Prop := s ≠ "" ∧ all_of is_digit s = true.

(** A non-empty string without a newline. *)
Definition on_one_line (s : string) : Prop :=
  s ≠ "" ∧ all_of (λ c, negb (bool_decide (c = "010"%char))) s = true.

(** [s] has two equals signs in a row somewhere. *)
Fixpoint has_eqeq (s : string) : bool :=
  match s with
  | "" => false
  | String c s' =>
      match s' with
      | String c' _ =>
          (bool_decide (c = "="%char) && bool_decide (c' = "="%char))
          || has_eqeq s'
      | "" => false
      end
  end.

(** [s] does not start with a digit. *)
Definition no_digit_ahead (s : string) : Prop :=
  match s with
  | "" => True
  | String c _ => is_digit c = false
  end.

End TraceObs.

(** ** Vocabulary for the small-pause model *)

Module PauseObs.
Import Sys TrainAligner.

(** A small-pause model without a state body: what [small_pause]
    appends when it finds no state to copy. *)
Definition empty_pause : string :=
  "~h " +:+ dq +:+ "sp" +:+ dq +:+ nl +:+
  "<BEGINHMM>" +:+ nl +:+ "<NUMSTATES> 3" +:+ nl +:+ "<STATE> 2" +:+ nl +:+
  "<TRANSP> 3" +:+ nl +:+
  " 0.0 1.0 0.0" +:+ nl +:+ " 0.0 0.9 0.1" +:+ nl +:+ " 0.0 0.0 0.0" +:+ nl +:+
  "<ENDHMM>".

End PauseObs.

Module Samples8.
Import Sys.

(** A model file with one phone and no silence model. *)
Definition mute_world : World :=
  Sys.mkWorld
    (list_to_set ["/tmp/tmpA"; "/tmp/tmpA/HMM"; "/tmp/tmpA/HMM/000";
                  "/tmp/tmpA/HMM/001"])
    {[ "/tmp/tmpA/HMM/000/hmmdefs" := Py.cat Demo.ah_lines ]} [].

End Samples8.

(** ** Vocabulary for whole runs *)

Module RunObs.
Import Sys Obs Keeps.

(** The tools of an alignment, and those a training adds. *)
Definition align_tools : list string :=
  ["HDMan"; "HLEd"; "sox"; "HCopy"; "HVite"].
Definition train_tools : list string := ["HCompV"; "HERest"; "HHEd"].

(** The program a command line names is one of [progs]. *)
Definition runs_one_of (progs : list string) (argv : list string) : Prop :=
  ∃ prog rest, argv = prog :: rest ∧ prog ∈ progs.

(** Since [w], only programs of [progs] have been run. *)
Definition log_in (progs : list string) : relation World := λ w w',
  ∃ l, argvs w' = argvs w ++ l ∧ Forall (runs_one_of progs) l.

(** Every file that does not pass [allowed] is as it was. *)
Definition files_kept (allowed : string → Prop) : relation World := λ w w',
  ∀ p, ¬ allowed p → files w' !! p = files w !! p.

(** No directory has been removed, and no file. *)
Definition dirs_kept : relation World := λ w w', dirs w ⊆ dirs w'.

Definition names_kept : relation World := λ w w',
  dom (files w) ⊆ dom (files w').

(** The tools change no file that does not pass [allowed]. *)
Definition tools_keep (env : Env) (allowed : string → Prop) : Prop :=
  ∀ argv fs p, ¬ allowed p → tool_files env argv fs !! p = fs !! p.

(** The paths the object keeps for the files and directories of its
    own. *)
Definition paths_of (self : aligner) : list string :=
  [aud_dir self; lab_dir self; hmm_dir self; words self; phons self;
   proto self; taskdict self; copy_scp self; test_scp self; train_scp self;
   cfg self; pron_mlf self; word_mlf self; phon_mlf self].

(** The object as [__init__] lays it out in the workspace [tmp]; a
    trainer that trains on the test data has the test list for its
    training list. *)
Definition housed (tmp : string) (self : aligner) : Prop :=
  tmp_dir self = tmp ∧
  aud_dir self = Py.join tmp "DAT" ∧
  lab_dir self = Py.join tmp "LAB" ∧
  hmm_dir self = Py.join tmp "HMM" ∧
  words self = Py.join tmp "words" ∧
  phons self = Py.join tmp "phones" ∧
  proto self = Py.join tmp "proto" ∧
  taskdict self = Py.join tmp "taskdict" ∧
  copy_scp self = Py.join tmp "copy.scp" ∧
  test_scp self = Py.join tmp "test.scp" ∧
  (train_scp self = Py.join tmp "train.scp" ∨
   train_scp self = Py.join tmp "test.scp") ∧
  cfg self = Py.join tmp "cfg" ∧
  pron_mlf self = Py.join tmp "pron.mlf" ∧
  word_mlf self = Py.join tmp "words.mlf" ∧
  phon_mlf self = Py.join tmp "phones.mlf".

(** A trainer, whose model directories are in the workspace too. *)
Definition stationed (tmp : string) (self : aligner) : Prop :=
  housed tmp self ∧ under tmp (cur_dir self) = true ∧
  under tmp (nxt_dir self) = true.

End RunObs.

Module Samples9.
Import Sys.

(** A corpus of one utterance, with its dictionary, before the run. *)
Definition plain_corpus : World :=
  Demo.world_of ["/c"]
    [("/c/a.wav", "RIFF"); ("/c/a.lab", "hello world" +:+ nl);
     ("dictionary.txt", Samples.lexicon)].

(** The workspace, the two reports and the score table of a run on
    [/c]. *)
Definition run_files (p : string) : Prop :=
  under "/tmp/tmpA" p = true ∨
  p ∈ ["unpaired.txt"; "outofdict.txt"; "/c/.SCORES.txt"].

End Samples9.

(** ** [__main__]: the options

    [getopt(argv[1:], 'd:n:s:t:amhu')] gives the options as pairs of an
    option and its value, and the other arguments.  [int] is Python's
    conversion of a string, [None] for a [ValueError]; [readable] and
    [present] are [os.access] with [R_OK] and with [F_OK].  What the
    script prints on the way (the usage, the line on the nearest viable
    rate) is left out. *)

Module Options.
Import Sys.

(** How the script ends before it has its settings: in [error], in a
    [NotImplementedError], or in the [else] branch of the loop. *)
Inductive stop :=
| Exit (msg : string)
| NotImplementedError (msg : string)
| OtherOption (opt : string).

Record settings := mkSettings {
  o_dictionary : string;
  o_sr : Z;
  o_tr_dir : option string;
  o_ood_mode : bool;
  o_n_per_round : Z;
  o_require_training : bool
}.

(** Lines 572-579. *)
Definition defaults : settings :=
  mkSettings "dictionary.txt" 25000 None false 4 false.

(** [error(msg)] before the object is made. *)
Definition usage_error {A} (msg : string) : stop + A :=
  inl (Exit ("Error: " +:+ msg)).

Section WithShell.
Context (int : string → option Z) (readable present : string → bool).

(** One turn of [for (opt, val) in opts]. *)
Definition option_step (st : settings) (ov : string * string)
  : stop + settings :=
  let '(opt, val) := ov in
  if bool_decide (opt = "-d") then
    if readable val
    then inr (mkSettings val (o_sr st) (o_tr_dir st) (o_ood_mode st)
                (o_n_per_round st) (o_require_training st))
    else usage_error ("-d path " +:+ val +:+ " not found")
  else if bool_decide (opt = "-m") then
    inr (mkSettings (o_dictionary st) (o_sr st) (o_tr_dir st) true
           (o_n_per_round st) (o_require_training st))
  else if bool_decide (opt = "-n") then
    match int val with
    | Some n =>
        if (0 <? n) && (n <? 25)
        then inr (mkSettings (o_dictionary st) (o_sr st) (o_tr_dir st)
                    (o_ood_mode st) n true)
        else usage_error "-n value must be 0 < n < 25"
    | None => usage_error "-n value must be 0 < n < 25"
    end
  else if bool_decide (opt = "-s") then
    match int val with
    | Some sr =>
        if 0 <? sr
        then inr (mkSettings (o_dictionary st) (SampleRate.sane_samplerate sr)
                    (o_tr_dir st) (o_ood_mode st) (o_n_per_round st) true)
        else usage_error "-s value must be > 0"
    | None => usage_error "-s value must be > 0"
    end
  else if bool_decide (opt = "-t") then
    if present val
    then inr (mkSettings (o_dictionary st) (o_sr st) (Some val)
                (o_ood_mode st) (o_n_per_round st) (o_require_training st))
    else usage_error ("-t path " +:+ val +:+ " cannot be read")
  else if bool_decide (opt = "-h") then
    usage_error "-h requests usage message"
  else if bool_decide (opt = "-a") then
    inl (NotImplementedError "Not yet implemented.")
  else if bool_decide (opt = "-u") then
    inl (NotImplementedError "Not yet implemented")
  else inl (OtherOption opt).

Fixpoint options (opts : list (string * string)) (st : settings)
  : stop + settings :=
  match opts with
  | [] => inr st
  | ov :: opts' =>
      match option_step st ov with
      | inr st' => options opts' st'
      | inl s => inl s
      end
  end.

(** Lines 569-629: the settings, and the test directory, which is the
    last of the other arguments. *)
Definition command_line (opts : list (string * string)) (args : list string)
  : stop + (string * settings) :=
  match options opts defaults with
  | inr st =>
      match last args with
      | Some ts_dir => inr (ts_dir, st)
      | None => usage_error "No test directory specified"
      end
  | inl s => inl s
  end.

(** [if tr_dir:] takes the training branch for a string that is not
    empty. *)
Definition training_dir (st : settings) : option string :=
  match o_tr_dir st with
  | Some d => if bool_decide (d = "") then None else Some d
  | None => None
  end.

(** The script from the options to the score table. *)
Definition script (env : Env) (opts : list (string * string))
    (args : list string) (w : World) : (stop + result aligner) * World :=
  match command_line opts args with
  | inr (ts_dir, st) =>
      let r := Main.run env ts_dir (training_dir st) (o_dictionary st)
                 (o_sr st) (o_ood_mode st) (o_n_per_round st)
                 (o_require_training st) w in
      (inr r.1, r.2)
  | inl s => (inl s, w)
  end.

End WithShell.

End Options.

Module OptObs.

(** The values given with the option [opt], in the order of the command
    line. *)
Definition values (opt : string) (opts : list (string * string))
  : list string :=
  (filter (λ ov, ov.1 = opt) opts).*2.

(** The option [opt] is on the command line. *)
Definition given (opt : string) (opts : list (string * string)) : Prop :=
  opt ∈ opts.*1.

End OptObs.

Module Samples10.

(** Python's [int] on the strings of the examples. *)
Definition int_of (s : string) : option Z :=
  if bool_decide (s = "8100") then Some 8100
  else if bool_decide (s = "25000") then Some 25000
  else if bool_decide (s = "2") then Some 2
  else None.

End Samples10.

(* ================================================================== *)
(** * Properties *)

(** ** Sample-rate selection *)

Module SampleRateFacts.
Import SampleRate.

Lemma StronglySorted_sorted_nth a : StronglySorted Z.le a → sorted_nth a.
Proof.
  induction 1 as [|x a Hs IH Hall]; intros i j [Hij Hj]; simpl in *.
  - lia.
  - destruct i as [|i], j as [|j]; try lia.
    + rewrite Forall_forall in Hall. apply Hall.
      apply list_elem_of_In, nth_In. lia.
    + apply IH. lia.
Qed.

Lemma SRs_sorted : sorted_nth SRs.
Proof.
  apply StronglySorted_sorted_nth.
  unfold SRs. repeat (constructor; [|by repeat constructor]). constructor.
Qed.

Lemma half_bounds (lo hi : nat) :
  (lo < hi)%nat → (lo ≤ (lo + hi) / 2 < hi)%nat.
Proof.
  intros H. split.
  - apply Nat.div_le_lower_bound; lia.
  - apply Nat.Div0.div_lt_upper_bound; lia.
Qed.

(** The loop returns the insertion point to the right of every entry
    [<= x]. *)
Lemma bisect_loop_spec a x : sorted_nth a →
  ∀ (fuel lo hi : nat),
    (lo ≤ hi ≤ length a)%nat → (hi - lo ≤ fuel)%nat →
    (∀ j : nat, (j < lo)%nat → nth j a 0 ≤ x) →
    (∀ j : nat, (hi ≤ j < length a)%nat → x < nth j a 0) →
    let r := bisect_loop fuel a x lo hi in
    (lo ≤ r ≤ hi)%nat ∧
    (∀ j : nat, (j < r)%nat → nth j a 0 ≤ x) ∧
    (∀ j : nat, (r ≤ j < length a)%nat → x < nth j a 0).
Proof.
  intros Hs. induction fuel as [|fuel IH]; intros lo hi Hb Hf Hlo Hhi;
    cbn [bisect_loop].
  - assert (lo = hi) as -> by lia. auto with lia.
  - destruct (Nat.ltb_spec lo hi) as [Hlt|Hge].
    + pose proof (half_bounds lo hi Hlt) as Hm.
      set (mid := ((lo + hi) / 2)%nat) in *.
      destruct (Z.ltb_spec x (nth mid a 0)) as [Hx|Hx].
      * assert (∀ j : nat, (mid ≤ j < length a)%nat → x < nth j a 0) as Hmid.
        { intros j Hj. eapply Z.lt_le_trans; [exact Hx|]. apply Hs. lia. }
        destruct (IH lo mid ltac:(lia) ltac:(lia) Hlo Hmid) as (Hr & H1 & H2).
        split; [lia|]. auto.
      * assert (∀ j : nat, (j < mid + 1)%nat → nth j a 0 ≤ x) as Hmid.
        { intros j Hj. eapply Z.le_trans; [|exact Hx]. apply Hs. lia. }
        destruct (IH (mid + 1)%nat hi ltac:(lia) ltac:(lia) Hmid Hhi)
          as (Hr & H1 & H2).
        split; [lia|]. auto.
    + assert (lo = hi) as -> by lia. auto with lia.
Qed.

Lemma bisect_spec a x : sorted_nth a →
  (bisect a x ≤ length a)%nat ∧
  (∀ j : nat, (j < bisect a x)%nat → nth j a 0 ≤ x) ∧
  (∀ j : nat, (bisect a x ≤ j < length a)%nat → x < nth j a 0).
Proof.
  intros Hs. unfold bisect.
  destruct (bisect_loop_spec a x Hs (length a) 0%nat (length a))
    as (Hr & H1 & H2); try lia.
  auto with lia.
Qed.

(** The insertion point is determined by its two defining properties. *)
Lemma bisect_unique a x (i : nat) : sorted_nth a →
  (i ≤ length a)%nat →
  (∀ j : nat, (j < i)%nat → nth j a 0 ≤ x) →
  (∀ j : nat, (i ≤ j < length a)%nat → x < nth j a 0) →
  bisect a x = i.
Proof.
  intros Hs Hi H1 H2. destruct (bisect_spec a x Hs) as (Hb & B1 & B2).
  destruct (Nat.lt_trichotomy (bisect a x) i) as [Hlt|[->|Hgt]]; [|done|].
  - specialize (H1 (bisect a x) Hlt). specialize (B2 (bisect a x)). lia.
  - specialize (B1 i Hgt). specialize (H2 i). lia.
Qed.

Lemma nth_SRs_lookup (i : nat) (v : Z) : SRs !! i = Some v → nth i SRs 0 = v.
Proof. intros H. by rewrite nth_lookup, H. Qed.

(** A supported rate is left alone. *)
Lemma sane_samplerate_supported sr : sr ∈ SRs → sane_samplerate sr = sr.
Proof. intros H. unfold sane_samplerate. by rewrite bool_decide_eq_true_2. Qed.

(** A request under every supported rate gets the lowest one. *)
Lemma sane_samplerate_below sr : sr < 4000 → sane_samplerate sr = 4000.
Proof.
  intros H. unfold sane_samplerate.
  rewrite bool_decide_eq_false_2.
  - unfold nearest_viable.
    rewrite (bisect_unique SRs sr 0%nat SRs_sorted); [done|simpl; lia|lia|].
    intros j Hj. pose proof (SRs_sorted 0%nat j ltac:(lia)) as H0.
    simpl (nth 0 SRs 0) in H0. lia.
  - intros Hin. apply list_elem_of_In in Hin. simpl in Hin. lia.
Qed.

(** A request over every supported rate gets the highest one. *)
Lemma sane_samplerate_above sr : 200000 < sr → sane_samplerate sr = 200000.
Proof.
  intros H. unfold sane_samplerate.
  rewrite bool_decide_eq_false_2.
  - unfold nearest_viable.
    rewrite (bisect_unique SRs sr (length SRs) SRs_sorted); [done|lia| |lia].
    intros j Hj. pose proof (SRs_sorted j 17%nat) as H0.
    simpl (nth 17 SRs 0) in H0. simpl (length SRs) in *. lia.
  - intros Hin. apply list_elem_of_In in Hin. simpl in Hin. lia.
Qed.

(** Strictly between two consecutive supported rates the insertion point
    is the index of the upper one. *)
Lemma bisect_between (i : nat) lo hi sr :
  SRs !! i = Some lo → SRs !! S i = Some hi → lo < sr < hi →
  bisect SRs sr = S i.
Proof.
  intros Hlo Hhi Hsr.
  pose proof (lookup_lt_Some _ _ _ Hhi) as Hlen.
  apply nth_SRs_lookup in Hlo, Hhi.
  apply bisect_unique; [apply SRs_sorted|lia| |].
  - intros j Hj. pose proof (SRs_sorted j i ltac:(lia)). lia.
  - intros j Hj. pose proof (SRs_sorted (S i) j ltac:(lia)). lia.
Qed.

Lemma between_unsupported (i : nat) lo hi sr :
  SRs !! i = Some lo → SRs !! S i = Some hi → lo < sr < hi → sr ∉ SRs.
Proof.
  intros Hlo Hhi Hsr Hin.
  pose proof (lookup_lt_Some _ _ _ Hhi) as Hlen.
  apply nth_SRs_lookup in Hlo, Hhi.
  apply list_elem_of_lookup in Hin as [j Hj].
  pose proof (lookup_lt_Some _ _ _ Hj) as Hjlen.
  apply nth_SRs_lookup in Hj.
  destruct (decide (j ≤ i)%nat).
  - pose proof (SRs_sorted j i ltac:(lia)). lia.
  - pose proof (SRs_sorted (S i) j ltac:(lia)). lia.
Qed.

(** Between two consecutive supported rates the script always takes the
    upper one, whichever is nearer. *)
Lemma sane_samplerate_between (i : nat) lo hi sr :
  SRs !! i = Some lo → SRs !! S i = Some hi → lo < sr < hi →
  sane_samplerate sr = hi.
Proof.
  intros Hlo Hhi Hsr. unfold sane_samplerate.
  rewrite bool_decide_eq_false_2 by eauto using between_unsupported.
  unfold nearest_viable. rewrite (bisect_between i lo hi) by done.
  pose proof (lookup_lt_Some _ _ _ Hhi) as Hlen.
  apply nth_SRs_lookup in Hhi. rewrite Hhi.
  destruct (Nat.eqb_spec (S i) (length SRs)) as [Heq|_]; [lia|].
  cbn [Nat.eqb]. by destruct (_ >? _).
Qed.

(** C1 (the code against the claim).  The clamps and the exact matches of
    the claim hold ([sane_samplerate_supported], [sane_samplerate_below],
    [sane_samplerate_above]), but a request strictly between two supported
    rates is not resolved to the nearer one: 8100 lies 100 above 8000 and
    1900 below 10000, the nearer neighbour is 8000, and the script
    selects 10000.  The boundary examples of the claim evaluate as
    stated. *)
Theorem C1_upper_neighbour_even_when_lower_is_nearer :
  sane_samplerate 4000 = 4000 ∧
  sane_samplerate 3000 = 4000 ∧
  sane_samplerate 999999 = 200000 ∧
  SRs !! 1%nat = Some 8000 ∧ SRs !! 2%nat = Some 10000 ∧
  nearer 8000 10000 8100 = 8000 ∧
  sane_samplerate 8100 = 10000 ∧
  sane_samplerate 8100 ≠ nearer 8000 10000 8100.
Proof. repeat split; try reflexivity. vm_compute. discriminate. Qed.

End SampleRateFacts.




(** ** Strings *)

Module StrFacts.

Lemma sapp_nil_l (s : string) : "" +:+ s = s.
Proof. done. Qed.

Lemma sapp_cons (a : ascii) (s1 s2 : string) :
  String a s1 +:+ s2 = String a (s1 +:+ s2).
Proof. done. Qed.

Lemma sapp_nil_r (s : string) : s +:+ "" = s.
Proof. induction s as [|a s IH]; [done|]. by rewrite sapp_cons, IH. Qed.

Lemma sapp_assoc (s1 s2 s3 : string) : (s1 +:+ s2) +:+ s3 = s1 +:+ s2 +:+ s3.
Proof.
  induction s1 as [|a s1 IH]; [done|]. by rewrite !sapp_cons, IH.
Qed.

Lemma slength_app (s1 s2 : string) :
  String.length (s1 +:+ s2) = (String.length s1 + String.length s2)%nat.
Proof.
  induction s1 as [|a s1 IH]; [done|]. rewrite sapp_cons. simpl. by rewrite IH.
Qed.

Lemma cat_nil : Py.cat [] = "".
Proof. done. Qed.

Lemma cat_cons (x : string) (l : list string) :
  Py.cat (x :: l) = x +:+ Py.cat l.
Proof. done. Qed.

Lemma cat_app (l1 l2 : list string) :
  Py.cat (l1 ++ l2) = Py.cat l1 +:+ Py.cat l2.
Proof.
  induction l1 as [|x l1 IH]; [done|].
  by rewrite <- app_comm_cons, !cat_cons, IH, sapp_assoc.
Qed.

End StrFacts.

(** ** The monad *)

Module MFacts.
Import Sys Obs.

Lemma bind_ok {A B} (m : M A) (k : A → M B) w a w' :
  m w = (Ok a, w') → (m ≫= k) w = k a w'.
Proof. intros H. unfold mbind, M_bind. by rewrite H. Qed.

Lemma bind_raise {A B} (m : M A) (k : A → M B) w e w' :
  m w = (Raise e, w') → (m ≫= k) w = (Raise e, w').
Proof. intros H. unfold mbind, M_bind. by rewrite H. Qed.

Lemma fread_ok p w c : files w !! p = Some c → fread p w = (Ok c, w).
Proof. intros H. unfold fread. by rewrite H. Qed.

Lemma write_file_eq p s w :
  write_file p s w = (Ok (), mkWorld (dirs w) (<[p := s]> (files w)) (calls w)).
Proof.
  unfold write_file, mbind, M_bind, open_w, fwrite. cbn [files dirs calls].
  by rewrite lookup_insert_eq, insert_insert_eq.
Qed.

Lemma call_eq env argv w :
  call env argv w =
  (Ok (), mkWorld (dirs w) (tool_files env argv (files w))
                  (calls w ++ [(argv, files w)])).
Proof. done. Qed.

Lemma fwrite_eq p s w :
  fwrite p s w =
  (Ok (), mkWorld (dirs w) (<[p := default "" (files w !! p) +:+ s]> (files w))
                  (calls w)).
Proof. done. Qed.

End MFacts.

(** ** Decimal names of the generations *)

Module GenFacts.
Import Sys Obs TrainAligner StrFacts MFacts.

Lemma to_uint_nonnil (k : nat) : Nat.to_uint k ≠ Decimal.Nil.
Proof.
  intros H. pose proof (Unsigned.of_to k) as Hk. rewrite H in Hk.
  cbn in Hk. subst k. discriminate H.
Qed.

Lemma parse_str (k : nat) : parse_nat (Py.str k) = Some k.
Proof.
  unfold parse_nat, Py.str, NilZero.string_of_uint.
  pose proof (to_uint_nonnil k) as Hnn.
  destruct (Nat.to_uint k) eqn:Hd; [done|..];
    rewrite <- Hd, NilEmpty.usu; cbn; by rewrite Unsigned.of_to.
Qed.

Lemma parse_zero (s : string) :
  parse_nat (String "0" s) = parse_nat s.
Proof.
  unfold parse_nat. cbn.
  by destruct (NilEmpty.uint_of_string s).
Qed.

Lemma parse_zfill (width k : nat) :
  parse_nat (Py.zfill width (Py.str k)) = Some k.
Proof.
  unfold Py.zfill.
  induction (width - String.length (Py.str k))%nat as [|z IH].
  - apply parse_str.
  - cbn [Py.zeros]. by rewrite sapp_cons, parse_zero.
Qed.

Lemma zfill_str_inj (width a b : nat) :
  Py.zfill width (Py.str a) = Py.zfill width (Py.str b) → a = b.
Proof.
  intros H. pose proof (parse_zfill width a) as Ha.
  rewrite H, parse_zfill in Ha. by inversion Ha.
Qed.

Lemma parse_slash (s : string) : parse_nat (String "/" s) = None.
Proof. unfold parse_nat. cbn. by destruct (NilEmpty.uint_of_string s). Qed.

Lemma zfill_str_no_slash (width k : nat) :
  Py.startswith (Py.zfill width (Py.str k)) "/" = false.
Proof.
  pose proof (parse_zfill width k) as H.
  destruct (Py.zfill width (Py.str k)) as [|c s]; [done|].
  unfold Py.startswith. cbn [String.prefix].
  destruct (ascii_dec "/" c) as [<-|]; [|done].
  by rewrite parse_slash in H.
Qed.

Lemma join_inj (a x y : string) :
  Py.startswith x "/" = false → Py.startswith y "/" = false →
  Py.join a x = Py.join a y → x = y.
Proof.
  unfold Py.join. intros -> ->.
  destruct (_ || _); intros H.
  - by apply String.app_inj in H.
  - by do 2 apply String.app_inj in H.
Qed.

(** Different ordinals have different directories. *)
Lemma gen_dir_inj (self : aligner) (a b : nat) :
  gen_dir self a = gen_dir self b → a = b.
Proof.
  unfold gen_dir. intros H.
  apply join_inj in H; auto using zfill_str_no_slash.
  by apply zfill_str_inj in H.
Qed.

Lemma path_exists_false w p :
  path_exists w p = false ↔ (p ∉ dirs w) ∧ (files w !! p = None).
Proof.
  unfold path_exists. rewrite orb_false_iff, !bool_decide_eq_false.
  by rewrite not_elem_of_dom.
Qed.

Lemma gen_dir_advanced self k : gen_dir (advanced self) k = gen_dir self k.
Proof. done. Qed.

(** One advance, from a state that satisfies the invariant. *)
Lemma nxt_dir_run self w :
  gen_inv self w →
  _nxt_dir self w =
    (Ok (advanced self),
     mkWorld ({[gen_dir self (n self + 1)]} ∪ dirs w) (files w) (calls w)).
Proof.
  intros (Hn & Hold & Hnew).
  unfold _nxt_dir, mbind, M_bind, mkdir. cbn.
  change (gen_dir (set_n (n self + 1) (set_cur_dir (nxt_dir self) self)))
    with (gen_dir self).
  by rewrite (Hnew (n self + 1)%nat) by lia.
Qed.

Lemma nxt_dir_inv self w :
  gen_inv self w →
  gen_inv (advanced self)
    (mkWorld ({[gen_dir self (n self + 1)]} ∪ dirs w) (files w) (calls w)).
Proof.
  intros (Hn & Hold & Hnew). split_and!.
  - done.
  - intros k Hk. rewrite gen_dir_advanced. cbn in *.
    destruct (decide (k = n self + 1)%nat) as [->|Hne]; [set_solver|].
    apply elem_of_union_r, Hold. lia.
  - intros k Hk. rewrite gen_dir_advanced. cbn in Hk.
    destruct (proj1 (path_exists_false _ _) (Hnew k ltac:(lia))) as [Hd Hf].
    apply path_exists_false. cbn. split; [|done].
    intros [Heq%elem_of_singleton|Hin]%elem_of_union; [|done].
    apply gen_dir_inj in Heq. lia.
Qed.

Lemma n_advanced_by k self : n (advanced_by k self) = (n self + k)%nat.
Proof.
  revert self. induction k as [|k IH]; intros self; cbn [advanced_by].
  - lia.
  - rewrite IH. cbn. lia.
Qed.

Lemma hmm_dir_advanced_by k self :
  hmm_dir (advanced_by k self) = hmm_dir self.
Proof.
  revert self. induction k as [|k IH]; intros self; [done|].
  cbn [advanced_by]. by rewrite IH.
Qed.

Lemma gen_dir_advanced_by k self j :
  gen_dir (advanced_by k self) j = gen_dir self j.
Proof. unfold gen_dir. by rewrite hmm_dir_advanced_by. Qed.

(** The generation directories are pairwise different. *)
Lemma gen_dirs_NoDup self a k : NoDup (gen_dirs self a k).
Proof.
  unfold gen_dirs. apply NoDup_fmap_2; [|apply NoDup_seq].
  intros x y. apply gen_dir_inj.
Qed.

(** [k] advances in a row. *)
Lemma advances_run (k : nat) : ∀ self w,
  gen_inv self w →
  repeatM k _nxt_dir self w =
    (Ok (advanced_by k self),
     mkWorld (list_to_set (gen_dirs self (n self) k) ∪ dirs w)
             (files w) (calls w)) ∧
  gen_inv (advanced_by k self)
    (mkWorld (list_to_set (gen_dirs self (n self) k) ∪ dirs w)
             (files w) (calls w)).
Proof.
  induction k as [|k IH]; intros self w Hinv.
  - cbn. unfold gen_dirs. cbn.
    assert ((∅ : gset string) ∪ dirs w = dirs w) as -> by set_solver.
    by destruct w.
  - cbn [repeatM advanced_by].
    rewrite (bind_ok _ _ _ _ _ (nxt_dir_run self w Hinv)).
    destruct (IH _ _ (nxt_dir_inv self w Hinv)) as [Hrun Hinv'].
    rewrite Hrun. cbn [dirs files calls] in *.
    assert (list_to_set (gen_dirs (advanced self) (n (advanced self)) k)
              ∪ ({[gen_dir self (n self + 1)]} ∪ dirs w)
            = list_to_set (gen_dirs self (n self) (S k)) ∪ dirs w) as Heq.
    { unfold gen_dirs. cbn [seq fmap list_fmap list_to_set].
      replace (n (advanced self)) with (S (n self)) by (cbn; lia).
      replace (n self + 1)%nat with (S (n self)) by lia.
      assert (gen_dir (advanced self) <$> seq (S (S (n self))) k
              = gen_dir self <$> seq (S (S (n self))) k) as -> by done.
      set_solver. }
    rewrite Heq in *. done.
Qed.

Lemma advanced_by_S k self :
  advanced_by (S k) self = advanced (advanced_by k self).
Proof.
  revert self. induction k as [|k IH]; intros self; [done|].
  cbn [advanced_by] in *. by rewrite IH.
Qed.

(** In a fresh [HMM] directory, the first two generations. *)
Lemma init_generations_run self w :
  (∀ k : nat, path_exists w (gen_dir self k) = false) →
  init_generations self w =
    (Ok (initial self),
     mkWorld ({[gen_dir self 1]} ∪ ({[gen_dir self 0]} ∪ dirs w))
             (files w) (calls w)) ∧
  gen_inv (initial self)
    (mkWorld ({[gen_dir self 1]} ∪ ({[gen_dir self 0]} ∪ dirs w))
             (files w) (calls w)).
Proof.
  intros Hfresh. split.
  - unfold init_generations, mbind, M_bind, mkdir. cbn.
    change (gen_dir (set_n 0 self)) with (gen_dir self).
    rewrite (Hfresh 0%nat).
    change (gen_dir (set_n 1 (set_cur_dir (gen_dir self 0) (set_n 0 self))))
      with (gen_dir self).
    destruct (proj1 (path_exists_false _ _) (Hfresh 1%nat)) as [Hd Hf].
    rewrite (proj2 (path_exists_false _ (gen_dir self 1))); [done|].
    cbn. split; [|done].
    intros [Heq%elem_of_singleton|Hin]%elem_of_union; [|done].
    by apply gen_dir_inj in Heq.
  - split_and!; [done| |].
    + intros k Hk. cbn in Hk. change (gen_dir (initial self)) with (gen_dir self).
      cbn. assert (k = 0 ∨ k = 1)%nat as [-> | ->] by lia; set_solver.
    + intros k Hk. cbn in Hk. change (gen_dir (initial self)) with (gen_dir self).
      destruct (proj1 (path_exists_false _ _) (Hfresh k)) as [Hd Hf].
      apply path_exists_false. cbn. split; [|done].
      intros [Heq%elem_of_singleton|[Heq%elem_of_singleton|Hin]%elem_of_union]
        %elem_of_union; [| |done]; apply gen_dir_inj in Heq; lia.
Qed.

(** A tool run keeps the invariant. *)
Lemma call_inv env self w argv :
  tools_spare_generations env self → gen_inv self w →
  gen_inv self (call env argv w).2.
Proof.
  intros Hspare (Hn & Hold & Hnew). split_and!; [done|done|].
  intros k Hk.
  destruct (proj1 (path_exists_false _ _) (Hnew k Hk)) as [Hd Hf].
  apply path_exists_false. cbn. split; [done|]. by apply Hspare.
Qed.

(** C6.  From a state in which the next directory is that of ordinal
    [n], the directories up to [n] exist and none beyond: one
    [_nxt_dir] returns, makes the previous next directory the current
    one, raises the ordinal by exactly one and creates the directory
    [os.path.join(hmm_dir, str(n).zfill(3))] of the new ordinal; that
    directory did not exist and is none of the earlier generations'.
    [k] advances raise the ordinal by [k] and create [k] pairwise
    different directories; the state they reach satisfies the
    invariant again.  (The invariant holds after lines 404-414,
    [init_generations_run], and tool runs keep it, [call_inv].) *)
Theorem C6_advance_is_monotonic (self : aligner) (w : World) :
  gen_inv self w →
  (let self' := advanced self in
   let w' := world_after (_nxt_dir self) w in
   outcome (_nxt_dir self) w = Ok self' ∧
   cur_dir self' = nxt_dir self ∧
   n self' = S (n self) ∧
   nxt_dir self' = Py.join (hmm_dir self) (Py.zfill 3 (Py.str (n self'))) ∧
   (nxt_dir self' ∉ dirs w) ∧
   (∀ k : nat, (k ≤ n self)%nat → gen_dir self k ≠ nxt_dir self') ∧
   dirs w' = {[nxt_dir self']} ∪ dirs w ∧
   gen_inv self' w') ∧
  (∀ k : nat,
     let selfk := advanced_by k self in
     let wk := world_after (repeatM k _nxt_dir self) w in
     outcome (repeatM k _nxt_dir self) w = Ok selfk ∧
     n selfk = (n self + k)%nat ∧
     dirs wk = list_to_set (gen_dirs self (n self) k) ∪ dirs w ∧
     length (gen_dirs self (n self) k) = k ∧
     NoDup (gen_dirs self (n self) k) ∧
     (∀ p, p ∈ gen_dirs self (n self) k → p ∉ dirs w) ∧
     gen_inv selfk wk).
Proof.
  intros Hinv. split.
  - cbv zeta. unfold outcome, world_after.
    rewrite (nxt_dir_run self w Hinv). cbn [fst snd dirs].
    destruct Hinv as (Hn & Hold & Hnew).
    assert (n (advanced self) = S (n self)) as Hn' by (cbn; lia).
    assert (nxt_dir (advanced self) = gen_dir self (n self + 1)) as Hnx by done.
    split_and!; try done.
    + rewrite Hnx.
      by destruct (proj1 (path_exists_false _ _)
                     (Hnew (n self + 1)%nat ltac:(lia))).
    + rewrite Hnx. intros k Hk Heq%gen_dir_inj. lia.
    + apply nxt_dir_inv. by split_and!.
  - intros k. cbv zeta. unfold outcome, world_after.
    destruct (advances_run k self w Hinv) as [-> Hinv'].
    cbn [fst snd dirs]. split_and!; auto using n_advanced_by, gen_dirs_NoDup.
    + unfold gen_dirs. by rewrite length_fmap, length_seq.
    + intros p [j [-> Hj%elem_of_seq]]%list_elem_of_fmap.
      destruct Hinv as (_ & _ & Hnew).
      by destruct (proj1 (path_exists_false _ _) (Hnew j ltac:(lia))).
Qed.

(** In the example workspace no generation directory exists yet. *)
Lemma demo_workspace_fresh (k : nat) :
  path_exists Demo.workspace (gen_dir Demo.trainer k) = false.
Proof.
  apply path_exists_false. split; [|done].
  assert (gen_dir Demo.trainer k
          = "/tmp/tmpA/HMM/" +:+ Py.zfill 3 (Py.str k)) as ->.
  { unfold gen_dir, Py.join. by rewrite zfill_str_no_slash. }
  unfold Demo.workspace, Demo.world_of. cbn [dirs].
  rewrite elem_of_list_to_set, !elem_of_cons, elem_of_nil.
  intros H. vm_compute in H. by repeat destruct H as [H|H].
Qed.

Lemma C6_witness :
  outcome (_nxt_dir (initial Demo.trainer))
          (world_after (init_generations Demo.trainer) Demo.workspace)
  = Ok (advanced (initial Demo.trainer)) ∧
  nxt_dir (advanced (initial Demo.trainer)) = "/tmp/tmpA/HMM/002".
Proof.
  unfold world_after.
  destruct (init_generations_run Demo.trainer Demo.workspace
              demo_workspace_fresh) as [-> Hinv].
  split; [|reflexivity].
  exact (proj1 (proj1 (C6_advance_is_monotonic _ _ Hinv))).
Defined.

End GenFacts.

(** ** The score table *)

Module ScoreFacts.
Import Sys Obs Aligner StrFacts MFacts.

Section WithEnv.
Context (env : Env) (self : aligner) (score : string).

(** The loop over the trace, started at row [i] on a score file holding
    [c]: the rows it appends pair the audio files from [i] on with the
    scores, as far as both last; it fails exactly when the scores outnumber
    the audio files left. *)
Lemma score_loop_spec (trace : list string) :
  ∀ (i : nat) (w : World) (c : string),
    files w !! score = Some c →
    (i ≤ length (wav_list self))%nat →
    let m := foldM (score_step self score) i trace in
    files (world_after m w) !! score =
      Some (c +:+ Py.cat (zip_with score_row (drop i (wav_list self))
                                  (score_lines trace))) ∧
    dirs (world_after m w) = dirs w ∧
    calls (world_after m w) = calls w ∧
    (∀ p, p ≠ score → files (world_after m w) !! p = files w !! p) ∧
    ((i + length (score_lines trace) ≤ length (wav_list self))%nat ∧
       outcome m w = Ok (i + length (score_lines trace))%nat
     ∨ (length (wav_list self) < i + length (score_lines trace))%nat ∧
       outcome m w = Raise IndexError).
Proof.
  unfold world_after, outcome.
  induction trace as [|line trace IH]; intros i w c Hc Hi; cbn [foldM].
  - cbn. rewrite zip_with_nil_r, cat_nil, sapp_nil_r, Nat.add_0_r.
    split_and!; auto.
  - unfold score_lines in *. cbn [omap list_omap].
    destruct (Re.match_group1 HVite_score line) as [g|] eqn:Hm.
    + destruct (wav_list self !! i) as [wav|] eqn:Hw.
      * pose proof (lookup_lt_Some _ _ _ Hw) as Hlt.
        rewrite (drop_S _ _ _ Hw). cbn [zip_with length].
        rewrite cat_cons, <- sapp_assoc.
        set (w1 := mkWorld (dirs w)
                     (<[score := c +:+ score_row wav g]> (files w)) (calls w)).
        assert (score_step self score i line w = (Ok (S i), w1)) as Hstep.
        { unfold score_step. rewrite Hm, Hw.
          unfold mbind, M_bind, mret, M_ret. by rewrite fwrite_eq, Hc. }
        rewrite (bind_ok _ _ _ _ _ Hstep).
        destruct (IH (S i) w1 (c +:+ score_row wav g)) as (F & D & C & O & R).
        { apply lookup_insert_eq. }
        { lia. }
        split_and!; auto.
        -- intros p Hp. rewrite (O p Hp). by apply lookup_insert_ne.
        -- rewrite Nat.add_succ_r. exact R.
      * apply lookup_ge_None in Hw.
        rewrite (drop_ge _ _ Hw), zip_with_nil_l, cat_nil, sapp_nil_r.
        assert (score_step self score i line w = (Raise IndexError, w))
          as Hstep.
        { unfold score_step. rewrite Hm.
          by rewrite (proj2 (lookup_ge_None _ _) Hw). }
        rewrite (bind_raise _ _ _ _ _ Hstep).
        cbn. split_and!; auto. right. split; [lia|done].
    + assert (score_step self score i line w = (Ok i, w)) as Hstep.
      { unfold score_step. by rewrite Hm. }
      rewrite (bind_ok _ _ _ _ _ Hstep). by apply IH.
Qed.

Lemma align_and_score_unfold mlf w :
  align_and_score env self mlf score w =
  (foldM (score_step self score) 0%nat (score_trace env self score mlf w) ;; mret ())
    (mkWorld (dirs w)
       (tool_files env (score_argv self mlf) (<[score := ""]> (files w)))
       (calls w ++ [(score_argv self mlf, <[score := ""]> (files w))])).
Proof. done. Qed.

(** Whether the run returns is decided by the two counts alone. *)
Lemma align_and_score_outcome mlf w :
  ((length (score_lines (score_trace env self score mlf w)) ≤ length (wav_list self))%nat ∧
     outcome (align_and_score env self mlf score) w = Ok ())
  ∨ ((length (wav_list self) < length (score_lines (score_trace env self score mlf w)))%nat ∧
     outcome (align_and_score env self mlf score) w = Raise IndexError).
Proof.
  unfold outcome. rewrite align_and_score_unfold.
  set (w1 := mkWorld _ _ _).
  set (c0 := default "" (files w1 !! score)).
  set (w2 := mkWorld (dirs w1) (<[score := c0]> (files w1)) (calls w1)).
  (* the outcome does not depend on what the score file holds *)
  assert (∀ trace i (wa wb : World),
            (foldM (score_step self score) i trace wa).1 =
            (foldM (score_step self score) i trace wb).1) as Hindep.
  { induction trace as [|line trace IH]; intros i wa wb; [done|].
    cbn [foldM]. unfold mbind, M_bind, score_step at 1 3.
    destruct (Re.match_group1 HVite_score line); [|apply IH].
    destruct (wav_list self !! i); [|done].
    unfold mbind, M_bind. cbn. apply IH. }
  destruct (score_loop_spec (score_trace env self score mlf w) 0%nat w2 c0)
    as (_ & _ & _ & _ & R).
  { apply lookup_insert_eq. }
  { lia. }
  unfold outcome in R. rewrite (Hindep _ _ w2 w1) in R.
  unfold mbind, M_bind.
  destruct (foldM (score_step self score) 0%nat (score_trace env self score mlf w) w1)
    as [[a|e] w3]; cbn in *.
  - destruct R as [[Hle _]|[_ Habs]]; [|done]. left. done.
  - destruct R as [[_ Habs]|[Hlt He]]; [done|]. right. split; [done|].
    by inversion He.
Qed.

(** C2.  The engine is run with the score file open and empty; provided
    the engine does not itself write that file, the score table the run
    leaves is the concatenation of the rows [wav_list[k] TAB score_k]
    for the matching trace lines in the order of the trace: the [k]-th
    matching line gives the [k]-th row, and that row pairs the [k]-th
    audio file with the log-likelihood taken from that line.  With no
    more matching lines than audio files the run returns and there is
    one row per matching line. *)
Theorem C2_score_rows_in_trace_order mlf w :
  let trace := score_trace env self score mlf w in
  let rows := zip_with score_row (wav_list self) (score_lines trace) in
  tool_files env (score_argv self mlf) (<[score := ""]> (files w)) !! score
    = Some "" →
  files (world_after (align_and_score env self mlf score) w) !! score
    = Some (Py.cat rows) ∧
  (∀ (k : nat) wav g,
     score_lines trace !! k = Some g → wav_list self !! k = Some wav →
     rows !! k = Some (score_row wav g)) ∧
  ((length (score_lines trace) ≤ length (wav_list self))%nat →
     outcome (align_and_score env self mlf score) w = Ok () ∧
     length rows = length (score_lines trace)).
Proof.
  intros trace rows Hfree. split_and!.
  - unfold world_after. rewrite align_and_score_unfold.
    set (w1 := mkWorld _ _ _).
    destruct (score_loop_spec trace 0%nat w1 "" Hfree ltac:(lia))
      as (F & _). unfold world_after in F. rewrite drop_0, sapp_nil_l in F.
    fold rows in F. rewrite <- F.
    unfold mbind, M_bind. fold trace.
    by destruct (foldM (score_step self score) 0%nat trace w1) as [[a|e] w3].
  - intros k wav g Hg Hwav. unfold rows.
    rewrite lookup_zip_with, Hwav. cbn. by rewrite Hg.
  - intros Hle. split.
    + destruct (align_and_score_outcome mlf w) as [[_ H]|[Hlt _]]; [done|].
      fold trace in Hlt. lia.
    + unfold rows. rewrite length_zip_with. lia.
Qed.

(** Returning and failing, by the two counts. *)
Lemma align_and_score_index mlf w :
  (outcome (align_and_score env self mlf score) w = Ok () ↔
   (length (score_lines (score_trace env self score mlf w)) ≤ length (wav_list self))%nat) ∧
  (outcome (align_and_score env self mlf score) w = Raise IndexError ↔
   (length (wav_list self) < length (score_lines (score_trace env self score mlf w)))%nat).
Proof.
  destruct (align_and_score_outcome mlf w) as [[Hle H]|[Hlt H]];
    rewrite H; split; split; intros; try done; lia.
Qed.

End WithEnv.

Lemma C2_witness :
  files (world_after (align_and_score Demo.two_scores Demo.two_files "c/.ALIGN.mlf"
                        "c/.SCORES.txt") (Demo.world_of [] []))
    !! "c/.SCORES.txt"
  = Some ("/c/a.wav" +:+ tab +:+ "-61.3071" +:+ nl +:+
          "/c/b.wav" +:+ tab +:+ "-65.1250" +:+ nl).
Proof.
  refine (proj1 (C2_score_rows_in_trace_order Demo.two_scores Demo.two_files
                   "c/.SCORES.txt" "c/.ALIGN.mlf" (Demo.world_of [] []) _)).
  vm_compute. reflexivity.
Defined.

(** C10.  [align_and_score] indexes the audio list with the count of
    matching trace lines seen so far and nothing checks that index: the
    run returns exactly when the trace has no more matching lines than
    there are audio files, and it ends in an [IndexError] exactly when
    it has more; and there is such a trace, here two score lines for a
    single audio file. *)
Theorem C10_score_index_unchecked :
  (∀ env self score mlf w,
     (outcome (align_and_score env self mlf score) w = Ok () ↔
      (length (score_lines (score_trace env self score mlf w))
       ≤ length (wav_list self))%nat) ∧
     (outcome (align_and_score env self mlf score) w = Raise IndexError ↔
      (length (wav_list self)
       < length (score_lines (score_trace env self score mlf w)))%nat)) ∧
  (let self := Demo.aligner_in "/tmp/tmpA" ∅ ["/c/a.wav"] in
   let w := Demo.world_of [] [] in
   length (wav_list self) = 1%nat ∧
   length (score_lines (score_trace Demo.two_scores self "c/.SCORES.txt"
                          "c/.ALIGN.mlf" w)) = 2%nat ∧
   outcome (align_and_score Demo.two_scores self "c/.ALIGN.mlf" "c/.SCORES.txt") w
     = Raise IndexError).
Proof.
  split; [intros; apply align_and_score_index|].
  cbv zeta. split_and!; [done|by vm_compute|].
  apply align_and_score_index. vm_compute. lia.
Qed.

End ScoreFacts.

(** ** Training rounds *)

Module TrainFacts.
Import Sys Obs TrainAligner StrFacts MFacts GenFacts.

Section WithEnv.
Context (env : Env).

Lemma train_round_run self w :
  tools_spare_generations env self → gen_inv self w →
  ∃ w', train_round env self w = (Ok (advanced self), w') ∧
        dirs w' = {[gen_dir self (n self + 1)]} ∪ dirs w ∧
        argvs w' = argvs w ++ [HERest_argv self] ∧
        gen_inv (advanced self) w'.
Proof.
  intros Hspare Hinv.
  pose proof (call_inv env self w (HERest_argv self) Hspare Hinv) as Hinv1.
  set (w1 := (call env (HERest_argv self) w).2) in *.
  eexists. split_and!.
  - unfold train_round.
    rewrite (bind_ok _ _ w () w1) by done.
    apply (nxt_dir_run self w1 Hinv1).
  - done.
  - unfold argvs. cbn. by rewrite fmap_app.
  - by apply nxt_dir_inv.
Qed.

Lemma train_rounds_run (k : nat) : ∀ self w,
  tools_spare_generations env self → gen_inv self w →
  ∃ wk, repeatM k (train_round env) self w = (Ok (advanced_by k self), wk) ∧
        dirs wk = list_to_set (gen_dirs self (n self) k) ∪ dirs w ∧
        argvs wk = argvs w ++ (round_argv self <$> seq 0 k) ∧
        gen_inv (advanced_by k self) wk.
Proof.
  induction k as [|k IH]; intros self w Hspare Hinv.
  - exists w. cbn. rewrite app_nil_r. split_and!; try done.
    unfold gen_dirs. cbn. set_solver.
  - destruct (train_round_run self w Hspare Hinv) as (w1 & Hr & Hd & Ha & Hi).
    destruct (IH (advanced self) w1 Hspare Hi) as (wk & Hrk & Hdk & Hak & Hik).
    exists wk. cbn [repeatM advanced_by].
    rewrite (bind_ok _ _ _ _ _ Hr). split_and!; try done.
    + rewrite Hdk, Hd. unfold gen_dirs.
      cbn [seq fmap list_fmap list_to_set].
      replace (n (advanced self)) with (S (n self)) by (cbn; lia).
      replace (n self + 1)%nat with (S (n self)) by lia.
      assert (gen_dir (advanced self) <$> seq (S (S (n self))) k
              = gen_dir self <$> seq (S (S (n self))) k) as -> by done.
      set_solver.
    + rewrite Hak, Ha, <- (assoc_L (++)). f_equal.
      cbn [seq fmap list_fmap]. f_equal.
      by rewrite <- fmap_S_seq, <- list_fmap_compose.
Qed.

(** What round [i] writes to and reads from. *)
Lemma round_argv_dirs self w (i : nat) :
  gen_inv self w →
  round_argv self i !! 0%nat = Some "HERest" ∧
  round_argv self i !! 7%nat = Some "-M" ∧
  round_argv self i !! 8%nat = Some (gen_dir self (n self + i)) ∧
  round_argv self (S i) !! 10%nat
    = Some (Py.join (gen_dir self (n self + i)) macro) ∧
  round_argv self (S i) !! 12%nat
    = Some (Py.join (gen_dir self (n self + i)) hmmdf).
Proof.
  intros (Hn & _).
  assert (nxt_dir (advanced_by i self) = gen_dir self (n self + i)) as Hi.
  { destruct i as [|i].
    - cbn. by rewrite Nat.add_0_r.
    - rewrite advanced_by_S. cbn. rewrite n_advanced_by.
      rewrite gen_dir_advanced_by. f_equal. lia. }
  unfold round_argv. rewrite advanced_by_S.
  unfold HERest_argv. cbn [lookup list_lookup app cur_dir advanced].
  change (cur_dir (advanced (advanced_by i self)))
    with (nxt_dir (advanced_by i self)).
  by rewrite Hi.
Qed.

(** C7.  For [niter >= 0], [train(niter)] returns after exactly [niter]
    HERest runs and [niter] advances, whatever the corpus: the ordinal
    has grown by [niter], [niter] new generation directories exist, and
    the command lines added to the log are those of rounds
    [0 .. niter-1] in order.  Round [i] writes ([-M]) the directory of
    ordinal [n + i], and round [i + 1] reads ([-H]) its macro and model
    files there: each round consumes what the round before produced. *)
Theorem C7_train_runs_niter_rounds self w (niter : Z) :
  gen_inv self w → tools_spare_generations env self → 0 ≤ niter →
  let k := Z.to_nat niter in
  let m := train env self niter in
  outcome m w = Ok (advanced_by k self) ∧
  Z.of_nat (n (advanced_by k self)) = Z.of_nat (n self) + niter ∧
  dirs (world_after m w) = list_to_set (gen_dirs self (n self) k) ∪ dirs w ∧
  Z.of_nat (length (gen_dirs self (n self) k)) = niter ∧
  argvs (world_after m w) = argvs w ++ (round_argv self <$> seq 0 k) ∧
  Z.of_nat (length (round_argv self <$> seq 0 k)) = niter ∧
  (∀ i : nat,
     round_argv self i !! 0%nat = Some "HERest" ∧
     round_argv self i !! 7%nat = Some "-M" ∧
     round_argv self i !! 8%nat = Some (gen_dir self (n self + i)) ∧
     round_argv self (S i) !! 10%nat
       = Some (Py.join (gen_dir self (n self + i)) macro) ∧
     round_argv self (S i) !! 12%nat
       = Some (Py.join (gen_dir self (n self + i)) hmmdf)).
Proof.
  intros Hinv Hspare Hn k m.
  destruct (train_rounds_run k self w Hspare Hinv) as (wk & Hr & Hd & Ha & _).
  unfold outcome, world_after, m, train. fold k. rewrite Hr. cbn [fst snd].
  split_and!; try done.
  - rewrite n_advanced_by. lia.
  - unfold gen_dirs. rewrite length_fmap, length_seq. lia.
  - rewrite length_fmap, length_seq. lia.
  - intros i. by apply (round_argv_dirs self w).
Qed.

End WithEnv.

Lemma quiet_env_spares trace self :
  tools_spare_generations (Demo.quiet_env trace) self.
Proof. by intros argv fs k H. Qed.

Lemma C7_witness :
  let w := world_after (init_generations Demo.trainer) Demo.workspace in
  argvs (world_after (train (Demo.quiet_env []) (initial Demo.trainer) 4) w)
  = round_argv (initial Demo.trainer) <$> [0; 1; 2; 3]%nat.
Proof.
  cbv zeta. unfold world_after at 2.
  destruct (init_generations_run Demo.trainer Demo.workspace
              demo_workspace_fresh) as [-> Hinv].
  exact (proj1 (proj2 (proj2 (proj2 (proj2
    (C7_train_runs_niter_rounds (Demo.quiet_env []) _ _ 4 Hinv
       (quiet_env_spares [] _) ltac:(lia))))))).
Defined.

End TrainFacts.

(** ** The small-pause model *)

Module PauseFacts.
Import Sys Obs TrainAligner StrFacts MFacts GenFacts.

Lemma skip_past_app x (pre l : list string) :
  x ∉ pre → skip_past x (pre ++ x :: l) = l.
Proof.
  induction pre as [|y pre IH]; intros Hx; cbn [skip_past app].
  - by rewrite decide_True.
  - apply not_elem_of_cons in Hx as [Hne Hx].
    rewrite decide_False by done. by apply IH.
Qed.

Lemma take_before_app x (mid l : list string) :
  x ∉ mid → take_before x (mid ++ x :: l) = mid.
Proof.
  induction mid as [|y mid IH]; intros Hx; cbn [take_before app].
  - by rewrite decide_True.
  - apply not_elem_of_cons in Hx as [Hne Hx].
    rewrite decide_False by done. f_equal. by apply IH.
Qed.

Lemma slast_app (s1 s2 : string) :
  s2 ≠ "" → slast (s1 +:+ s2) = slast s2.
Proof.
  intros Hne. induction s1 as [|c s1 IH]; [done|].
  rewrite sapp_cons. cbn [slast]. rewrite IH.
  destruct (s1 +:+ s2) eqn:E; [|done].
  destruct s1; [by rewrite sapp_nil_l in E|by rewrite sapp_cons in E].
Qed.

(** A joined path ends like its last component. *)
Lemma slast_join (a b : string) :
  b ≠ "" → slast (Py.join a b) = slast b.
Proof.
  intros Hne. unfold Py.join.
  destruct (Py.startswith b "/"); [done|].
  destruct (_ || _); rewrite ?slast_app; done.
Qed.

Lemma hed_is_not_hmmdefs (a b : string) : Py.join a temp ≠ Py.join b hmmdf.
Proof.
  intros H. apply (f_equal slast) in H.
  by rewrite !slast_join in H.
Qed.

Lemma uint_of_string_digit c s d :
  NilEmpty.uint_of_string (String c s) = Some d → is_Some (Ascii.is_nat c).
Proof.
  cbn. destruct (NilEmpty.uint_of_string s); [|done].
  destruct c as [[] [] [] [] [] [] [] []]; cbn; by eauto.
Qed.

Lemma uint_of_string_tail c s d :
  NilEmpty.uint_of_string (String c s) = Some d →
  is_Some (NilEmpty.uint_of_string s).
Proof.
  change (NilEmpty.uint_of_string (String c s))
    with (uint_of_char c (NilEmpty.uint_of_string s)).
  destruct (NilEmpty.uint_of_string s); [by eexists|done].
Qed.

(** A string of digits ends in a digit. *)
Lemma slast_digits s c :
  is_Some (NilEmpty.uint_of_string s) → slast s = Some c →
  is_Some (Ascii.is_nat c).
Proof.
  induction s as [|a s IH]; [done|].
  intros [d Hd]. destruct s as [|b s].
  - cbn [slast]. intros [= <-]. by eapply uint_of_string_digit.
  - cbn [slast]. apply IH. by eapply uint_of_string_tail.
Qed.

Lemma zfill_str_nonempty (width k : nat) : Py.zfill width (Py.str k) ≠ "".
Proof.
  unfold Py.zfill. intros E.
  assert (Py.str k = "") as Hk.
  { destruct (Py.zeros _); [done|]. by rewrite sapp_cons in E. }
  pose proof (NilZero.usu (Nat.to_uint k) (to_uint_nonnil k)) as Hu.
  unfold Py.str in Hk. by rewrite Hk in Hu.
Qed.

Lemma slast_gen_dir self k c :
  slast (gen_dir self k) = Some c → is_Some (Ascii.is_nat c).
Proof.
  unfold gen_dir. pose proof (parse_zfill 3 k) as Hp.
  rewrite slast_join.
  - apply slast_digits. unfold parse_nat in Hp.
    by destruct (NilEmpty.uint_of_string _).
  - apply zfill_str_nonempty.
Qed.

Lemma hed_is_no_generation self a k : Py.join a temp ≠ gen_dir self k.
Proof.
  intros H. apply (f_equal slast) in H. rewrite slast_join in H by done.
  symmetry in H. apply slast_gen_dir in H. by destruct H.
Qed.

Lemma hmmdefs_is_no_generation self a k : Py.join a hmmdf ≠ gen_dir self k.
Proof.
  intros H. apply (f_equal slast) in H. rewrite slast_join in H by done.
  symmetry in H. apply slast_gen_dir in H. by destruct H.
Qed.

Lemma nxt_dir_keeps_log self w :
  calls (_nxt_dir self w).2 = calls w ∧ files (_nxt_dir self w).2 = files w.
Proof.
  unfold _nxt_dir, mbind, M_bind, mkdir.
  by destruct (path_exists w _).
Qed.

Section WithEnv.
Context (env : Env).

(** C8.  Let the current generation's model file hold the silence
    model: a line [~h "sil"], further on its state 3 from the line
    [<STATE> 3] up to the line [<STATE> 4], the lines in between being
    [mid].  Then [small_pause] runs HHEd once, and what HHEd finds is:
    the model file with a model [sp] appended that has 3 states, for
    emitting state 2 the lines [mid] as they stand, and the transition
    matrix with self-loop 0.9 and exit 0.1; and an edit script whose
    last command ties [sil.state[3]] and [sp.state[2]].  HHEd writes
    into the next generation's directory, and with the generation
    bookkeeping in order the call returns with that directory as the
    current one. *)
Theorem C8_small_pause_model self w content (pre l1 mid rest : list string) :
  let source := Py.join (cur_dir self) hmmdf in
  let hed := Py.join (tmp_dir self) temp in
  files w !! source = Some content →
  Py.readlines content =
    pre ++ sil_header :: l1 ++ ("<STATE> 3" +:+ nl) :: mid ++
    ("<STATE> 4" +:+ nl) :: rest →
  sil_header ∉ pre → ("<STATE> 3" +:+ nl) ∉ l1 → ("<STATE> 4" +:+ nl) ∉ mid →
  ∃ found : gmap string string,
    calls (world_after (small_pause env self) w)
      = calls w ++ [(["HHEd"; "-H"; Py.join (cur_dir self) macro;
                      "-H"; source; "-M"; nxt_dir self; hed; phons self],
                     found)] ∧
    found !! source =
      Some (content +:+
            "~h " +:+ dq +:+ "sp" +:+ dq +:+ nl +:+
            "<BEGINHMM>" +:+ nl +:+ "<NUMSTATES> 3" +:+ nl +:+
            "<STATE> 2" +:+ nl +:+
            Py.cat mid +:+
            "<TRANSP> 3" +:+ nl +:+
            " 0.0 1.0 0.0" +:+ nl +:+
            " 0.0 0.9 0.1" +:+ nl +:+
            " 0.0 0.0 0.0" +:+ nl +:+ "<ENDHMM>") ∧
    found !! hed =
      Some ("AT 2 4 0.2 {sil.transP}" +:+ nl +:+
            "AT 4 2 0.2 {sil.transP} " +:+ nl +:+
            "AT 1 3 0.3 {sp.transP}" +:+ nl +:+
            "TI silst {sil.state[3],sp.state[2]}" +:+ nl) ∧
    (gen_inv self w → tools_spare_generations env self →
     outcome (small_pause env self) w = Ok (advanced self) ∧
     cur_dir (advanced self) = nxt_dir self).
Proof.
  intros source hed Hc Hlines Hpre Hl1 Hmid.
  assert (saved_lines (Py.readlines content)
          = [sp_header; sp_open] ++ mid ++ sp_transp) as Hsaved.
  { unfold saved_lines. rewrite Hlines.
    rewrite (skip_past_app _ pre) by done.
    rewrite (skip_past_app _ l1) by done.
    by rewrite (take_before_app _ mid) by done. }
  set (fs1 := <[source := content +:+ Py.cat (saved_lines (Py.readlines content))]>
                (files w)).
  set (fs2 := <[hed := hed_text]> fs1).
  set (w3 := mkWorld (dirs w) (tool_files env (HHEd_argv self hed) fs2)
               (calls w ++ [(HHEd_argv self hed, fs2)])).
  assert (hed ≠ source) as Hne by apply hed_is_not_hmmdefs.
  assert (small_pause env self w = _nxt_dir self w3) as Hrun.
  { unfold small_pause. fold source hed.
    rewrite (bind_ok _ _ _ _ _ (fread_ok _ _ _ Hc)).
    rewrite (bind_ok _ _ _ _ _ (fwrite_eq _ _ _)), Hc.
    rewrite (bind_ok _ _ _ _ _ (write_file_eq _ _ _)).
    by rewrite (bind_ok _ _ _ _ _ (call_eq _ _ _)). }
  exists fs2. unfold outcome, world_after. rewrite Hrun.
  split_and!.
  - by rewrite (proj1 (nxt_dir_keeps_log self w3)).
  - unfold fs2, fs1. rewrite lookup_insert_ne by done.
    rewrite lookup_insert_eq, Hsaved.
    rewrite !cat_app, !cat_cons, cat_nil, sapp_nil_r.
    unfold sp_header, sp_open, sp. by rewrite !sapp_assoc.
  - unfold fs2. by rewrite lookup_insert_eq.
  - intros Hinv Hspare.
    assert (gen_inv self w3) as Hinv3.
    { apply (call_inv env self
               (mkWorld (dirs w) fs2 (calls w)) (HHEd_argv self hed) Hspare).
      destruct Hinv as (Hn & Hold & Hnew). split_and!; [done|done|].
      intros k Hk.
      destruct (proj1 (path_exists_false _ _) (Hnew k Hk)) as [Hd Hf].
      apply path_exists_false. cbn. split; [done|].
      unfold fs2, fs1.
      rewrite lookup_insert_ne by apply hed_is_no_generation.
      by rewrite lookup_insert_ne by apply hmmdefs_is_no_generation. }
    by rewrite (nxt_dir_run self w3 Hinv3).
Qed.

End WithEnv.

Lemma C8_witness :
  ∃ found : gmap string string,
    calls (world_after (small_pause (Demo.quiet_env []) (initial Demo.trainer))
                       Demo.pause_world)
    = [(["HHEd"; "-H"; "/tmp/tmpA/HMM/000/macros";
         "-H"; "/tmp/tmpA/HMM/000/hmmdefs"; "-M"; "/tmp/tmpA/HMM/001";
         "/tmp/tmpA/temp"; "/tmp/tmpA/phones"], found)] ∧
    found !! "/tmp/tmpA/HMM/000/hmmdefs" =
      Some (Demo.hmmdefs_text +:+
            "~h " +:+ dq +:+ "sp" +:+ dq +:+ nl +:+
            "<BEGINHMM>" +:+ nl +:+ "<NUMSTATES> 3" +:+ nl +:+
            "<STATE> 2" +:+ nl +:+
            "<MEAN> 2" +:+ nl +:+ " 1.3 1.4" +:+ nl +:+
            "<VARIANCE> 2" +:+ nl +:+ " 2.0 2.0" +:+ nl +:+
            "<TRANSP> 3" +:+ nl +:+
            " 0.0 1.0 0.0" +:+ nl +:+
            " 0.0 0.9 0.1" +:+ nl +:+
            " 0.0 0.0 0.0" +:+ nl +:+ "<ENDHMM>").
Proof.
  destruct (C8_small_pause_model (Demo.quiet_env []) (initial Demo.trainer)
              Demo.pause_world Demo.hmmdefs_text
              Demo.ah_lines Demo.sil_state2 Demo.sil_state3 Demo.sil_rest)
    as (found & Hcalls & Hsource & _).
  - vm_compute. reflexivity.
  - vm_compute. reflexivity.
  - apply (bool_decide_unpack _). vm_compute. exact I.
  - apply (bool_decide_unpack _). vm_compute. exact I.
  - apply (bool_decide_unpack _). vm_compute. exact I.
  - exists found. split; [exact Hcalls|exact Hsource].
Defined.

End PauseFacts.

(** ** Dictionary resolution *)

Module DictFacts.
Import Sys Obs Aligner StrFacts MFacts.

Lemma frame_refl T w : frame T w w.
Proof. by split_and!. Qed.

Lemma frame_trans T w1 w2 w3 : frame T w1 w2 → frame T w2 w3 → frame T w1 w3.
Proof.
  intros (D1 & C1 & F1) (D2 & C2 & F2). split_and!; try congruence.
  intros p Hp. by rewrite F2, F1.
Qed.

Lemma frame_mono T T' w w' : T ⊆ T' → frame T w w' → frame T' w w'.
Proof.
  intros Hsub (D & C & F). split_and!; try done.
  intros p Hp. apply F. set_solver.
Qed.

Lemma frame_insert T w p c :
  p ∈ T → frame T w (mkWorld (dirs w) (<[p := c]> (files w)) (calls w)).
Proof.
  intros Hp. split_and!; try done. intros q Hq. cbn.
  apply lookup_insert_ne. intros ->. done.
Qed.

(** Writing a list of pieces to one file: only that file changes, and
    the pieces are appended to what it held. *)
Lemma for_each_fwrite {A} (g : A → string) p (l : list A) : ∀ w,
  ∃ w', for_each l (λ x, fwrite p (g x)) w = (Ok (), w') ∧
        frame [p] w w' ∧
        ∀ c, files w !! p = Some c →
             files w' !! p = Some (c +:+ Py.cat (g <$> l)).
Proof.
  induction l as [|x l IH]; intros w; cbn [for_each fmap list_fmap].
  - exists w. split_and!; [done|apply frame_refl|].
    intros c Hc. by rewrite cat_nil, sapp_nil_r.
  - set (w1 := mkWorld (dirs w)
                 (<[p := default "" (files w !! p) +:+ g x]> (files w))
                 (calls w)).
    destruct (IH w1) as (w' & Hr & F & Hc').
    exists w'. rewrite (bind_ok _ _ w () w1) by done. split_and!; [done| |].
    + eapply frame_trans; [|exact F]. apply frame_insert. set_solver.
    + intros c Hc. rewrite (Hc' (c +:+ g x)).
      * by rewrite cat_cons, sapp_assoc.
      * cbn. by rewrite lookup_insert_eq, Hc.
Qed.

Section OneTranscript.
Context (self : aligner) (lab : string).

Local Abbreviation d := (the_dict self).
Local Abbreviation phon := (phon_lab_path self lab).
Local Abbreviation wordp := (word_lab_path self lab).
Local Abbreviation mlf := (word_mlf self).

(** One word: the accumulators move as [step_word] says, only the three
    files of the transcript change, and when the phone-level file is a
    file of its own its pronunciation is appended there. *)
Lemma word_step_run acc word w :
  ∃ w', word_step self lab acc word w = (Ok (step_word d lab acc word), w') ∧
        frame [mlf; phon; wordp] w w' ∧
        (phon ≠ wordp → phon ≠ mlf → ∀ cp, files w !! phon = Some cp →
         files w' !! phon =
           Some (cp +:+ Py.cat ((λ ph, ph +:+ nl) <$> default [] (d !! word)))).
Proof.
  unfold word_step, step_word. fold d phon wordp mlf.
  destruct (d !! word) as [pron|] eqn:Hd.
  - destruct (for_each_fwrite (λ ph, ph +:+ nl) phon pron w)
      as (w1 & Hr1 & F1 & Hc1).
    eexists. split_and!.
    + rewrite (bind_ok _ _ _ _ _ Hr1).
      rewrite (bind_ok _ _ _ _ _ (fwrite_eq _ _ _)).
      rewrite (bind_ok _ _ _ _ _ (fwrite_eq _ _ _)). done.
    + eapply frame_trans; [eapply frame_mono; [|exact F1]; set_solver|].
      split_and!; try done. intros p Hp. cbn.
      rewrite !lookup_insert_ne; [done|set_solver..].
    + intros Hpw Hpm cp Hcp. cbn.
      rewrite !lookup_insert_ne by done. by apply Hc1.
  - exists w. split_and!; [done|apply frame_refl|].
    intros _ _ cp Hcp. cbn. by rewrite ?cat_nil, sapp_nil_r.
Qed.

Lemma words_loop_run (ws : list string) : ∀ acc w,
  ∃ w', foldM (word_step self lab) acc ws w
          = (Ok (foldl (step_word d lab) acc ws), w') ∧
        frame [mlf; phon; wordp] w w' ∧
        (phon ≠ wordp → phon ≠ mlf → ∀ cp, files w !! phon = Some cp →
         files w' !! phon =
           Some (cp +:+ Py.cat ((λ ph, ph +:+ nl) <$> pronunciations d ws))).
Proof.
  induction ws as [|word ws IH]; intros acc w.
  - exists w. split_and!; [done|apply frame_refl|].
    intros _ _ cp Hcp. cbn. by rewrite ?cat_nil, sapp_nil_r.
  - destruct (word_step_run acc word w) as (w1 & Hr & F1 & Hc1).
    destruct (IH (step_word d lab acc word) w1) as (w2 & Hr2 & F2 & Hc2).
    exists w2. cbn [foldM foldl]. rewrite (bind_ok _ _ _ _ _ Hr).
    split_and!; [done|by eapply frame_trans|].
    intros Hpw Hpm cp Hcp.
    rewrite (Hc2 Hpw Hpm _ (Hc1 Hpw Hpm cp Hcp)).
    unfold pronunciations. cbn [omap list_omap]. fold d.
    destruct (d !! word) as [pron|]; cbn [default concat].
    + by rewrite fmap_app, cat_app, sapp_assoc.
    + by rewrite ?cat_nil, sapp_nil_r.
Qed.

(** One transcript, read where no label is written: the accumulators
    move as [step_lab] says, only its three files change, and when the
    phone-level file is a file of its own it holds the silence-bounded
    label. *)
Lemma lab_step_run acc w content :
  files w !! lab = Some content →
  lab ∉ [mlf; phon; wordp] →
  ∃ w', lab_step self acc lab w = (Ok (step_lab d w acc lab), w') ∧
        frame [mlf; phon; wordp] w w' ∧
        (phon ≠ wordp → phon ≠ mlf →
         files w' !! phon = Some (phon_label d (words_of w lab))).
Proof.
  intros Hlab Hapart.
  unfold lab_step. fold phon wordp mlf.
  set (w1 := mkWorld (dirs w) (<[phon := ""]> (files w)) (calls w)).
  set (w2 := mkWorld (dirs w) (<[wordp := ""]> (files w1)) (calls w)).
  set (w3 := mkWorld (dirs w)
               (<[mlf := default "" (files w2 !! mlf) +:+
                         (dq +:+ wordp +:+ dq +:+ nl)]> (files w2)) (calls w)).
  set (w4 := mkWorld (dirs w)
               (<[phon := default "" (files w3 !! phon) +:+ (sil +:+ nl)]>
                  (files w3)) (calls w)).
  assert (files w4 !! lab = Some content) as H4.
  { cbn. rewrite !lookup_insert_ne; [done|set_solver..]. }
  assert (frame [mlf; phon; wordp] w w4) as F4.
  { split_and!; try done. intros p Hp. cbn.
    rewrite !lookup_insert_ne; [done|set_solver..]. }
  destruct (words_loop_run (transcript_words content) acc w4)
    as (w5 & Hr5 & F5 & Hc5).
  eexists. split_and!.
  - rewrite (bind_ok _ _ w () w1) by done.
    rewrite (bind_ok _ _ w1 () w2) by done.
    rewrite (bind_ok _ _ w2 () w3) by done.
    rewrite (bind_ok _ _ w3 () w4) by done.
    rewrite (bind_ok _ _ _ _ _ (fread_ok _ _ _ H4)).
    rewrite (bind_ok _ _ _ _ _ Hr5).
    rewrite (bind_ok _ _ _ _ _ (fwrite_eq _ _ _)).
    rewrite (bind_ok _ _ _ _ _ (fwrite_eq _ _ _)).
    unfold step_lab, words_of. rewrite Hlab. done.
  - eapply frame_trans; [exact F4|]. eapply frame_trans; [exact F5|].
    split_and!; try done. intros p Hp. cbn.
    rewrite !lookup_insert_ne; [done|set_solver..].
  - intros Hpw Hpm.
    assert (files w4 !! phon = Some (sil +:+ nl)) as Hp4.
    { cbn. rewrite lookup_insert_eq.
      by rewrite !lookup_insert_ne, lookup_insert_eq by done. }
    cbn. rewrite lookup_insert_ne by done. rewrite lookup_insert_eq.
    rewrite (Hc5 Hpw Hpm _ Hp4). cbn [default].
    unfold phon_label, words_of. rewrite Hlab.
    cbn [default]. by rewrite !sapp_assoc.
Qed.

End OneTranscript.

Lemma elem_of_label_targets self l p :
  p ∈ label_targets self l ↔
  p = word_mlf self ∨
  ∃ lab, lab ∈ l ∧ (p = phon_lab_path self lab ∨ p = word_lab_path self lab).
Proof.
  unfold label_targets.
  rewrite elem_of_cons, elem_of_app, !list_elem_of_fmap. naive_solver.
Qed.

Lemma label_targets_head self h l :
  [word_mlf self; phon_lab_path self h; word_lab_path self h]
    ⊆ label_targets self (h :: l).
Proof.
  intros p Hp. apply elem_of_label_targets.
  rewrite !elem_of_cons, elem_of_nil in Hp.
  destruct Hp as [->|[->|[->|[]]]]; [by left|right; exists h; set_solver..].
Qed.

Lemma label_targets_tail self h l :
  label_targets self l ⊆ label_targets self (h :: l).
Proof.
  intros p. rewrite !elem_of_label_targets.
  intros [->|(lab & Hl & Hp)]; [by left|]. right. exists lab. set_solver.
Qed.

Lemma NoDup_label_targets_cons self h l :
  NoDup (label_targets self (h :: l)) →
  NoDup (label_targets self l) ∧
  phon_lab_path self h ≠ word_lab_path self h ∧
  phon_lab_path self h ≠ word_mlf self ∧
  phon_lab_path self h ∉ label_targets self l.
Proof.
  intros H. pose proof H as H'. revert H'.
  unfold label_targets at 1. cbn [fmap list_fmap].
  rewrite NoDup_cons, NoDup_app, !NoDup_cons.
  rewrite elem_of_app, !elem_of_cons.
  intros (Hm & (Hp & Hps) & Hdis & Hw & Hws).
  assert (∀ x, x ∈ phon_lab_path self <$> l → x ∉ word_lab_path self <$> l)
    as Hdis'.
  { intros x Hx Hx'. apply (Hdis x); by right. }
  split_and!.
  - unfold label_targets. rewrite NoDup_cons, NoDup_app, elem_of_app.
    split_and!; [|done|done|done]. intros [Hin|Hin]; apply Hm; auto.
  - intros E. apply (Hdis (phon_lab_path self h)); [by left|].
    apply elem_of_cons. by left.
  - intros E. apply Hm. left. by left.
  - rewrite elem_of_label_targets.
    intros [E|(lab & Hlab & [E|E])].
    + apply Hm. left. by left.
    + apply Hp. rewrite E. apply list_elem_of_fmap. eauto.
    + apply (Hdis (phon_lab_path self h)); [by left|].
      apply elem_of_cons. right. rewrite E. apply list_elem_of_fmap. eauto.
Qed.

(** The loop over the transcripts, none of which is a label file. *)
Lemma labs_loop_run self w0 (l : list string) : ∀ acc w,
  (∀ lab, lab ∈ l → lab ∉ label_targets self l) →
  (∀ lab, lab ∈ l → is_Some (files w0 !! lab)) →
  (∀ lab, lab ∈ l → files w !! lab = files w0 !! lab) →
  ∃ w', foldM (lab_step self) acc l w
          = (Ok (foldl (step_lab (the_dict self) w0) acc l), w') ∧
        frame (label_targets self l) w w' ∧
        (NoDup (label_targets self l) →
         ∀ lab, lab ∈ l →
           files w' !! phon_lab_path self lab
             = Some (phon_label (the_dict self) (words_of w0 lab))).
Proof.
  induction l as [|h l IH]; intros acc w Hapart Hread Hsame.
  - exists w. split_and!; [done|apply frame_refl|]. intros _ lab Hlab.
    by apply elem_of_nil in Hlab.
  - destruct (Hread h ltac:(left)) as [content Hc0].
    assert (files w !! h = Some content) as Hc
      by (by rewrite (Hsame h ltac:(left))).
    assert (h ∉ [word_mlf self; phon_lab_path self h; word_lab_path self h])
      as Hh.
    { intros Hin. apply (Hapart h ltac:(left)).
      by apply label_targets_head. }
    destruct (lab_step_run self h acc w content Hc Hh) as (w1 & Hr1 & F1 & C1).
    assert (step_lab (the_dict self) w acc h = step_lab (the_dict self) w0 acc h)
      as Hstep.
    { unfold step_lab, words_of. by rewrite Hc, Hc0. }
    destruct (IH (step_lab (the_dict self) w0 acc h) w1) as (w' & Hr & F & C).
    { intros lab Hlab Hin. apply (Hapart lab ltac:(by right)).
      by apply label_targets_tail. }
    { intros lab Hlab. apply Hread. by right. }
    { intros lab Hlab. rewrite <- (Hsame lab ltac:(by right)).
      apply F1. intros Hin. apply (Hapart lab ltac:(by right)).
      by apply label_targets_head. }
    exists w'. cbn [foldM foldl]. rewrite (bind_ok _ _ _ _ _ Hr1), Hstep.
    split_and!; [done| |].
    + eapply frame_trans.
      * eapply frame_mono; [apply label_targets_head|exact F1].
      * eapply frame_mono; [apply label_targets_tail|exact F].
    + intros Hnd lab Hlab.
      destruct (NoDup_label_targets_cons _ _ _ Hnd) as (Hnd' & Hpw & Hpm & Hpt).
      apply elem_of_cons in Hlab as [->|Hlab].
      * destruct F as (_ & _ & F). rewrite (F _ Hpt), (C1 Hpw Hpm).
        unfold words_of. by rewrite Hc, Hc0.
      * by apply C.
Qed.

Lemma label_files_run self w lab_list :
  (∀ lab, lab ∈ lab_list → lab ∉ label_targets self lab_list) →
  (∀ lab, lab ∈ lab_list → is_Some (files w !! lab)) →
  ∃ w', label_files self lab_list w = (Ok (resolved self w lab_list), w') ∧
        frame (label_targets self lab_list) w w' ∧
        (NoDup (label_targets self lab_list) →
         ∀ lab, lab ∈ lab_list →
           files w' !! phon_lab_path self lab
             = Some (phon_label (the_dict self) (words_of w lab))).
Proof.
  intros Hapart Hread. unfold label_files.
  set (w1 := mkWorld (dirs w) (<[word_mlf self := ""]> (files w)) (calls w)).
  set (w2 := mkWorld (dirs w)
               (<[word_mlf self := default "" (files w1 !! word_mlf self) +:+
                                   ("#!MLF!#" +:+ nl)]> (files w1)) (calls w)).
  assert (frame (label_targets self lab_list) w w2) as F2.
  { split_and!; try done. intros p Hp. cbn.
    rewrite !lookup_insert_ne; [done|intros <-; apply Hp; by left..]. }
  destruct (labs_loop_run self w lab_list (∅, ∅) w2 Hapart Hread)
    as (w' & Hr & F & C).
  { intros lab Hlab. apply F2. by apply Hapart. }
  exists w'. rewrite (bind_ok _ _ w () w1) by done.
  rewrite (bind_ok _ _ w1 () w2) by done.
  split_and!; [done|by eapply frame_trans|done].
Qed.

(** *** What [ood] collects *)

Lemma step_word_ood d lab acc x f :
  ood_inv d acc.2 f →
  ood_inv d (step_word d lab acc x).2
    (λ word, f word ++ if decide (x = word) then [lab] else []).
Proof.
  intros Hinv word. unfold step_word.
  destruct (d !! x) as [pron|] eqn:Hx; cbn [snd].
  - rewrite Hinv. destruct (decide (x = word)) as [->|Hne].
    + rewrite !decide_False; [done|naive_solver..].
    + by rewrite app_nil_r.
  - destruct (decide (x = word)) as [->|Hne].
    + rewrite lookup_insert_eq, Hinv.
      rewrite (decide_True (P := _ ∧ f word ++ [lab] ≠ [])).
      * by destruct (decide _) as [[_ ?]|Hn]; [|
          assert (f word = []) as -> by
            (destruct (f word); [done|exfalso; apply Hn; by split])].
      * split; [done|]. by destruct (f word).
    + rewrite lookup_insert_ne by done. by rewrite app_nil_r.
Qed.

Lemma count_cons_word (x word lab : string) (ws : list string) :
  replicate (length (filter (λ y, y = word) (x :: ws))) lab =
  (if decide (x = word) then [lab] else []) ++
  replicate (length (filter (λ y, y = word) ws)) lab.
Proof.
  rewrite filter_cons. by destruct (decide (x = word)).
Qed.

Lemma ood_inv_ext d ood f g : (∀ word, f word = g word) →
  ood_inv d ood f → ood_inv d ood g.
Proof.
  intros E Hinv word. by rewrite Hinv, E.
Qed.

Lemma step_lab_ood d w lab : ∀ acc f,
  ood_inv d acc.2 f →
  ood_inv d (step_lab d w acc lab).2
    (λ word, f word ++
             replicate (length (filter (λ y, y = word) (words_of w lab))) lab).
Proof.
  unfold step_lab. induction (words_of w lab) as [|x ws IH]; intros acc f Hinv.
  - cbn. eapply ood_inv_ext; [|exact Hinv]. intros word.
    by rewrite app_nil_r.
  - cbn [foldl]. eapply ood_inv_ext; [|apply IH, step_word_ood, Hinv].
    intros word. cbn beta. by rewrite count_cons_word, (assoc_L (++)).
Qed.

Lemma resolved_ood_gen d w (l : list string) : ∀ acc f,
  ood_inv d acc.2 f →
  ood_inv d (foldl (step_lab d w) acc l).2
    (λ word, f word ++ occurrences w word l).
Proof.
  induction l as [|lab l IH]; intros acc f Hinv.
  - cbn. eapply ood_inv_ext; [|exact Hinv]. intros word.
    by rewrite app_nil_r.
  - cbn [foldl occurrences].
    eapply ood_inv_ext; [|apply IH, step_lab_ood, Hinv].
    intros word. cbn beta. by rewrite (assoc_L (++)).
Qed.

(** [ood] maps exactly the words that occur and are outside the
    dictionary, each to the transcripts that contain it. *)
Lemma resolved_ood self w lab_list :
  ood_inv (the_dict self) (resolved self w lab_list).2
    (λ word, occurrences w word lab_list).
Proof.
  unfold resolved.
  eapply ood_inv_ext; [|apply (resolved_ood_gen _ _ _ (∅, ∅) (λ _, []))].
  - done.
  - intros word. cbn. rewrite lookup_empty. by rewrite decide_False by naive_solver.
Qed.

Lemma occurrences_nonempty w word lab_list :
  occurrences w word lab_list ≠ [] ↔
  ∃ lab, lab ∈ lab_list ∧ word ∈ words_of w lab.
Proof.
  induction lab_list as [|lab l IH]; cbn [occurrences].
  - split; [done|]. intros (lab & Hlab & _). by apply elem_of_nil in Hlab.
  - destruct (decide (word ∈ words_of w lab)) as [Hin|Hnin].
    + split; [intros _; exists lab; split; [by left|done]|intros _].
      assert (word ∈ filter (λ y, y = word) (words_of w lab)) as Hf
        by (by apply list_elem_of_filter).
      destruct (filter _ _); [by apply elem_of_nil in Hf|]. done.
    + assert (filter (λ y, y = word) (words_of w lab) = []) as ->.
      { destruct (filter _ _) as [|y ys] eqn:E; [done|].
        assert (y ∈ filter (λ y, y = word) (words_of w lab)) as Hy
          by (rewrite E; by left).
        apply list_elem_of_filter in Hy as [-> Hy]. done. }
      cbn. rewrite IH. split.
      * intros (lab' & Hl & Hw). exists lab'. split; [by right|done].
      * intros (lab' & [->|Hl]%elem_of_cons & Hw); [done|eauto].
Qed.

Lemma resolved_ood_empty self w lab_list :
  (resolved self w lab_list).2 = ∅ ↔ ¬ some_word_missing self w lab_list.
Proof.
  pose proof (resolved_ood self w lab_list) as Hinv.
  unfold some_word_missing. split.
  - intros He (lab & word & Hlab & Hword & Hd).
    specialize (Hinv word). rewrite He, lookup_empty in Hinv.
    rewrite decide_True in Hinv; [done|]. split; [done|].
    apply occurrences_nonempty. eauto.
  - intros Hno. apply map_empty. intros word. rewrite Hinv.
    rewrite decide_False; [done|]. intros [Hd Hocc].
    apply occurrences_nonempty in Hocc as (lab & Hlab & Hword).
    apply Hno. eauto.
Qed.

Section WithEnv.
Context (env : Env).

(** [_check_dct] after the labelling: with [ood] empty it goes on to
    the end; otherwise it writes the diagnostic file and leaves through
    [error], no tool having run. *)
Lemma check_dct_run self lab_list ood_mode w :
  (∀ lab, lab ∈ lab_list → lab ∉ label_targets self lab_list) →
  (∀ lab, lab ∈ lab_list → is_Some (files w !! lab)) →
  let ood := (resolved self w lab_list).2 in
  let m := _check_dct env self lab_list ood_mode in
  (ood = ∅ → outcome m w = Ok ()) ∧
  (ood ≠ ∅ →
   outcome m w
     = Raise (SystemExit "Error: Out of dictionary word(s), see outofdict.txt") ∧
   calls (world_after m w) = calls w ∧
   dirs (world_after m w) = dirs w ∧
   files (world_after m w) !! outofdict
     = Some (Py.cat (ood_line ood_mode <$> map_to_list ood))).
Proof.
  intros Hapart Hread ood m.
  destruct (label_files_run self w lab_list Hapart Hread)
    as (w1 & Hr & (Hd & Hc & _) & _).
  unfold outcome, world_after, m, _check_dct.
  rewrite (bind_ok _ _ _ _ _ Hr). subst ood.
  destruct (resolved self w lab_list) as [found_words ood]. cbn [snd].
  split.
  - intros ->. rewrite bool_decide_eq_true_2 by done. reflexivity.
  - intros Hne. rewrite bool_decide_eq_false_2 by done.
    set (w2 := mkWorld (dirs w1) (<[outofdict := ""]> (files w1)) (calls w1)).
    destruct (for_each_fwrite (ood_line ood_mode) outofdict (map_to_list ood) w2)
      as (w3 & Hr3 & (Hd3 & Hc3 & _) & Hf3).
    assert (((open_w outofdict ;;
              for_each (map_to_list ood)
                (λ entry, fwrite outofdict (ood_line ood_mode entry)) ;;
              error ("Out of dictionary word(s), see " +:+ outofdict)) : M ())
              w1
            = (Raise (SystemExit
                 "Error: Out of dictionary word(s), see outofdict.txt"), w3))
      as Hfail.
    { rewrite (bind_ok _ _ w1 () w2) by done.
      by rewrite (bind_ok _ _ _ _ _ Hr3). }
    rewrite (bind_raise _ _ _ _ _ Hfail). cbn [fst snd].
    split_and!; [done|by rewrite Hc3|by rewrite Hd3|].
    rewrite (Hf3 "") by apply lookup_insert_eq. by rewrite sapp_nil_l.
Qed.

(** C5.  For transcripts that are readable files and none of them one
    of the label files being written (as it is for transcripts outside
    the workspace, [LayoutFacts.transcripts_apart_by_layout]): [ood]
    maps each word that occurs in a transcript and is not a dictionary
    key to the transcripts that contain it, and holds nothing else; the resolution returns exactly
    when no transcript word is absent from the dictionary, and then
    [ood] is empty; when some word is absent it ends in the
    out-of-dictionary exit, having written to [outofdict.txt] one line
    per absent word -- the word alone, or with [-m] the word, a tab and
    its transcripts -- and without any tool having been run; [_check],
    which calls it on the transcripts [_lists] returned, ends there in
    the same way, the audio check and all that [__init__] and the run
    would do next left out. *)
Theorem C5_resolution_fails_iff_word_missing self lab_list ood_mode w :
  (∀ lab, lab ∈ lab_list → lab ∉ label_targets self lab_list) →
  (∀ lab, lab ∈ lab_list → is_Some (files w !! lab)) →
  let ood := (resolved self w lab_list).2 in
  let m := _check_dct env self lab_list ood_mode in
  (∀ word, ood !! word =
           if decide (the_dict self !! word = None ∧
                      occurrences w word lab_list ≠ [])
           then Some (occurrences w word lab_list) else None) ∧
  (outcome m w = Ok () ↔ ¬ some_word_missing self w lab_list) ∧
  (¬ some_word_missing self w lab_list → outcome m w = Ok () ∧ ood = ∅) ∧
  (some_word_missing self w lab_list →
   outcome m w
     = Raise (SystemExit "Error: Out of dictionary word(s), see outofdict.txt") ∧
   files (world_after m w) !! "outofdict.txt"
     = Some (Py.cat ((λ entry : string * list string,
                        if ood_mode
                        then entry.1 +:+ tab +:+ Py.str_join " " entry.2 +:+ nl
                        else entry.1 +:+ nl) <$> map_to_list ood)) ∧
   calls (world_after m w) = calls w ∧
   (∀ ts_dir wav_list,
      _lists env ts_dir w = (Ok (wav_list, lab_list), w) →
      outcome (_check env self ts_dir ood_mode) w
        = Raise (SystemExit
                   "Error: Out of dictionary word(s), see outofdict.txt") ∧
      calls (world_after (_check env self ts_dir ood_mode) w) = calls w)).
Proof.
  intros Hapart Hread ood m.
  destruct (check_dct_run self lab_list ood_mode w Hapart Hread)
    as [Hok Hfail]. fold ood m in Hok, Hfail.
  pose proof (resolved_ood_empty self w lab_list) as Hempty. fold ood in Hempty.
  split_and!.
  - apply resolved_ood.
  - split.
    + intros Hout Hmiss.
      destruct (decide (ood = ∅)) as [He|Hne]; [by apply Hempty in He|].
      destruct (Hfail Hne) as [Hraise _]. congruence.
    + intros Hno. apply Hok, Hempty, Hno.
  - intros Hno. split; [apply Hok|]; by apply Hempty.
  - intros Hmiss.
    assert (ood ≠ ∅) as Hne by (intros He; by apply Hempty in He).
    destruct (Hfail Hne) as (Hraise & Hcalls & _ & Hfile).
    split_and!; try done.
    intros ts_dir wav_list Hlists.
    destruct (check_dct_run (set_wav_list wav_list self) lab_list ood_mode w
                Hapart Hread) as [_ Hfail'].
    destruct (Hfail' Hne) as (Hraise' & Hcalls' & _).
    unfold outcome, world_after in *. unfold _check.
    rewrite (bind_ok _ _ _ _ _ Hlists).
    destruct (_check_dct env (set_wav_list wav_list self) lab_list ood_mode w)
      as [[[]|e] w'] eqn:Hrun; cbn [fst snd] in *; [done|].
    rewrite (bind_raise _ _ _ _ _ Hrun). cbn [fst snd].
    split; [congruence|done].
Qed.

End WithEnv.

Lemma demo_apart :
  ∀ lab, lab ∈ ["/c/a.lab"; "/c/b.lab"] →
         lab ∉ label_targets Demo.reader ["/c/a.lab"; "/c/b.lab"].
Proof.
  apply Forall_forall. apply (bool_decide_unpack _). vm_compute. exact I.
Qed.

Lemma demo_readable :
  ∀ lab, lab ∈ ["/c/a.lab"; "/c/b.lab"] →
         is_Some (files Demo.corpus !! lab).
Proof.
  apply Forall_forall. apply (bool_decide_unpack _). vm_compute. exact I.
Qed.

Lemma C5_witness :
  outcome (_check_dct (Demo.quiet_env []) Demo.reader
             ["/c/a.lab"; "/c/b.lab"] true) Demo.corpus
    = Raise (SystemExit "Error: Out of dictionary word(s), see outofdict.txt") ∧
  files (world_after (_check_dct (Demo.quiet_env []) Demo.reader
                        ["/c/a.lab"; "/c/b.lab"] true) Demo.corpus)
    !! "outofdict.txt"
    = Some ("there" +:+ tab +:+ "/c/b.lab" +:+ nl).
Proof.
  destruct (C5_resolution_fails_iff_word_missing (Demo.quiet_env [])
              Demo.reader ["/c/a.lab"; "/c/b.lab"] true Demo.corpus
              demo_apart demo_readable) as (_ & _ & _ & Hmiss).
  destruct Hmiss as (Hraise & Hfile & _).
  - exists "/c/b.lab", "there". split_and!.
    + apply (bool_decide_unpack _). vm_compute. exact I.
    + apply (bool_decide_unpack _). vm_compute. exact I.
    + vm_compute. reflexivity.
  - split; [exact Hraise|]. rewrite Hfile. vm_compute. reflexivity.
Defined.

End DictFacts.

(** ** Paths *)

Module PathFacts.
Import Sys Obs StrFacts.

Lemma prefix_app (p s : string) :
  String.prefix p s = true ↔ ∃ r, s = p +:+ r.
Proof.
  revert s. induction p as [|a p IH]; intros s.
  - split; [intros _; by exists s|]. by destruct s.
  - destruct s as [|b s]; cbn [String.prefix].
    + split; [done|]. intros [r Hr]. by rewrite sapp_cons in Hr.
    + destruct (ascii_dec a b) as [->|Hne].
      * rewrite IH. split; intros [r Hr]; exists r.
        -- by rewrite sapp_cons, Hr.
        -- rewrite sapp_cons in Hr. by inversion Hr.
      * split; [done|]. intros [r Hr]. rewrite sapp_cons in Hr.
        by inversion Hr.
Qed.

Lemma sdrop_app (a b : string) : Py.sdrop (String.length a) (a +:+ b) = b.
Proof. induction a as [|c a IH]; [by destruct b|]. by rewrite sapp_cons. Qed.

Lemma stake_app (a b : string) (k : nat) :
  Py.stake (String.length a + k) (a +:+ b) = a +:+ Py.stake k b.
Proof.
  induction a as [|c a IH]; [done|].
  rewrite !sapp_cons. cbn. by rewrite IH.
Qed.

Lemma stake_0 (a : string) : Py.stake 0 a = "".
Proof. by destruct a. Qed.

Lemma rfind_app (c : ascii) (a b : string) :
  Py.rfind c (a +:+ b) =
  match Py.rfind c b with
  | Some i => Some (String.length a + i)%nat
  | None => Py.rfind c a
  end.
Proof.
  induction a as [|x a IH]; [rewrite sapp_nil_l; by destruct (Py.rfind c b)|].
  rewrite sapp_cons. cbn [Py.rfind String.length]. rewrite IH.
  by destruct (Py.rfind c b).
Qed.

Lemma endswith_app (s suf : string) :
  Py.endswith s suf = true ↔ ∃ pre, s = pre +:+ suf.
Proof.
  induction s as [|a s IH]; cbn [Py.endswith].
  - destruct (decide ("" = suf)) as [<-|Hne].
    + split; [by exists ""|done].
    + split; [done|]. intros [pre Hp]. destruct pre; [done|].
      by rewrite sapp_cons in Hp.
  - destruct (decide (String a s = suf)) as [<-|Hne].
    + split; [by exists ""|done].
    + rewrite IH. split; intros [pre Hp].
      * exists (String a pre). by rewrite sapp_cons, Hp.
      * destruct pre as [|b pre]; [by rewrite sapp_nil_l in Hp|].
        rewrite sapp_cons in Hp. inversion Hp; subst. by exists pre.
Qed.


(** The directory prefix of a glob result is empty or ends in a slash. *)
Lemma dir_slash_shape (d : string) :
  dir_slash d = "" ∨ ∃ q, dir_slash d = q +:+ "/".
Proof.
  unfold dir_slash, Py.join. cbn [Py.startswith String.prefix].
  destruct (bool_decide (d = "")) eqn:Hd.
  - apply bool_decide_eq_true in Hd as ->. by left.
  - destruct (Py.endswith d "/") eqn:He; cbn [orb].
    + apply endswith_app in He as [q ->]. right. exists q.
      by rewrite sapp_nil_r.
    + right. exists d. by rewrite sapp_nil_r.
Qed.

Lemma rfind_slash_prefix (pre name : string) :
  (pre = "" ∨ ∃ q, pre = q +:+ "/") → Py.rfind "/" name = None →
  match Py.rfind "/" (pre +:+ name) with
  | Some sepIndex => S sepIndex
  | None => 0%nat
  end = String.length pre.
Proof.
  intros Hpre Hname. rewrite rfind_app, Hname.
  destruct Hpre as [->|[q ->]]; [done|].
  assert (Py.rfind "/" "/" = Some 0%nat) as E by done.
  rewrite rfind_app, E, slength_app. cbn [String.length]. lia.
Qed.

Lemma has_nondot_start (stem rest : string) :
  stem ≠ "" → Py.startswith stem "." = false →
  Py.has_nondot (Py.stake (String.length stem) (stem +:+ rest)) = true.
Proof.
  intros Hne Hdot. destruct stem as [|c stem]; [done|].
  rewrite sapp_cons. cbn [String.length Py.stake Py.has_nondot].
  unfold Py.startswith in Hdot. cbn [String.prefix] in Hdot.
  destruct (decide (c = "."%char)) as [->|]; [|done].
  destruct (ascii_dec "." "."); [by destruct stem|done].
Qed.

Lemma wav_is_ext : is_ext ".wav".
Proof. by exists "wav". Qed.

(** [splitext] takes the extension off a file of the directory. *)
Lemma splitext_stem (pre stem ext : string) :
  (pre = "" ∨ ∃ q, pre = q +:+ "/") → valid_stem stem → is_ext ext →
  Py.splitext (pre +:+ stem +:+ ext) = (pre +:+ stem, ext).
Proof.
  intros Hpre (Hne & Hslash & Hdot) (e & -> & Hed & Hes).
  unfold Py.splitext.
  assert (Py.rfind "." (pre +:+ stem +:+ String "." e)
          = Some (String.length pre + String.length stem)%nat) as ->.
  { rewrite !rfind_app. cbn [Py.rfind]. rewrite Hed.
    rewrite decide_True by done. f_equal. lia. }
  rewrite (rfind_slash_prefix pre (stem +:+ String "." e) Hpre).
  2:{ rewrite rfind_app. cbn [Py.rfind]. rewrite Hes.
      by rewrite decide_False. }
  rewrite decide_True by lia.
  replace (String.length pre + String.length stem - String.length pre)%nat
    with (String.length stem) by lia.
  rewrite sdrop_app, has_nondot_start by done.
  rewrite <- sapp_assoc, <- slength_app.
  f_equal.
  - rewrite <- (Nat.add_0_r (String.length (pre +:+ stem))).
    by rewrite stake_app, stake_0, sapp_nil_r.
  - by rewrite sdrop_app.
Qed.

Lemma valid_stem_name (stem ext : string) :
  is_ext ext →
  (valid_stem stem ↔
   stem +:+ ext ≠ "" ∧ Py.rfind "/" (stem +:+ ext) = None ∧
   Py.startswith (stem +:+ ext) "." = false).
Proof.
  intros (e & -> & Hed & Hes).
  assert (Py.rfind "/" (String "." e) = None) as Hext.
  { cbn [Py.rfind]. rewrite Hes. by rewrite decide_False. }
  unfold valid_stem. rewrite rfind_app, Hext.
  destruct stem as [|c stem].
  - rewrite sapp_nil_l. unfold Py.startswith. cbn [String.prefix].
    destruct (ascii_dec "." "."); [|done]. split; [by intros [? _]|].
    intros (_ & _ & H). by destruct e.
  - rewrite sapp_cons. unfold Py.startswith. cbn [String.prefix].
    destruct (ascii_dec "." c); [|naive_solver].
    assert (String.prefix "" stem = true) as -> by by destruct stem.
    assert (String.prefix "" (stem +:+ String "." e) = true) as ->
      by by destruct (stem +:+ _).
    naive_solver.
Qed.






End PathFacts.

(** ** Corpus validation *)

Module ListsFacts.
Import Sys Obs Aligner StrFacts MFacts PathFacts.




Section WithWorld.
Context (w : World) (d : string).

Local Abbreviation wav_list := (glob d ".wav" w).
Local Abbreviation lab_list := (glob d ".lab" w).






End WithWorld.

Section WithEnv.
Context (env : Env).






End WithEnv.



End ListsFacts.

(** ** Where the label files lie *)

Module LayoutFacts.
Import Sys Obs Aligner StrFacts PathFacts.

Lemma join_dir_slash (a b : string) :
  Py.startswith b "/" = false → Py.join a b = dir_slash a +:+ b.
Proof.
  intros Hb. unfold dir_slash, Py.join. rewrite Hb.
  cbn [Py.startswith String.prefix].
  destruct (_ || _); by rewrite ?sapp_assoc, ?sapp_nil_r, ?sapp_nil_l.
Qed.

Lemma rfind_sdrop (c : ascii) (p : string) (i : nat) :
  Py.rfind c p = Some i → Py.rfind c (Py.sdrop (S i) p) = None.
Proof.
  revert i. induction p as [|a p IH]; intros i; [done|].
  cbn [Py.rfind]. destruct (Py.rfind c p) as [j|] eqn:Hj.
  - intros [= <-]. cbn [Py.sdrop]. by apply IH.
  - destruct (decide (a = c)); [|done]. intros [= <-]. cbn [Py.sdrop].
    by destruct p.
Qed.

Lemma basename_no_slash (p : string) : Py.rfind "/" (Py.basename p) = None.
Proof.
  unfold Py.basename. destruct (Py.rfind "/" p) as [i|] eqn:Hi; [|done].
  by apply rfind_sdrop.
Qed.

Lemma no_slash_start (s : string) :
  Py.rfind "/" s = None → Py.startswith s "/" = false.
Proof.
  destruct s as [|c s]; [done|]. unfold Py.startswith.
  cbn [Py.rfind String.prefix]. destruct (ascii_dec "/" c) as [<-|]; [|done].
  destruct (Py.rfind "/" s); [done|]. by rewrite decide_True.
Qed.

(** A directory name that does not end in a slash gets one. *)
Lemma dir_slash_name (x name : string) :
  name ≠ "" → slast name ≠ Some "/"%char →
  dir_slash (x +:+ name) = x +:+ name +:+ "/".
Proof.
  intros Hne Hlast. unfold dir_slash, Py.join.
  cbn [Py.startswith String.prefix].
  rewrite bool_decide_eq_false_2.
  - destruct (Py.endswith (x +:+ name) "/") eqn:He; cbn [orb].
    + apply endswith_app in He as [pre He].
      apply (f_equal slast) in He.
      rewrite !PauseFacts.slast_app in He by done. done.
    + by rewrite sapp_assoc.
  - intros E. apply (f_equal String.length) in E.
    rewrite slength_app in E. destruct name; [done|]. cbn in E. lia.
Qed.

Lemma NoDup_fmap_eq {A B} (g : A → B) (l : list A) (x y : A) :
  NoDup (g <$> l) → x ∈ l → y ∈ l → g x = g y → x = y.
Proof.
  induction l as [|a l IH]; cbn [fmap list_fmap].
  - intros _ Hx. by apply elem_of_nil in Hx.
  - rewrite NoDup_cons. intros [Ha Hnd] Hx Hy E.
    apply elem_of_cons in Hx as [->|Hx], Hy as [->|Hy]; [done|..].
    + exfalso. apply Ha. rewrite E. by apply list_elem_of_fmap_2.
    + exfalso. apply Ha. rewrite <- E. by apply list_elem_of_fmap_2.
    + by apply IH.
Qed.

Section WithSelf.
Context (self : aligner) (Hlay : laid_out self).

Local Abbreviation P := (dir_slash (tmp_dir self)).

Lemma phon_lab_path_shape lab :
  phon_lab_path self lab = P +:+ "DAT/" +:+ Py.basename lab.
Proof.
  destruct Hlay as (Ha & _ & _). unfold phon_lab_path. rewrite Ha.
  rewrite (join_dir_slash _ (Py.basename lab))
    by apply no_slash_start, basename_no_slash.
  rewrite (join_dir_slash _ "DAT") by done.
  rewrite dir_slash_name by done. by rewrite !sapp_assoc.
Qed.

Lemma word_lab_path_shape lab :
  word_lab_path self lab = P +:+ "LAB/" +:+ Py.basename lab.
Proof.
  destruct Hlay as (_ & Hl & _). unfold word_lab_path. rewrite Hl.
  rewrite (join_dir_slash _ (Py.basename lab))
    by apply no_slash_start, basename_no_slash.
  rewrite (join_dir_slash _ "LAB") by done.
  rewrite dir_slash_name by done. by rewrite !sapp_assoc.
Qed.

Lemma word_mlf_shape : word_mlf self = P +:+ "words.mlf".
Proof. destruct Hlay as (_ & _ & Hm). by rewrite Hm, join_dir_slash. Qed.

(** No transcript outside the workspace is a label file. *)
Lemma transcripts_apart_by_layout (lab_list : list string) :
  (∀ lab, lab ∈ lab_list → outside (tmp_dir self) lab) →
  ∀ lab, lab ∈ lab_list → lab ∉ label_targets self lab_list.
Proof.
  intros Hout lab Hlab Hin. specialize (Hout lab Hlab). unfold outside in Hout.
  assert (Py.startswith lab P = true); [|congruence].
  apply prefix_app. apply DictFacts.elem_of_label_targets in Hin
    as [->|(l & _ & [-> | ->])].
  - rewrite word_mlf_shape. by eexists.
  - rewrite phon_lab_path_shape. by eexists.
  - rewrite word_lab_path_shape. by eexists.
Qed.

(** For transcripts with base names of their own the label files are
    pairwise different files. *)
Lemma label_targets_NoDup_by_layout (lab_list : list string) :
  NoDup (Py.basename <$> lab_list) → NoDup (label_targets self lab_list).
Proof.
  intros Hnd. unfold label_targets. apply NoDup_cons. split.
  - rewrite word_mlf_shape.
    intros [(lab & E & _)%list_elem_of_fmap|(lab & E & _)%list_elem_of_fmap]
      %elem_of_app.
    + rewrite phon_lab_path_shape in E. by apply String.app_inj in E.
    + rewrite word_lab_path_shape in E. by apply String.app_inj in E.
  - apply NoDup_app. split_and!.
    + apply (NoDup_fmap_2_strong _ _); [|by eapply NoDup_fmap_1].
      intros x y Hx Hy. rewrite !phon_lab_path_shape.
      intros E. do 2 apply String.app_inj in E.
      by apply (NoDup_fmap_eq Py.basename lab_list).
    + intros p (x & -> & _)%list_elem_of_fmap (y & E & _)%list_elem_of_fmap.
      rewrite phon_lab_path_shape, word_lab_path_shape in E.
      by apply String.app_inj in E.
    + apply (NoDup_fmap_2_strong _ _); [|by eapply NoDup_fmap_1].
      intros x y Hx Hy. rewrite !word_lab_path_shape.
      intros E. do 2 apply String.app_inj in E.
      by apply (NoDup_fmap_eq Py.basename lab_list).
Qed.

End WithSelf.

End LayoutFacts.

(** ** The finalizer *)

Module DelFacts.
Import Sys Obs Aligner.

(** When [__del__] runs, nothing of the workspace is left, and nothing
    outside it is touched.  (Nothing in the script calls it: the
    interpreter does, when it collects the object.) *)
Lemma del_removes_workspace self w p :
  under (tmp_dir self) p = true →
  path_exists (world_after (__del__ self) w) p = false.
Proof.
  intros Hu. apply GenFacts.path_exists_false. cbn. split.
  - intros [Hf _]%elem_of_filter. congruence.
  - apply map_lookup_filter_None. right. intros c _. cbn. congruence.
Qed.

Lemma del_keeps_the_rest self w p :
  under (tmp_dir self) p = false →
  path_exists (world_after (__del__ self) w) p = path_exists w p ∧
  files (world_after (__del__ self) w) !! p = files w !! p.
Proof.
  intros Hu.
  assert (files (world_after (__del__ self) w) !! p = files w !! p) as Hf.
  { cbn. destruct (files w !! p) as [c|] eqn:Hc.
    - by apply map_lookup_filter_Some.
    - apply map_lookup_filter_None. by left. }
  split; [|done]. unfold path_exists. f_equal.
  - apply bool_decide_ext. cbn. rewrite elem_of_filter. naive_solver.
  - apply bool_decide_ext. by rewrite !elem_of_dom, Hf.
Qed.

End DelFacts.

(** ** What every run of a computation keeps *)

Module KeepsFacts.
Import Sys Obs Keeps.

Section Generic.
Context (R : relation World) `{!PreOrder R}.

Lemma keeps_ret {A} (a : A) : keeps R (mret a).
Proof. intros w. cbn. reflexivity. Qed.

Lemma keeps_raise {A} (e : exn) : keeps R (raise e : M A).
Proof. intros w. cbn. reflexivity. Qed.

Lemma keeps_error {A} (msg : string) : keeps R (error msg : M A).
Proof. apply keeps_raise. Qed.

Lemma keeps_get_world : keeps R get_world.
Proof. intros w. cbn. reflexivity. Qed.

Lemma keeps_fread p : keeps R (fread p).
Proof. intros w. unfold fread. destruct (files w !! p); cbn; reflexivity. Qed.

Lemma keeps_bind {A B} (m : M A) (k : A → M B) :
  keeps R m → (∀ a, keeps R (k a)) → keeps R (m ≫= k).
Proof.
  intros Hm Hk w. unfold mbind, M_bind. specialize (Hm w).
  destruct (m w) as [[a|e] w1]; cbn in *; [|done].
  etrans; [exact Hm|apply Hk].
Qed.

Lemma keeps_if {A} (b : bool) (m1 m2 : M A) :
  keeps R m1 → keeps R m2 → keeps R (if b then m1 else m2).
Proof. by destruct b. Qed.

Lemma keeps_for_each {A} (l : list A) (body : A → M unit) :
  (∀ x, keeps R (body x)) → keeps R (for_each l body).
Proof.
  intros Hb. induction l as [|x l IH]; cbn [for_each].
  - apply keeps_ret.
  - apply keeps_bind; [apply Hb|by intros _].
Qed.

Lemma keeps_foldM {A S} (body : S → A → M S) (l : list A) : ∀ acc,
  (∀ s x, keeps R (body s x)) → keeps R (foldM body acc l).
Proof.
  intros acc Hb. revert acc. induction l as [|x l IH]; intros acc; cbn [foldM].
  - apply keeps_ret.
  - apply keeps_bind; [apply Hb|apply IH].
Qed.

Lemma keeps_repeatM {S} (k : nat) (body : S → M S) : ∀ acc,
  (∀ s, keeps R (body s)) → keeps R (repeatM k body acc).
Proof.
  intros acc Hb. revert acc. induction k as [|k IH]; intros acc; cbn [repeatM].
  - apply keeps_ret.
  - apply keeps_bind; [apply Hb|apply IH].
Qed.

Lemma keeps_yields {A} (m : M A) : keeps R m → yields R (λ _, True) m.
Proof. intros H w. split; [apply H|done]. Qed.

Lemma yields_keeps {A} (Q : A → Prop) (m : M A) : yields R Q m → keeps R m.
Proof. intros H w. apply H. Qed.

Lemma yields_ret {A} (Q : A → Prop) (a : A) : Q a → yields R Q (mret a).
Proof. intros H w. split; [cbn; reflexivity|]. intros b [= <-]. done. Qed.

Lemma yields_raise {A} (Q : A → Prop) (e : exn) : yields R Q (raise e).
Proof. intros w. split; [cbn; reflexivity|]. intros b. cbn. done. Qed.

Lemma yields_weaken {A} (P Q : A → Prop) (m : M A) :
  yields R P m → (∀ a, P a → Q a) → yields R Q m.
Proof. intros H HPQ w. destruct (H w) as [H1 H2]. split; [done|]. auto. Qed.

Lemma yields_bind {A B} (P : A → Prop) (Q : B → Prop) (m : M A) (k : A → M B) :
  yields R P m → (∀ a, P a → yields R Q (k a)) → yields R Q (m ≫= k).
Proof.
  intros Hm Hk w. unfold mbind, M_bind. destruct (Hm w) as [H1 H2].
  destruct (m w) as [[a|e] w1]; cbn in *.
  - destruct (Hk a (H2 a eq_refl) w1) as [H3 H4]. split; [|done].
    by etrans.
  - split; [done|]. intros b Hb. done.
Qed.

Lemma yields_then {A B} (Q : B → Prop) (m : M A) (k : A → M B) :
  keeps R m → (∀ a, yields R Q (k a)) → yields R Q (m ≫= k).
Proof.
  intros Hm Hk. apply (yields_bind (λ _, True)); [by apply keeps_yields|].
  intros a _. apply Hk.
Qed.

Lemma yields_from_all {A} (Q : A → Prop) (m : M A) w :
  yields R Q m → yields_from R Q m w.
Proof. intros H. apply H. Qed.

Lemma yields_from_bind {A B} (P : A → Prop) (Q : B → Prop) (m : M A)
    (k : A → M B) w :
  yields_from R P m w → (∀ a, P a → yields R Q (k a)) →
  yields_from R Q (m ≫= k) w.
Proof.
  intros [H1 H2] Hk. unfold yields_from, mbind, M_bind.
  destruct (m w) as [[a|e] w1]; cbn in *.
  - destruct (Hk a (H2 a eq_refl) w1) as [H3 H4]. split; [|done].
    by etrans.
  - split; [done|]. intros b Hb. done.
Qed.

Lemma yields_after_bind {A B} (P : A → Prop) (Q : B → Prop) (m : M A)
    (k : A → M B) w1 w :
  yields_after R P m w1 w → (∀ a, P a → yields R Q (k a)) →
  yields_after R Q (m ≫= k) w1 w.
Proof.
  intros [H1 H2] Hk. unfold yields_after, mbind, M_bind.
  destruct (m w) as [[a|e] w2]; cbn in *.
  - destruct (Hk a (H2 a eq_refl) w2) as [H3 H4]. split; [|done].
    by etrans.
  - split; [done|]. intros b Hb. done.
Qed.

Lemma yields_from_weaken {A} (P Q : A → Prop) (m : M A) w :
  yields_from R P m w → (∀ a, P a → Q a) → yields_from R Q m w.
Proof. intros [H1 H2] HPQ. split; [done|]. auto. Qed.

Lemma yields_repeatM {S} (I : S → Prop) (k : nat) (body : S → M S) : ∀ acc,
  (∀ s, I s → yields R I (body s)) → I acc → yields R I (repeatM k body acc).
Proof.
  intros acc Hb. revert acc. induction k as [|k IH]; intros acc Hacc;
    cbn [repeatM].
  - by apply yields_ret.
  - apply (yields_bind I); [by apply Hb|]. intros s Hs. by apply IH.
Qed.

End Generic.

Lemma same_log_fwrite p s : keeps same_log (fwrite p s).
Proof. done. Qed.
Lemma same_log_open_w p : keeps same_log (open_w p).
Proof. done. Qed.
Lemma same_log_open_a p : keeps same_log (open_a p).
Proof. done. Qed.
Lemma same_log_write_file p s : keeps same_log (write_file p s).
Proof. done. Qed.
Lemma same_log_mkdir p : keeps same_log (mkdir p).
Proof. intros w. unfold mkdir. by destruct (path_exists w p). Qed.
Lemma same_log_rmtree p : keeps same_log (rmtree p).
Proof. done. Qed.

End KeepsFacts.

(** Steps through a computation, for a relation with the lemmas for its
    primitives in the hint database [keeps]. *)
Create HintDb keeps discriminated.
#[export] Hint Resolve KeepsFacts.keeps_ret KeepsFacts.keeps_raise
  KeepsFacts.keeps_error KeepsFacts.keeps_get_world KeepsFacts.keeps_fread
  KeepsFacts.same_log_fwrite KeepsFacts.same_log_open_w
  KeepsFacts.same_log_open_a KeepsFacts.same_log_write_file
  KeepsFacts.same_log_mkdir KeepsFacts.same_log_rmtree : keeps.

Ltac keeps_step :=
  first
    [ apply KeepsFacts.keeps_bind; [apply _| |intros ?]
    | apply KeepsFacts.keeps_for_each; [apply _|intros ?]
    | apply KeepsFacts.keeps_foldM; [apply _|intros ? ?]
    | apply KeepsFacts.keeps_repeatM; [apply _|intros ?]
    | apply KeepsFacts.keeps_if
    | solve [eauto with keeps typeclass_instances]
    | match goal with
      | |- Keeps.keeps _ (match ?x with _ => _ end) => destruct x
      | |- Keeps.keeps _ (let '(_, _) := ?x in _) => destruct x
      end ].
Ltac keeps_go := repeat (cbv beta zeta; keeps_step).

(** ** The sample rate the script settles on *)

Module RateFacts.
Import SampleRate SampleRateFacts.

Lemma nth_SRs_elem (i : nat) : (i < length SRs)%nat → nth i SRs 0 ∈ SRs.
Proof.
  intros Hi. destruct (lookup_lt_is_Some_2 SRs i Hi) as [v Hv].
  rewrite (nth_SRs_lookup i v Hv). by eapply list_elem_of_lookup_2.
Qed.

Lemma SRs_elem_nth q : q ∈ SRs → ∃ j : nat, (j < length SRs)%nat ∧ nth j SRs 0 = q.
Proof.
  intros Hq. apply list_elem_of_lookup_1 in Hq as [j Hj].
  exists j. split; [by eapply lookup_lt_Some|by apply nth_SRs_lookup].
Qed.

Lemma sane_samplerate_in_SRs sr : sane_samplerate sr ∈ SRs.
Proof.
  unfold sane_samplerate. case_bool_decide as Hsr; [done|].
  unfold nearest_viable.
  destruct (bisect_spec SRs sr SRs_sorted) as (Hlen & _ & _).
  set (i := bisect SRs sr) in *.
  destruct (Nat.eqb_spec i 0) as [Hi0|Hi0].
  { by apply (nth_SRs_elem 0); simpl; lia. }
  destruct (Nat.eqb_spec i (length SRs)) as [Hil|Hil].
  { by apply (nth_SRs_elem 17); simpl; lia. }
  destruct (_ >? _); apply nth_SRs_elem; lia.
Qed.

(** X1.  Whatever is requested with [-s], the rate the script settles on
    is a supported one, and asking for it again gives it back.  For a
    request up to the highest supported rate it is the least supported
    rate that is not below the request (the script never rounds down);
    a request above the highest supported rate gets the highest. *)
Theorem X1_rate_is_least_supported_not_below (sr : Z) :
  let r := sane_samplerate sr in
  r ∈ SRs ∧
  sane_samplerate r = r ∧
  (sr ≤ 200000 → sr ≤ r ∧ ∀ q, q ∈ SRs → sr ≤ q → r ≤ q) ∧
  (200000 < sr → r = 200000).
Proof.
  intros r.
  assert (r ∈ SRs ∧ (sr ≤ 200000 → sr ≤ r ∧ ∀ q, q ∈ SRs → sr ≤ q → r ≤ q))
    as [Hin Hleast].
  { subst r. unfold sane_samplerate. case_bool_decide as Hsr.
    { split; [done|]. intros _. split; [lia|]. intros q _ Hq. lia. }
    unfold nearest_viable.
    destruct (bisect_spec SRs sr SRs_sorted) as (Hlen & Hlo & Hhi).
    set (i := bisect SRs sr) in *.
    destruct (Nat.eqb_spec i 0) as [Hi0|Hi0].
    { split; [by apply (nth_SRs_elem 0); simpl; lia|].
      intros _. split.
      - specialize (Hhi 0%nat). simpl (length SRs) in Hhi. lia.
      - intros q Hq _. apply SRs_elem_nth in Hq as (j & Hj & <-).
        apply SRs_sorted. lia. }
    destruct (Nat.eqb_spec i (length SRs)) as [Hil|Hil].
    { split; [by apply (nth_SRs_elem 17); simpl; lia|].
      intros Hmax. exfalso. apply Hsr.
      pose proof (Hlo 17%nat) as H17. simpl (nth 17 SRs 0) in H17.
      rewrite Hil in H17. simpl (length SRs) in H17.
      assert (sr = 200000) as -> by lia.
      by apply (nth_SRs_elem 17); simpl; lia. }
    assert (nth i SRs 0 ∈ SRs ∧
            (sr ≤ 200000 →
             sr ≤ nth i SRs 0 ∧ ∀ q, q ∈ SRs → sr ≤ q → nth i SRs 0 ≤ q))
      as Hgoal.
    { split; [apply nth_SRs_elem; lia|]. intros _. split.
      - specialize (Hhi i). lia.
      - intros q Hq Hle. apply SRs_elem_nth in Hq as (j & Hj & <-).
        destruct (decide (j < i)%nat) as [Hji|Hji].
        + exfalso. apply Hsr. specialize (Hlo j Hji).
          assert (sr = nth j SRs 0) as -> by lia. by apply nth_SRs_elem.
        + apply SRs_sorted. lia. }
    by destruct (_ >? _). }
  split_and!; [done|by apply sane_samplerate_supported|done|].
  intros Hsr. by apply sane_samplerate_above.
Qed.

End RateFacts.

(** ** Reading the pronouncing dictionary *)

Module TheDictFacts.
Import Sys Obs Aligner StrFacts MFacts DictObs.

Lemma words_go_nil cur s :
  String.words_go cur s = [] ↔ cur = None ∧ blank s = true.
Proof.
  revert cur. induction s as [|a s IH]; intros cur; cbn [String.words_go blank].
  - destruct cur; cbn; naive_solver.
  - destruct (Ascii.is_space a); cbn [andb].
    + rewrite app_nil, IH. destruct cur; cbn; naive_solver.
    + rewrite IH. naive_solver.
Qed.

Lemma rstrip_nil s : Py.rstrip s = "" ↔ blank s = true.
Proof.
  induction s as [|a s IH]; cbn [Py.rstrip blank]; [done|].
  destruct (Ascii.is_space a); cbn [andb].
  - case_bool_decide as E; [by rewrite <- IH|].
    split; [done|]. intros Hb. by apply IH in Hb.
  - done.
Qed.

Lemma blank_rstrip s : blank (Py.rstrip s) = blank s.
Proof.
  induction s as [|a s IH]; cbn [Py.rstrip blank]; [done|].
  destruct (Ascii.is_space a) eqn:Ea; cbn [andb].
  - case_bool_decide as E.
    + symmetry. by apply rstrip_nil.
    + cbn [blank]. by rewrite Ea.
  - cbn [blank]. by rewrite Ea.
Qed.

(** A line has no token exactly when it is blank. *)
Lemma tokens_nil line : tokens line = [] ↔ blank line = true.
Proof.
  unfold tokens, Py.split, String.words. rewrite words_go_nil, blank_rstrip.
  naive_solver.
Qed.

(** The body of the loop over the lines. *)
Local Abbreviation body :=
  (λ (d : gmap string (list string)) (line : string),
     match Py.split (Py.rstrip line) with
     | [] => raise IndexError
     | word :: pron => mret (<[word := pron]> d)
     end).

Lemma dict_loop_ok (lines : list string) : ∀ d w,
  Forall (λ line, blank line = false) lines →
  foldM body d lines w = (Ok (foldl add_line d lines), w).
Proof.
  induction lines as [|line lines IH]; intros d w Hall; [done|].
  apply Forall_cons in Hall as [Hline Hall]. cbn [foldM foldl].
  assert (body d line w = (Ok (add_line d line), w)) as Hstep.
  { unfold add_line, tokens.
    destruct (Py.split (Py.rstrip line)) eqn:E; [|done].
    apply tokens_nil in E. congruence. }
  rewrite (bind_ok _ _ _ _ _ Hstep). by apply IH.
Qed.

Lemma dict_loop_blank (lines : list string) : ∀ d w,
  (∃ line, line ∈ lines ∧ blank line = true) →
  foldM body d lines w = (Raise IndexError, w).
Proof.
  induction lines as [|line lines IH]; intros d w (l & Hl & Hb).
  { by apply elem_of_nil in Hl. }
  cbn [foldM]. destruct (blank line) eqn:Eb.
  - apply tokens_nil in Eb. unfold tokens in Eb.
    apply bind_raise. by rewrite Eb.
  - assert (body d line w = (Ok (add_line d line), w)) as Hstep.
    { unfold add_line, tokens.
      destruct (Py.split (Py.rstrip line)) eqn:E; [|done].
      apply tokens_nil in E. congruence. }
    rewrite (bind_ok _ _ _ _ _ Hstep). apply IH.
    apply elem_of_cons in Hl as [->|Hl]; [congruence|eauto].
Qed.

Lemma add_lines_lookup (lines : list string) : ∀ d word pron,
  foldl add_line d lines !! word = Some pron ↔
  (∃ pre line post, lines = pre ++ line :: post ∧
                    tokens line = word :: pron ∧ no_entry word post) ∨
  (d !! word = Some pron ∧ no_entry word lines).
Proof.
  induction lines as [|l ls IH]; intros d word pron; cbn [foldl].
  { split.
    - intros H. right. split; [done|]. intros line p Hin.
      by apply elem_of_nil in Hin.
    - intros [(pre & line & post & E & _)|[H _]]; [|done].
      by destruct pre. }
  rewrite IH. split.
  - intros [(pre & line & post & -> & Ht & Hno)|[Hd Hno]].
    + left. by exists (l :: pre), line, post.
    + unfold add_line in Hd. destruct (tokens l) as [|w0 p0] eqn:El.
      * right. split; [done|]. intros line p Hin.
        apply elem_of_cons in Hin as [->|Hin]; [congruence|by apply Hno].
      * destruct (decide (w0 = word)) as [->|Hne].
        -- rewrite lookup_insert_eq in Hd. injection Hd as ->.
           left. by exists [], l, ls.
        -- rewrite lookup_insert_ne in Hd by done.
           right. split; [done|]. intros line p Hin.
           apply elem_of_cons in Hin as [->|Hin]; [congruence|by apply Hno].
  - intros [(pre & line & post & E & Ht & Hno)|[Hd Hno]].
    + destruct pre as [|l' pre]; cbn in E; injection E as -> ->.
      * right. split; [|done]. unfold add_line. rewrite Ht.
        apply lookup_insert_eq.
      * left. by exists pre, line, post.
    + right. split.
      * unfold add_line. destruct (tokens l) as [|w0 p0] eqn:El; [done|].
        rewrite lookup_insert_ne; [done|].
        intros ->. eapply (Hno l p0); [by left|done].
      * intros line p Hin. apply Hno. by right.
Qed.

(** X2.  For a dictionary file without blank lines, [_the_dict] returns,
    changes nothing, and maps a word to the tokens that follow it on
    the last line that starts with this word; a word that starts no
    line is not a key. *)
Theorem X2_dictionary_last_line_wins dictionary w content :
  files w !! dictionary = Some content →
  Forall (λ line, blank line = false) (Py.readlines content) →
  ∃ d, _the_dict dictionary w = (Ok d, w) ∧
       (∀ word pron,
          d !! word = Some pron ↔
          ∃ pre line post,
            Py.readlines content = pre ++ line :: post ∧
            Py.split (Py.rstrip line) = word :: pron ∧
            no_entry word post) ∧
       (∀ word, d !! word = None ↔ no_entry word (Py.readlines content)).
Proof.
  intros Hfile Hall.
  exists (foldl add_line ∅ (Py.readlines content)).
  assert (∀ word pron,
            foldl add_line ∅ (Py.readlines content) !! word = Some pron ↔
            ∃ pre line post,
              Py.readlines content = pre ++ line :: post ∧
              Py.split (Py.rstrip line) = word :: pron ∧
              no_entry word post) as Hlook.
  { intros word pron. rewrite add_lines_lookup. split; [|by left].
    intros [H|[H _]]; [done|by rewrite lookup_empty in H]. }
  split_and!.
  - unfold _the_dict. rewrite (bind_ok _ _ _ _ _ (fread_ok _ _ _ Hfile)).
    by apply dict_loop_ok.
  - done.
  - intros word. split.
    + intros Hnone line pron Hin Ht.
      apply list_elem_of_split in Hin as (pre & post & E).
      assert (∃ pron', foldl add_line ∅ (Py.readlines content) !! word
                       = Some pron') as [pron' Hsome]; [|congruence].
      clear Hnone. rewrite E.
      clear E Hall Hlook. revert line pron Ht pre.
      induction post as [|l post IH] using rev_ind; intros line pron Ht pre.
      * exists pron. apply add_lines_lookup. left.
        exists pre, line, []. split_and!; [done..|].
        intros ??. by rewrite elem_of_nil.
      * destruct (tokens l) as [|w0 p0] eqn:El.
        -- destruct (IH line pron Ht pre) as [pron' H]. exists pron'.
           replace (pre ++ line :: post ++ [l])
             with ((pre ++ line :: post) ++ [l]) by by rewrite <- app_assoc.
           rewrite foldl_app. cbn [foldl]. unfold add_line at 1. by rewrite El.
        -- replace (pre ++ line :: post ++ [l])
             with ((pre ++ line :: post) ++ [l]) by by rewrite <- app_assoc.
           rewrite foldl_app. cbn [foldl]. unfold add_line at 1. rewrite El.
           destruct (decide (w0 = word)) as [->|Hne].
           ++ exists p0. apply lookup_insert_eq.
           ++ rewrite lookup_insert_ne by done. by eapply IH.
    + intros Hno. destruct (_ !! word) as [pron|] eqn:E; [|done].
      apply Hlook in E as (pre & line & post & E & Ht & _).
      exfalso. eapply (Hno line pron); [|done].
      rewrite E. apply elem_of_app. right. by left.
Qed.

Lemma X2_witness :
  ∃ d, _the_dict "dictionary.txt" Samples.lexicon_world
         = (Ok d, Samples.lexicon_world) ∧
       d !! "hello" = Some ["hh"; "eh"; "l"; "ow"] ∧
       d !! "world" = Some ["w"; "er"; "l"; "d"] ∧
       d !! "there" = None.
Proof.
  destruct (X2_dictionary_last_line_wins "dictionary.txt" Samples.lexicon_world
              Samples.lexicon eq_refl) as (d & Hrun & Hsome & Hnone).
  { apply (bool_decide_unpack _). by vm_compute. }
  exists d. split_and!; [done| | |].
  - apply Hsome.
    exists ["hello hh ax l ow" +:+ nl; "world  w er l d" +:+ nl],
           ("hello hh eh l ow" +:+ nl), [].
    split_and!; [by vm_compute..|]. intros ??. by rewrite elem_of_nil.
  - apply Hsome.
    exists ["hello hh ax l ow" +:+ nl], ("world  w er l d" +:+ nl),
           ["hello hh eh l ow" +:+ nl].
    split_and!; [by vm_compute..|]. intros line pron Hin.
    apply list_elem_of_singleton in Hin as ->. by vm_compute.
  - apply Hnone. intros line pron Hin.
    assert (line ∈ ["hello hh ax l ow" +:+ nl; "world  w er l d" +:+ nl;
                    "hello hh eh l ow" +:+ nl]) as Hin' by exact Hin.
    repeat (apply elem_of_cons in Hin' as [->|Hin']; [by vm_compute|]).
    by apply elem_of_nil in Hin'.
Defined.

(** X3.  [_the_dict] never changes anything.  It returns exactly when
    the dictionary is a file without a blank line; a missing file ends
    it in an [IOError] and a blank line (an empty last line, say) in an
    [IndexError], from [line[0]].  A line is without a token exactly
    when it is blank. *)
Theorem X3_dictionary_blank_line_is_fatal dictionary w :
  world_after (_the_dict dictionary) w = w ∧
  (returns (_the_dict dictionary) w ↔
   ∃ content, files w !! dictionary = Some content ∧
              Forall (λ line, blank line = false) (Py.readlines content)) ∧
  (files w !! dictionary = None →
   outcome (_the_dict dictionary) w = Raise (IOError dictionary)) ∧
  (∀ content, files w !! dictionary = Some content →
     (∃ line, line ∈ Py.readlines content ∧ blank line = true) →
     outcome (_the_dict dictionary) w = Raise IndexError) ∧
  (∀ line, Py.split (Py.rstrip line) = [] ↔ blank line = true).
Proof.
  assert (∀ content, files w !! dictionary = Some content →
            (∃ line, line ∈ Py.readlines content ∧ blank line = true) →
            _the_dict dictionary w = (Raise IndexError, w)) as Hblank.
  { intros content Hfile Hb. unfold _the_dict.
    rewrite (bind_ok _ _ _ _ _ (fread_ok _ _ _ Hfile)).
    by apply dict_loop_blank. }
  assert (∀ content, files w !! dictionary = Some content →
            Forall (λ line, blank line = false) (Py.readlines content) →
            ∃ d, _the_dict dictionary w = (Ok d, w)) as Hgood.
  { intros content Hfile Hall. eexists. unfold _the_dict.
    rewrite (bind_ok _ _ _ _ _ (fread_ok _ _ _ Hfile)).
    by apply dict_loop_ok. }
  assert (files w !! dictionary = None →
          _the_dict dictionary w = (Raise (IOError dictionary), w)) as Hnone.
  { intros Hfile. unfold _the_dict. apply bind_raise.
    unfold fread. by rewrite Hfile. }
  assert (∀ content, Forall (λ line, blank line = false) (Py.readlines content)
                     ∨ ∃ line, line ∈ Py.readlines content ∧ blank line = true)
    as Hdec.
  { intros content.
    destruct (Forall_Exists_dec (λ line, blank line = false)
                (λ line, blank line = true)
                (λ line, match blank line as b
                               return {b = false} + {b = true} with
                         | true => right eq_refl
                         | false => left eq_refl
                         end) (Py.readlines content)) as [H|H]; [by left|right].
    apply Exists_exists in H as (line & Hin & Hb). by exists line. }
  split_and!.
  - unfold world_after. destruct (files w !! dictionary) as [content|] eqn:E.
    + destruct (Hdec content) as [H|H].
      * destruct (Hgood content eq_refl H) as [d ->]. done.
      * by rewrite (Hblank content eq_refl H).
    + by rewrite Hnone.
  - unfold returns, outcome. split.
    + intros [d Hd]. destruct (files w !! dictionary) as [content|] eqn:E.
      * exists content. split; [done|]. destruct (Hdec content) as [H|H]; [done|].
        rewrite (Hblank content eq_refl H) in Hd. done.
      * rewrite Hnone in Hd; done.
    + intros (content & E & H). destruct (Hgood content E H) as [d ->]. by exists d.
  - intros H. unfold outcome. by rewrite Hnone.
  - intros content E H. unfold outcome. by rewrite (Hblank content E H).
  - apply tokens_nil.
Qed.

End TheDictFacts.

(** ** The audio check *)

Module AudFacts.
Import Sys Obs Aligner StrFacts MFacts DictFacts AudObs.

Lemma wave_open_ok env wav w c header :
  files w !! wav = Some c → wave_header env c = inr header →
  wave_open env wav w = (Ok header, w).
Proof.
  intros Hc Hh. unfold wave_open.
  rewrite (bind_ok _ _ _ _ _ (fread_ok _ _ _ Hc)). by rewrite Hh.
Qed.

Lemma wave_open_bad env wav w c what :
  files w !! wav = Some c → wave_header env c = inl what →
  wave_open env wav w = (Raise (WaveError what), w).
Proof.
  intros Hc Hh. unfold wave_open.
  rewrite (bind_ok _ _ _ _ _ (fread_ok _ _ _ Hc)). by rewrite Hh.
Qed.

(** What the tests say of the contents of a file. *)
Lemma fits_inv env self w wav c :
  files w !! wav = Some c → fits env self w wav = true →
  ∃ header, wave_header env c = inr header ∧
            needs_resampling self header = false.
Proof.
  intros Hc. unfold fits, is_wave, resample, header_of. rewrite Hc. cbn.
  destruct (wave_header env c) as [what|header]; [done|].
  intros H. exists header. split; [done|]. by destruct (needs_resampling _ _).
Qed.

Lemma resample_inv env self w wav c :
  files w !! wav = Some c → resample env self w wav = true →
  ∃ header, wave_header env c = inr header ∧
            needs_resampling self header = true.
Proof.
  intros Hc. unfold resample, header_of. rewrite Hc. cbn.
  destruct (wave_header env c) as [what|header]; [done|]. by exists header.
Qed.

Lemma is_wave_inv env self w wav c :
  files w !! wav = Some c → is_wave env w wav = true →
  ∃ header, wave_header env c = inr header ∧
            needs_resampling self header = resample env self w wav.
Proof.
  intros Hc. unfold is_wave, resample, header_of. rewrite Hc. cbn.
  destruct (wave_header env c) as [what|header]; [done|]. by exists header.
Qed.

Lemma header_of_inv env w wav c what :
  files w !! wav = Some c → header_of env w wav = inl what →
  wave_header env c = inl what.
Proof. intros Hc. unfold header_of. by rewrite Hc. Qed.

(** A file that does not fit is no WAVE file or is to be resampled. *)
Lemma unfit_cases env self w wav :
  fits env self w wav = false →
  resample env self w wav = true ∨ ∃ what, header_of env w wav = inl what.
Proof.
  unfold fits, is_wave, resample.
  destruct (header_of env w wav) as [what|header]; [by right; eexists|].
  cbn. destruct (needs_resampling self header); [by left|done].
Qed.

(** A loop ends in the exception of the first turn that raises. *)
Lemma for_each_stop {A} (body : A → M unit) (pre : list A) x post e w2 :
  ∀ w w1,
  for_each pre body w = (Ok (), w1) → body x w1 = (Raise e, w2) →
  for_each (pre ++ x :: post) body w = (Raise e, w2).
Proof.
  induction pre as [|a pre IH]; intros w w1; cbn [app for_each].
  - intros [= <-] Hx. by apply bind_raise.
  - intros Hrun Hx. unfold mbind, M_bind in *.
    destruct (body a w) as [[[]|e'] wa]; [|done]. by apply (IH wa w1).
Qed.

Section Loops.
Context (env : Env) (self : aligner) (check : string) (w0 : World).
Context (Hne : copy_scp self ≠ check).

Local Abbreviation copy := (copy_scp self).

Local Abbreviation mfc0 := (mfc_nosox self).
Local Abbreviation mfc1 := (mfc_sox self).
Local Abbreviation new1 := (new_wav self).

(** The bodies of the two loops. *)
Local Abbreviation body0 :=
  (λ wav : string,
     let head := (Py.splitext wav).1 in
     let mfc := Py.join (aud_dir self) (head +:+ ".mfc") in
     header ← wave_open env wav;
     (if needs_resampling self header then
        error ("File " +:+ wave_repr env wav +:+
               " requires resampling but Sox not found")
      else mret ()) ;;
     fwrite (copy_scp self) (wav +:+ " " +:+ mfc +:+ nl) ;;
     fwrite check (mfc +:+ nl)).

Local Abbreviation body1 :=
  (λ wav : string,
     let head := (Py.splitext (Py.basename wav)).1 in
     let mfc := Py.join (aud_dir self) (head +:+ ".mfc") in
     header ← wave_open env wav;
     wav' ← (if needs_resampling self header then
               let new_wav := Py.join (aud_dir self) (head +:+ ".wav") in
               call env ["sox"; wav; "-r"; Py.str (Z.to_nat (sr self));
                         new_wav; "remix"; "-"] ;;
               mret new_wav
             else mret wav);
     fwrite (copy_scp self) (wav' +:+ " " +:+ mfc +:+ nl) ;;
     fwrite check (mfc +:+ nl)).

Lemma body0_ok wav w c header cc kc :
  files w !! wav = Some c → wave_header env c = inr header →
  needs_resampling self header = false →
  files w !! copy = Some cc → files w !! check = Some kc →
  body0 wav w =
    (Ok (), mkWorld (dirs w)
              (<[check := kc +:+ (mfc0 wav +:+ nl)]>
                 (<[copy := cc +:+ (wav +:+ " " +:+ mfc0 wav +:+ nl)]> (files w)))
              (calls w)).
Proof.
  intros Hc Hh Hok Hcc Hkc. cbv beta zeta.
  rewrite (bind_ok _ _ _ _ _ (wave_open_ok env wav w c header Hc Hh)).
  rewrite Hok.
  rewrite (bind_ok _ _ w () w) by done.
  rewrite (bind_ok _ _ _ _ _ (fwrite_eq _ _ _)). rewrite fwrite_eq. cbn.
  by rewrite lookup_insert_ne, Hcc, Hkc by done.
Qed.

Lemma body0_bad wav w c header :
  files w !! wav = Some c → wave_header env c = inr header →
  needs_resampling self header = true →
  body0 wav w =
    (Raise (SystemExit ("Error: File " +:+ wave_repr env wav +:+
                        " requires resampling but Sox not found")), w).
Proof.
  intros Hc Hh Hbad. cbv beta zeta.
  rewrite (bind_ok _ _ _ _ _ (wave_open_ok env wav w c header Hc Hh)).
  rewrite Hbad. by apply bind_raise.
Qed.

Lemma body0_not_wave wav w c what :
  files w !! wav = Some c → wave_header env c = inl what →
  body0 wav w = (Raise (WaveError what), w).
Proof.
  intros Hc Hh. cbv beta zeta.
  by rewrite (bind_raise _ _ _ _ _ (wave_open_bad env wav w c what Hc Hh)).
Qed.

(** The loop without SoX over audio files that all pass. *)
Lemma nosox_loop_ok (l : list string) : ∀ w cc kc,
  (∀ wav, wav ∈ l → is_Some (files w0 !! wav) ∧ wav ≠ copy ∧ wav ≠ check) →
  (∀ wav, wav ∈ l → files w !! wav = files w0 !! wav) →
  files w !! copy = Some cc → files w !! check = Some kc →
  Forall (λ wav, fits env self w0 wav = true) l →
  ∃ w', for_each l body0 w = (Ok (), w') ∧
        frame [copy; check] w w' ∧
        files w' !! copy =
          Some (cc +:+ Py.cat ((λ wav, wav +:+ " " +:+ mfc0 wav +:+ nl) <$> l)) ∧
        files w' !! check =
          Some (kc +:+ Py.cat ((λ wav, mfc0 wav +:+ nl) <$> l)).
Proof.
  induction l as [|wav l IH]; intros w cc kc Hl Hsame Hcc Hkc Hall.
  { exists w. cbn [for_each fmap list_fmap]. rewrite cat_nil, !sapp_nil_r.
    split_and!; [done|apply frame_refl|done..]. }
  apply Forall_cons in Hall as [Hwav Hall].
  destruct (Hl wav ltac:(left)) as ([c Hc] & Hn1 & Hn2).
  assert (files w !! wav = Some c) as Hc' by (rewrite Hsame; [done|left]).
  destruct (fits_inv env self w0 wav c Hc Hwav) as (header & Hh & Hok).
  cbn [for_each].
  rewrite (bind_ok _ _ _ _ _ (body0_ok wav w c header cc kc Hc' Hh Hok Hcc Hkc)).
  set (w1 := mkWorld _ _ _).
  destruct (IH w1 (cc +:+ (wav +:+ " " +:+ mfc0 wav +:+ nl))
              (kc +:+ (mfc0 wav +:+ nl))) as (w' & Hrun & Hfr & Hcopy & Hcheck).
  - intros x Hx. apply Hl. by right.
  - intros x Hx. destruct (Hl x ltac:(by right)) as (_ & Hx1 & Hx2).
    cbn. rewrite !lookup_insert_ne by done. apply Hsame. by right.
  - cbn. rewrite lookup_insert_ne by done. apply lookup_insert_eq.
  - cbn. apply lookup_insert_eq.
  - done.
  - exists w'. split_and!; [done| | |].
    + eapply frame_trans; [|exact Hfr]. unfold w1.
      eapply frame_trans; [apply (frame_insert _ w copy); by left|].
      apply (frame_insert _ (mkWorld _ _ _) check). right. by left.
    + rewrite Hcopy. cbn [fmap list_fmap]. by rewrite cat_cons, !sapp_assoc.
    + rewrite Hcheck. cbn [fmap list_fmap]. by rewrite cat_cons, !sapp_assoc.
Qed.

(** The loop without SoX, up to the first audio file that does not
    pass: [e] is what this file ends the loop in. *)
Lemma nosox_loop_stop (pre : list string) wav post e : ∀ w cc kc,
  (∀ x, x ∈ pre ++ wav :: post →
        is_Some (files w0 !! x) ∧ x ≠ copy ∧ x ≠ check) →
  (∀ x, x ∈ pre ++ wav :: post → files w !! x = files w0 !! x) →
  files w !! copy = Some cc → files w !! check = Some kc →
  Forall (λ x, fits env self w0 x = true) pre →
  (∀ w1, files w1 !! wav = files w0 !! wav → body0 wav w1 = (Raise e, w1)) →
  ∃ w', for_each (pre ++ wav :: post) body0 w = (Raise e, w') ∧
        frame [copy; check] w w' ∧
        files w' !! copy =
          Some (cc +:+ Py.cat ((λ x, x +:+ " " +:+ mfc0 x +:+ nl) <$> pre)) ∧
        files w' !! check =
          Some (kc +:+ Py.cat ((λ x, mfc0 x +:+ nl) <$> pre)).
Proof.
  intros w cc kc Hl Hsame Hcc Hkc Hall Hbody.
  assert (∀ x, x ∈ pre → is_Some (files w0 !! x) ∧ x ≠ copy ∧ x ≠ check)
    as Hl1 by (intros x Hx; apply Hl, elem_of_app; by left).
  assert (∀ x, x ∈ pre → files w !! x = files w0 !! x)
    as Hsame1 by (intros x Hx; apply Hsame, elem_of_app; by left).
  destruct (nosox_loop_ok pre w cc kc Hl1 Hsame1 Hcc Hkc Hall)
    as (w1 & Hrun & Hfr & Hcopy & Hcheck).
  exists w1. split_and!; [|done..].
  apply (for_each_stop _ _ _ _ _ _ _ _ Hrun). apply Hbody.
  destruct (Hl wav) as (_ & H1 & H2); [apply elem_of_app; right; by left|].
  destruct Hfr as (_ & _ & Hf). rewrite Hf.
  - apply Hsame, elem_of_app. right. by left.
  - intros Hin. apply elem_of_cons in Hin as [->|Hin]; [done|].
    by apply list_elem_of_singleton in Hin as ->.
Qed.

Lemma body1_keep wav w c header cc kc :
  files w !! wav = Some c → wave_header env c = inr header →
  needs_resampling self header = false →
  files w !! copy = Some cc → files w !! check = Some kc →
  body1 wav w =
    (Ok (), mkWorld (dirs w)
              (<[check := kc +:+ (mfc1 wav +:+ nl)]>
                 (<[copy := cc +:+ (wav +:+ " " +:+ mfc1 wav +:+ nl)]> (files w)))
              (calls w)).
Proof.
  intros Hc Hh Hok Hcc Hkc. cbv beta zeta.
  rewrite (bind_ok _ _ _ _ _ (wave_open_ok env wav w c header Hc Hh)).
  rewrite Hok.
  rewrite (bind_ok _ _ w wav w) by done.
  rewrite (bind_ok _ _ _ _ _ (fwrite_eq _ _ _)). rewrite fwrite_eq. cbn.
  by rewrite lookup_insert_ne, Hcc, Hkc by done.
Qed.

Lemma body1_sox wav w c header cc kc :
  spares env [copy; check] →
  files w !! wav = Some c → wave_header env c = inr header →
  needs_resampling self header = true →
  files w !! copy = Some cc → files w !! check = Some kc →
  let argv := ["sox"; wav; "-r"; Py.str (Z.to_nat (sr self)); new1 wav;
               "remix"; "-"] in
  body1 wav w =
    (Ok (), mkWorld (dirs w)
              (<[check := kc +:+ (mfc1 wav +:+ nl)]>
                 (<[copy := cc +:+ (new1 wav +:+ " " +:+ mfc1 wav +:+ nl)]>
                    (tool_files env argv (files w))))
              (calls w ++ [(argv, files w)])).
Proof.
  intros Hsp Hc Hh Hbad Hcc Hkc argv. cbv beta zeta.
  rewrite (bind_ok _ _ _ _ _ (wave_open_ok env wav w c header Hc Hh)).
  rewrite Hbad.
  erewrite (bind_ok _ _ w (new1 wav)); last first.
  { erewrite (bind_ok _ _ _ _ _ (call_eq _ _ _)). done. }
  rewrite (bind_ok _ _ _ _ _ (fwrite_eq _ _ _)). rewrite fwrite_eq. cbn.
  rewrite lookup_insert_ne by done.
  rewrite (Hsp _ _ copy) by (by left).
  rewrite (Hsp _ _ check) by (right; by left). by rewrite Hcc, Hkc.
Qed.

Lemma body1_not_wave wav w c what :
  files w !! wav = Some c → wave_header env c = inl what →
  body1 wav w = (Raise (WaveError what), w).
Proof.
  intros Hc Hh. cbv beta zeta.
  by rewrite (bind_raise _ _ _ _ _ (wave_open_bad env wav w c what Hc Hh)).
Qed.

(** The loop with SoX over WAVE files. *)
Lemma sox_loop (Q l : list string) : ∀ w cc kc,
  spares env Q → copy ∈ Q → check ∈ Q →
  (∀ wav, wav ∈ l → wav ∈ Q ∧ is_Some (files w0 !! wav) ∧
                    wav ≠ copy ∧ wav ≠ check) →
  (∀ wav, wav ∈ l → files w !! wav = files w0 !! wav) →
  files w !! copy = Some cc → files w !! check = Some kc →
  Forall (λ wav, is_wave env w0 wav = true) l →
  ∃ w', for_each l body1 w = (Ok (), w') ∧
        dirs w' = dirs w ∧
        files w' !! copy =
          Some (cc +:+
                Py.cat ((λ wav, (if resample env self w0 wav
                                 then new1 wav else wav) +:+
                                " " +:+ mfc1 wav +:+ nl) <$> l)) ∧
        files w' !! check =
          Some (kc +:+ Py.cat ((λ wav, mfc1 wav +:+ nl) <$> l)) ∧
        argvs w' =
          argvs w ++
          ((λ wav, ["sox"; wav; "-r"; Py.str (Z.to_nat (sr self)); new1 wav;
                    "remix"; "-"]) <$>
           filter (λ wav, resample env self w0 wav = true) l) ∧
        (∀ p, p ∈ Q → p ≠ copy → p ≠ check → files w' !! p = files w !! p).
Proof.
  induction l as [|wav l IH]; intros w cc kc Hsp Hq1 Hq2 Hl Hsame Hcc Hkc Hall.
  { exists w. cbn [for_each fmap list_fmap]. rewrite cat_nil, !sapp_nil_r.
    rewrite filter_nil. cbn [fmap list_fmap]. rewrite app_nil_r.
    split_and!; done. }
  apply Forall_cons in Hall as [Hwave Hall].
  destruct (Hl wav ltac:(left)) as (Hq & [c Hc] & Hn1 & Hn2).
  assert (files w !! wav = Some c) as Hc' by (rewrite Hsame; [done|left]).
  assert (spares env [copy; check]) as Hsp2.
  { intros argv fs p Hp. apply Hsp.
    apply elem_of_cons in Hp as [->|Hp]; [done|].
    by apply list_elem_of_singleton in Hp as ->. }
  cbn [for_each]. rewrite filter_cons.
  destruct (is_wave_inv env self w0 wav c Hc Hwave) as (header & Hh & Hnr).
  destruct (resample env self w0 wav) eqn:Hres.
  - rewrite (bind_ok _ _ _ _ _
               (body1_sox wav w c header cc kc Hsp2 Hc' Hh Hnr Hcc Hkc)).
    set (argv := ["sox"; wav; _; _; _; _; _]).
    set (w1 := mkWorld _ _ _).
    destruct (IH w1 (cc +:+ (new1 wav +:+ " " +:+ mfc1 wav +:+ nl))
                (kc +:+ (mfc1 wav +:+ nl)) Hsp Hq1 Hq2)
      as (w' & Hrun & Hd & Hcopy & Hcheck & Hargv & Hrest).
    + intros x Hx. apply Hl. by right.
    + intros x Hx. destruct (Hl x ltac:(by right)) as (Hxq & _ & Hx1 & Hx2).
      cbn. rewrite !lookup_insert_ne by done. rewrite Hsp by done.
      apply Hsame. by right.
    + cbn. rewrite lookup_insert_ne by done. apply lookup_insert_eq.
    + cbn. apply lookup_insert_eq.
    + done.
    + exists w'. split_and!; [done|done| | | |].
      * rewrite Hcopy. cbn [fmap list_fmap]. rewrite Hres.
        by rewrite cat_cons, !sapp_assoc.
      * rewrite Hcheck. cbn [fmap list_fmap]. by rewrite cat_cons, !sapp_assoc.
      * rewrite Hargv. unfold argvs, w1. cbn [calls].
        rewrite fmap_app. cbn [fmap list_fmap fst].
        rewrite decide_True by done. cbn [fmap list_fmap].
        by rewrite <- app_assoc.
      * intros p Hp Hp1 Hp2. rewrite Hrest by done. cbn.
        rewrite !lookup_insert_ne by done. by apply Hsp.
  - rewrite (bind_ok _ _ _ _ _ (body1_keep wav w c header cc kc Hc' Hh Hnr Hcc Hkc)).
    set (w1 := mkWorld _ _ _).
    destruct (IH w1 (cc +:+ (wav +:+ " " +:+ mfc1 wav +:+ nl))
                (kc +:+ (mfc1 wav +:+ nl)) Hsp Hq1 Hq2)
      as (w' & Hrun & Hd & Hcopy & Hcheck & Hargv & Hrest).
    + intros x Hx. apply Hl. by right.
    + intros x Hx. destruct (Hl x ltac:(by right)) as (Hxq & _ & Hx1 & Hx2).
      cbn. rewrite !lookup_insert_ne by done. apply Hsame. by right.
    + cbn. rewrite lookup_insert_ne by done. apply lookup_insert_eq.
    + cbn. apply lookup_insert_eq.
    + done.
    + exists w'. split_and!; [done|done| | | |].
      * rewrite Hcopy. cbn [fmap list_fmap]. rewrite Hres.
        by rewrite cat_cons, !sapp_assoc.
      * rewrite Hcheck. cbn [fmap list_fmap]. by rewrite cat_cons, !sapp_assoc.
      * rewrite Hargv. by rewrite decide_False.
      * intros p Hp Hp1 Hp2. rewrite Hrest by done. cbn.
        by rewrite !lookup_insert_ne.
Qed.

(** The loop with SoX, up to the first file that is no WAVE file. *)
Lemma sox_loop_stop (Q pre : list string) wav post what : ∀ w cc kc,
  spares env Q → copy ∈ Q → check ∈ Q →
  (∀ x, x ∈ pre ++ wav :: post → x ∈ Q ∧ is_Some (files w0 !! x) ∧
                                 x ≠ copy ∧ x ≠ check) →
  (∀ x, x ∈ pre ++ wav :: post → files w !! x = files w0 !! x) →
  files w !! copy = Some cc → files w !! check = Some kc →
  Forall (λ x, is_wave env w0 x = true) pre →
  header_of env w0 wav = inl what →
  ∃ w', for_each (pre ++ wav :: post) body1 w = (Raise (WaveError what), w') ∧
        dirs w' = dirs w ∧
        files w' !! copy =
          Some (cc +:+
                Py.cat ((λ x, (if resample env self w0 x
                               then new1 x else x) +:+
                              " " +:+ mfc1 x +:+ nl) <$> pre)) ∧
        files w' !! check =
          Some (kc +:+ Py.cat ((λ x, mfc1 x +:+ nl) <$> pre)) ∧
        argvs w' =
          argvs w ++
          ((λ x, ["sox"; x; "-r"; Py.str (Z.to_nat (sr self)); new1 x;
                  "remix"; "-"]) <$>
           filter (λ x, resample env self w0 x = true) pre) ∧
        (∀ p, p ∈ Q → p ≠ copy → p ≠ check → files w' !! p = files w !! p).
Proof.
  intros w cc kc Hsp Hq1 Hq2 Hl Hsame Hcc Hkc Hall Hwhat.
  assert (∀ x, x ∈ pre → x ∈ Q ∧ is_Some (files w0 !! x) ∧
                         x ≠ copy ∧ x ≠ check)
    as Hl1 by (intros x Hx; apply Hl, elem_of_app; by left).
  assert (∀ x, x ∈ pre → files w !! x = files w0 !! x)
    as Hsame1 by (intros x Hx; apply Hsame, elem_of_app; by left).
  destruct (sox_loop Q pre w cc kc Hsp Hq1 Hq2 Hl1 Hsame1 Hcc Hkc Hall)
    as (w1 & Hrun & Hd & Hcopy & Hcheck & Hargv & Hrest).
  exists w1. split_and!; [|done..].
  destruct (Hl wav) as (Hq & [c Hc] & H1 & H2);
    [apply elem_of_app; right; by left|].
  apply (for_each_stop _ _ _ _ _ _ _ _ Hrun).
  apply (body1_not_wave wav w1 c what).
  - rewrite Hrest by done. rewrite <- Hc. apply Hsame, elem_of_app.
    right. by left.
  - by apply (header_of_inv env w0 wav).
Qed.

End Loops.

(** A list splits at its first element that fails a test. *)
Lemma first_failure {A} (P : A → bool) (l : list A) :
  Forall (λ x, P x = false) l ∨
  ∃ pre x post, l = pre ++ x :: post ∧
                Forall (λ y, P y = false) pre ∧ P x = true.
Proof.
  induction l as [|x l IH]; [by left|].
  destruct (P x) eqn:Ex.
  - right. by exists [], x, l.
  - destruct IH as [IH|(pre & y & post & -> & Hpre & Hy)].
    + left. by constructor.
    + right. exists (x :: pre), y, post. split_and!; [done| |done].
      by constructor.
Qed.

Section WithEnv.
Context (env : Env).

(** The check up to its loop: the two lists are open. *)
Local Abbreviation opened :=
  (λ (self : aligner) (training : bool) (w : World),
     mkWorld (dirs w)
       (<[check_scp self training := ""]>
          (<[copy_scp self := default "" (files w !! copy_scp self)]> (files w)))
       (calls w)).

Lemma opened_copy self training w :
  copy_scp self ≠ check_scp self training →
  files (opened self training w) !! copy_scp self
    = Some (default "" (files w !! copy_scp self)).
Proof.
  intros Hne. cbn. rewrite lookup_insert_ne by done. apply lookup_insert_eq.
Qed.

Lemma opened_check self training w :
  files (opened self training w) !! check_scp self training = Some "".
Proof. cbn. apply lookup_insert_eq. Qed.

Lemma opened_other self training w p :
  p ≠ copy_scp self → p ≠ check_scp self training →
  files (opened self training w) !! p = files w !! p.
Proof. intros H1 H2. cbn. by rewrite !lookup_insert_ne. Qed.

(** X4.  Without SoX the audio check runs no tool and touches nothing
    but the two lists it writes.  It returns exactly when every audio
    file is a WAVE file, mono at the sample rate of the models, and
    then the list of feature files has one line per audio file, in
    order, and the copy list one line more per audio file than it had.
    Otherwise the first audio file that does not fit ends the check,
    with the lines of the files before it written: in the exception of
    [wave.open] when it is no WAVE file, and in the resampling exit
    when it is one. *)
Theorem X4_check_aud_without_sox self wav_list training w :
  has_sox self = false →
  copy_scp self ≠ check_scp self training →
  (∀ wav, wav ∈ wav_list →
     is_Some (files w !! wav) ∧ wav ≠ copy_scp self ∧
     wav ≠ check_scp self training) →
  let m := _check_aud env self wav_list training in
  let old := default "" (files w !! copy_scp self) in
  let fit := λ wav, fits env self w wav = true in
  let written := λ l : list string,
    files (world_after m w) !! check_scp self training
      = Some (Py.cat ((λ wav, mfc_nosox self wav +:+ nl) <$> l)) ∧
    files (world_after m w) !! copy_scp self
      = Some (old +:+
              Py.cat ((λ wav, wav +:+ " " +:+ mfc_nosox self wav +:+ nl)
                        <$> l)) in
  (outcome m w = Ok () ↔ Forall fit wav_list) ∧
  (Forall fit wav_list → written wav_list) ∧
  (∀ pre wav post,
     wav_list = pre ++ wav :: post → Forall fit pre →
     resample env self w wav = true →
     outcome m w
       = Raise (SystemExit ("Error: File " +:+ wave_repr env wav +:+
                            " requires resampling but Sox not found")) ∧
     written pre) ∧
  (∀ pre wav post what,
     wav_list = pre ++ wav :: post → Forall fit pre →
     header_of env w wav = inl what →
     outcome m w = Raise (WaveError what) ∧ written pre) ∧
  calls (world_after m w) = calls w ∧
  dirs (world_after m w) = dirs w ∧
  (∀ p, p ≠ copy_scp self → p ≠ check_scp self training →
        files (world_after m w) !! p = files w !! p).
Proof.
  intros Hsox Hne Hl m old fit written.
  assert (m w = (for_each wav_list
                    (λ wav : string,
                       let head := (Py.splitext wav).1 in
                       let mfc := Py.join (aud_dir self) (head +:+ ".mfc") in
                       header ← wave_open env wav;
                       (if needs_resampling self header then
                          error ("File " +:+ wave_repr env wav +:+
                                 " requires resampling but Sox not found")
                        else mret ()) ;;
                       fwrite (copy_scp self) (wav +:+ " " +:+ mfc +:+ nl) ;;
                       fwrite (check_scp self training) (mfc +:+ nl)))
                   (opened self training w)) as Hstart.
  { unfold m, _check_aud. cbv zeta. rewrite Hsox.
    rewrite (bind_ok _ _ w () (mkWorld (dirs w)
               (<[copy_scp self := default "" (files w !! copy_scp self)]>
                  (files w)) (calls w))) by done.
    by rewrite (bind_ok _ _ _ () (opened self training w)). }
  assert (∀ x, x ∈ wav_list →
               files (opened self training w) !! x = files w !! x) as Hsame.
  { intros x Hx. destruct (Hl x Hx) as (_ & H1 & H2). by apply opened_other. }
  assert (Forall fit wav_list →
          ∃ w', m w = (Ok (), w') ∧
                frame [copy_scp self; check_scp self training]
                      (opened self training w) w' ∧
                files w' !! copy_scp self =
                  Some (old +:+
                        Py.cat ((λ wav, wav +:+ " " +:+ mfc_nosox self wav +:+ nl)
                                  <$> wav_list)) ∧
                files w' !! check_scp self training =
                  Some (Py.cat ((λ wav, mfc_nosox self wav +:+ nl) <$> wav_list)))
    as Hgood.
  { intros Hall.
    destruct (nosox_loop_ok env self (check_scp self training) w Hne wav_list
                (opened self training w) old "" Hl Hsame
                (opened_copy self training w Hne) (opened_check self training w)
                Hall) as (w' & Hrun & Hfr & Hc & Hk).
    exists w'. rewrite Hstart. split_and!; [done..|].
    by rewrite Hk, sapp_nil_l. }
  assert (∀ pre wav post e,
            wav_list = pre ++ wav :: post → Forall fit pre →
            (∀ w1, files w1 !! wav = files w !! wav →
               (let head := (Py.splitext wav).1 in
                let mfc := Py.join (aud_dir self) (head +:+ ".mfc") in
                header ← wave_open env wav;
                (if needs_resampling self header then
                   error ("File " +:+ wave_repr env wav +:+
                          " requires resampling but Sox not found")
                 else mret ()) ;;
                fwrite (copy_scp self) (wav +:+ " " +:+ mfc +:+ nl) ;;
                fwrite (check_scp self training) (mfc +:+ nl)) w1
               = (Raise e, w1)) →
            ∃ w', m w = (Raise e, w') ∧
                  frame [copy_scp self; check_scp self training]
                        (opened self training w) w' ∧
                  files w' !! copy_scp self =
                    Some (old +:+
                          Py.cat ((λ wav, wav +:+ " " +:+ mfc_nosox self wav +:+ nl)
                                    <$> pre)) ∧
                  files w' !! check_scp self training =
                    Some (Py.cat ((λ wav, mfc_nosox self wav +:+ nl) <$> pre)))
    as Hstop.
  { intros pre wav post e E Hpre Hbody. rewrite E in Hl, Hsame, Hstart.
    destruct (nosox_loop_stop env self (check_scp self training) w Hne pre wav
                post e (opened self training w) old "" Hl Hsame
                (opened_copy self training w Hne) (opened_check self training w)
                Hpre Hbody) as (w' & Hrun & Hfr & Hc & Hk).
    exists w'. rewrite Hstart. split_and!; [done..|].
    by rewrite Hk, sapp_nil_l. }
  assert (∀ pre wav post,
            wav_list = pre ++ wav :: post → Forall fit pre →
            resample env self w wav = true →
            ∃ w', m w = (Raise (SystemExit
                           ("Error: File " +:+ wave_repr env wav +:+
                            " requires resampling but Sox not found")), w') ∧
                  frame [copy_scp self; check_scp self training]
                        (opened self training w) w' ∧
                  files w' !! copy_scp self =
                    Some (old +:+
                          Py.cat ((λ wav, wav +:+ " " +:+ mfc_nosox self wav +:+ nl)
                                    <$> pre)) ∧
                  files w' !! check_scp self training =
                    Some (Py.cat ((λ wav, mfc_nosox self wav +:+ nl) <$> pre)))
    as Hbad.
  { intros pre wav post E Hpre Hwav. apply (Hstop pre wav post _ E Hpre).
    intros w1 Hw1.
    destruct (Hl wav) as ([c Hc] & _); [rewrite E; apply elem_of_app; right; by left|].
    destruct (resample_inv env self w wav c Hc Hwav) as (header & Hh & Hn).
    apply (body0_bad env self (check_scp self training) wav w1 c header);
      [by rewrite Hw1|done..]. }
  assert (∀ pre wav post what,
            wav_list = pre ++ wav :: post → Forall fit pre →
            header_of env w wav = inl what →
            ∃ w', m w = (Raise (WaveError what), w') ∧
                  frame [copy_scp self; check_scp self training]
                        (opened self training w) w' ∧
                  files w' !! copy_scp self =
                    Some (old +:+
                          Py.cat ((λ wav, wav +:+ " " +:+ mfc_nosox self wav +:+ nl)
                                    <$> pre)) ∧
                  files w' !! check_scp self training =
                    Some (Py.cat ((λ wav, mfc_nosox self wav +:+ nl) <$> pre)))
    as Hnot.
  { intros pre wav post what E Hpre Hwav. apply (Hstop pre wav post _ E Hpre).
    intros w1 Hw1.
    destruct (Hl wav) as ([c Hc] & _); [rewrite E; apply elem_of_app; right; by left|].
    apply (body0_not_wave env self (check_scp self training) wav w1 c what);
      [by rewrite Hw1|by apply (header_of_inv env w wav)]. }
  assert (Forall fit wav_list ∨
          ∃ pre wav post, wav_list = pre ++ wav :: post ∧ Forall fit pre ∧
            (resample env self w wav = true ∨
             ∃ what, header_of env w wav = inl what)) as Hcases.
  { destruct (first_failure (λ wav, negb (fits env self w wav)) wav_list)
      as [Hall|(pre & wav & post & E & Hpre & Hwav)].
    - left. eapply Forall_impl; [exact Hall|]. intros x Hx. cbv beta in Hx. unfold fit.
      by destruct (fits env self w x).
    - right. exists pre, wav, post. split_and!; [done| |].
      + eapply Forall_impl; [exact Hpre|]. intros x Hx. cbv beta in Hx. unfold fit.
        by destruct (fits env self w x).
      + apply (unfit_cases env self w wav). by destruct (fits env self w wav). }
  assert (∃ w', world_after m w = w' ∧
                frame [copy_scp self; check_scp self training]
                      (opened self training w) w') as (w' & Hw' & Hfr).
  { destruct Hcases as [Hall|(pre & wav & post & E & Hpre & [Hwav|[what Hwav]])].
    - destruct (Hgood Hall) as (w' & Hrun & Hfr & _).
      exists w'. unfold world_after. by rewrite Hrun.
    - destruct (Hbad pre wav post E Hpre Hwav) as (w' & Hrun & Hfr & _).
      exists w'. unfold world_after. by rewrite Hrun.
    - destruct (Hnot pre wav post what E Hpre Hwav) as (w' & Hrun & Hfr & _).
      exists w'. unfold world_after. by rewrite Hrun. }
  split_and!.
  - split.
    + intros Hok.
      destruct Hcases as [Hall|(pre & wav & post & E & Hpre & [Hwav|[what Hwav]])];
        [done|..].
      * destruct (Hbad pre wav post E Hpre Hwav) as (w1 & Hrun & _).
        unfold outcome in Hok. by rewrite Hrun in Hok.
      * destruct (Hnot pre wav post what E Hpre Hwav) as (w1 & Hrun & _).
        unfold outcome in Hok. by rewrite Hrun in Hok.
    + intros Hall. destruct (Hgood Hall) as (w1 & Hrun & _).
      unfold outcome. by rewrite Hrun.
  - intros Hall. destruct (Hgood Hall) as (w1 & Hrun & _ & Hc & Hk).
    unfold written, world_after. by rewrite Hrun.
  - intros pre wav post E Hpre Hwav.
    destruct (Hbad pre wav post E Hpre Hwav) as (w1 & Hrun & _ & Hc & Hk).
    unfold written, world_after, outcome. by rewrite Hrun.
  - intros pre wav post what E Hpre Hwav.
    destruct (Hnot pre wav post what E Hpre Hwav) as (w1 & Hrun & _ & Hc & Hk).
    unfold written, world_after, outcome. by rewrite Hrun.
  - rewrite Hw'. by destruct Hfr as (_ & -> & _).
  - rewrite Hw'. by destruct Hfr as (-> & _ & _).
  - intros p Hp1 Hp2. rewrite Hw'. destruct Hfr as (_ & _ & Hf).
    rewrite Hf; [by apply opened_other|].
    intros Hp. apply elem_of_cons in Hp as [->|Hp]; [done|].
    by apply list_elem_of_singleton in Hp as ->.
Qed.

(** X6.  With SoX, and tools that leave the audio files and the two
    lists alone, the audio check on a list of readable audio files
    returns exactly when all of them are WAVE files.  SoX is run once
    for each audio file that is not mono at the sample rate of the
    models, in the order of the list, to write a copy in the audio
    directory of the workspace; the copy list names that copy in place
    of the file, and the list of feature files has one line per audio
    file.  The first audio file that is no WAVE file ends the check in
    the exception of [wave.open], with all this done for the files
    before it. *)
Theorem X6_check_aud_with_sox self wav_list training w :
  has_sox self = true →
  copy_scp self ≠ check_scp self training →
  (∀ wav, wav ∈ wav_list →
     is_Some (files w !! wav) ∧ wav ≠ copy_scp self ∧
     wav ≠ check_scp self training) →
  spares env (copy_scp self :: check_scp self training :: wav_list) →
  let m := _check_aud env self wav_list training in
  let old := default "" (files w !! copy_scp self) in
  let wave := λ wav, is_wave env w wav = true in
  let listed := λ l : list string,
    files (world_after m w) !! check_scp self training
      = Some (Py.cat ((λ wav, mfc_sox self wav +:+ nl) <$> l)) ∧
    files (world_after m w) !! copy_scp self
      = Some (old +:+
              Py.cat ((λ wav, (if resample env self w wav
                               then new_wav self wav else wav) +:+
                              " " +:+ mfc_sox self wav +:+ nl) <$> l)) ∧
    argvs (world_after m w)
      = argvs w ++
        ((λ wav, ["sox"; wav; "-r"; Py.str (Z.to_nat (sr self));
                  new_wav self wav; "remix"; "-"]) <$>
         filter (λ wav, resample env self w wav = true) l) in
  (outcome m w = Ok () ↔ Forall wave wav_list) ∧
  (Forall wave wav_list → listed wav_list) ∧
  (∀ pre wav post what,
     wav_list = pre ++ wav :: post → Forall wave pre →
     header_of env w wav = inl what →
     outcome m w = Raise (WaveError what) ∧ listed pre) ∧
  dirs (world_after m w) = dirs w ∧
  (∀ wav, wav ∈ wav_list → files (world_after m w) !! wav = files w !! wav).
Proof.
  intros Hsox Hne Hl Hsp m old wave listed.
  assert (m w = (for_each wav_list
                    (λ wav : string,
                       let head := (Py.splitext (Py.basename wav)).1 in
                       let mfc := Py.join (aud_dir self) (head +:+ ".mfc") in
                       header ← wave_open env wav;
                       wav' ← (if needs_resampling self header then
                                 let new_wav :=
                                   Py.join (aud_dir self) (head +:+ ".wav") in
                                 call env ["sox"; wav; "-r";
                                           Py.str (Z.to_nat (sr self));
                                           new_wav; "remix"; "-"] ;;
                                 mret new_wav
                               else mret wav);
                       fwrite (copy_scp self) (wav' +:+ " " +:+ mfc +:+ nl) ;;
                       fwrite (check_scp self training) (mfc +:+ nl)))
                   (opened self training w)) as Hstart.
  { unfold m, _check_aud. cbv zeta. rewrite Hsox.
    rewrite (bind_ok _ _ w () (mkWorld (dirs w)
               (<[copy_scp self := default "" (files w !! copy_scp self)]>
                  (files w)) (calls w))) by done.
    by rewrite (bind_ok _ _ _ () (opened self training w)). }
  set (Q := copy_scp self :: check_scp self training :: wav_list) in *.
  assert (copy_scp self ∈ Q) as Hq1 by (by left).
  assert (check_scp self training ∈ Q) as Hq2 by (right; by left).
  assert (∀ wav, wav ∈ wav_list →
            wav ∈ Q ∧ is_Some (files w !! wav) ∧ wav ≠ copy_scp self ∧
            wav ≠ check_scp self training) as Hl'.
  { intros wav Hwav. destruct (Hl wav Hwav) as (? & ? & ?).
    split_and!; [|done..]. by do 2 right. }
  assert (∀ x, x ∈ wav_list →
               files (opened self training w) !! x = files w !! x) as Hsame.
  { intros x Hx. destruct (Hl x Hx) as (_ & H1 & H2). by apply opened_other. }
  assert (∀ w', (∀ p, p ∈ Q → p ≠ copy_scp self →
                      p ≠ check_scp self training →
                      files w' !! p = files (opened self training w) !! p) →
                ∀ wav, wav ∈ wav_list → files w' !! wav = files w !! wav)
    as Hkeep.
  { intros w' Hrest wav Hwav. destruct (Hl' wav Hwav) as (Hq & _ & H1 & H2).
    rewrite Hrest by done. by apply opened_other. }
  assert (Forall wave wav_list →
          ∃ w', m w = (Ok (), w') ∧ world_after m w = w' ∧ dirs w' = dirs w ∧
                listed wav_list ∧
                ∀ wav, wav ∈ wav_list → files w' !! wav = files w !! wav)
    as Hgood.
  { intros Hall.
    destruct (sox_loop env self (check_scp self training) w Hne Q wav_list
                (opened self training w) old "" Hsp Hq1 Hq2 Hl' Hsame
                (opened_copy self training w Hne) (opened_check self training w)
                Hall) as (w' & Hrun & Hd & Hc & Hk & Hargv & Hrest).
    exists w'. unfold listed, world_after. rewrite Hstart, Hrun. cbn [fst snd].
    split_and!; [done..| |done|done|by apply Hkeep].
    by rewrite Hk, sapp_nil_l. }
  assert (∀ pre wav post what,
            wav_list = pre ++ wav :: post → Forall wave pre →
            header_of env w wav = inl what →
            ∃ w', m w = (Raise (WaveError what), w') ∧
                  world_after m w = w' ∧ dirs w' = dirs w ∧ listed pre ∧
                  ∀ wav, wav ∈ wav_list → files w' !! wav = files w !! wav)
    as Hnot.
  { intros pre wav post what E Hpre Hwav.
    assert (∀ x, x ∈ pre ++ wav :: post →
              x ∈ Q ∧ is_Some (files w !! x) ∧ x ≠ copy_scp self ∧
              x ≠ check_scp self training) as Hl2 by (by rewrite <- E).
    assert (∀ x, x ∈ pre ++ wav :: post →
              files (opened self training w) !! x = files w !! x) as Hsame2
      by (by rewrite <- E).
    destruct (sox_loop_stop env self (check_scp self training) w Hne Q pre wav
                post what (opened self training w) old "" Hsp Hq1 Hq2 Hl2 Hsame2
                (opened_copy self training w Hne) (opened_check self training w)
                Hpre Hwav) as (w' & Hrun & Hd & Hc & Hk & Hargv & Hrest).
    exists w'. unfold listed, world_after. rewrite Hstart, E, Hrun. cbn [fst snd].
    split_and!; [done..| |done|done|].
    - by rewrite Hk, sapp_nil_l.
    - rewrite <- E. by apply Hkeep. }
  assert (Forall wave wav_list ∨
          ∃ pre wav post what, wav_list = pre ++ wav :: post ∧
            Forall wave pre ∧ header_of env w wav = inl what) as Hcases.
  { destruct (first_failure (λ wav, negb (is_wave env w wav)) wav_list)
      as [Hall|(pre & wav & post & E & Hpre & Hwav)].
    - left. eapply Forall_impl; [exact Hall|]. intros x Hx. cbv beta in Hx. unfold wave.
      by destruct (is_wave env w x).
    - right. unfold is_wave in Hwav.
      destruct (header_of env w wav) as [what|header] eqn:Hh; [|done].
      exists pre, wav, post, what. split_and!; [done| |done].
      eapply Forall_impl; [exact Hpre|]. intros x Hx. cbv beta in Hx. unfold wave.
      by destruct (is_wave env w x). }
  split_and!.
  - split.
    + intros Hok.
      destruct Hcases as [Hall|(pre & wav & post & what & E & Hpre & Hwav)];
        [done|].
      destruct (Hnot pre wav post what E Hpre Hwav) as (w1 & Hrun & _).
      unfold outcome in Hok. by rewrite Hrun in Hok.
    + intros Hall. destruct (Hgood Hall) as (w1 & Hrun & _).
      unfold outcome. by rewrite Hrun.
  - intros Hall. by destruct (Hgood Hall) as (w1 & _ & _ & _ & Hdone & _).
  - intros pre wav post what E Hpre Hwav.
    destruct (Hnot pre wav post what E Hpre Hwav) as (w1 & Hrun & _ & _ & Hdone & _).
    unfold outcome. by rewrite Hrun.
  - destruct Hcases as [Hall|(pre & wav & post & what & E & Hpre & Hwav)].
    + by destruct (Hgood Hall) as (w1 & _ & -> & Hd & _).
    + by destruct (Hnot pre wav post what E Hpre Hwav) as (w1 & _ & -> & Hd & _).
  - destruct Hcases as [Hall|(pre & wav & post & what & E & Hpre & Hwav)].
    + by destruct (Hgood Hall) as (w1 & _ & -> & _ & _ & Hk).
    + by destruct (Hnot pre wav post what E Hpre Hwav) as (w1 & _ & -> & _ & _ & Hk).
Qed.

End WithEnv.

(** The base name of an entry of a directory. *)
Lemma basename_entry (pre name : string) :
  (pre = "" ∨ ∃ q, pre = q +:+ "/") → Py.rfind "/" name = None →
  Py.basename (pre +:+ name) = name.
Proof.
  intros Hpre Hname. pose proof (PathFacts.rfind_slash_prefix pre name Hpre Hname) as H.
  unfold Py.basename. destruct (Py.rfind "/" (pre +:+ name)) as [i|].
  - rewrite H. apply PathFacts.sdrop_app.
  - destruct pre; [by rewrite sapp_nil_l|done].
Qed.

(** X5.  For the audio file [d/stem.wav] of a directory with an
    absolute path, as [_lists] returns it: without SoX the feature file
    the check asks for is [d/stem.mfc], beside the audio file (the join
    with the audio directory of the workspace is undone by the absolute
    path); with SoX the feature file and the resampled copy are
    [stem.mfc] and [stem.wav] in the audio directory of the
    workspace. *)
Theorem X5_feature_file_paths self d stem :
  valid_stem stem → Py.startswith d "/" = true →
  mfc_nosox self (audio_of d stem) = dir_slash d +:+ stem +:+ ".mfc" ∧
  mfc_sox self (audio_of d stem) = Py.join (aud_dir self) (stem +:+ ".mfc") ∧
  new_wav self (audio_of d stem) = Py.join (aud_dir self) (stem +:+ ".wav").
Proof.
  intros Hstem Habs.
  pose proof (PathFacts.dir_slash_shape d) as Hshape.
  assert (Py.splitext (audio_of d stem) = (dir_slash d +:+ stem, ".wav")) as E1.
  { apply PathFacts.splitext_stem; [done..|apply PathFacts.wav_is_ext]. }
  assert (Py.basename (audio_of d stem) = stem +:+ ".wav") as E2.
  { unfold audio_of. apply basename_entry; [done|].
    by apply (PathFacts.valid_stem_name stem ".wav" PathFacts.wav_is_ext). }
  assert (Py.splitext (stem +:+ ".wav") = (stem, ".wav")) as E3.
  { pose proof (PathFacts.splitext_stem "" stem ".wav" ltac:(by left) Hstem
                  PathFacts.wav_is_ext) as H.
    by rewrite !sapp_nil_l in H. }
  unfold mfc_nosox, mfc_sox, new_wav. rewrite E1, E2, E3. cbn [fst].
  split_and!; [|done..].
  unfold Py.join.
  assert (Py.startswith ((dir_slash d +:+ stem) +:+ ".mfc") "/" = true) as ->.
  { unfold Py.startswith in *. apply PathFacts.prefix_app in Habs as [r ->].
    apply PathFacts.prefix_app. unfold dir_slash, Py.join.
    destruct (Py.startswith "" "/" ) eqn:E; [done|].
    destruct (_ || _); rewrite ?sapp_assoc; eauto. }
  by rewrite sapp_assoc.
Qed.

Lemma X4_witness :
  outcome (_check_aud Samples3.picky_env Samples3.without_sox
             ["/c/a.wav"; "/c/b.wav"] false) Samples3.stray_corpus
    = Raise (WaveError "file does not start with RIFF id") ∧
  files (world_after (_check_aud Samples3.picky_env Samples3.without_sox
                        ["/c/a.wav"; "/c/b.wav"] false) Samples3.stray_corpus)
    !! "/tmp/tmpA/test.scp" = Some ("/c/a.mfc" +:+ nl).
Proof.
  pose proof (X4_check_aud_without_sox Samples3.picky_env Samples3.without_sox
                ["/c/a.wav"; "/c/b.wav"] false Samples3.stray_corpus
                eq_refl) as H.
  destruct H as (_ & _ & _ & H & _).
  - by vm_compute.
  - intros wav Hwav.
    repeat (apply elem_of_cons in Hwav as [->|Hwav];
            [split_and!; [by vm_compute; eexists|done..]|]).
    by apply elem_of_nil in Hwav.
  - destruct (H ["/c/a.wav"] "/c/b.wav" [] "file does not start with RIFF id")
      as (Ho & Hk & _); [done|by repeat constructor|by vm_compute|].
    split; [exact Ho|]. refine (eq_trans Hk _). by vm_compute.
Defined.

Lemma X5_witness :
  mfc_nosox Samples3.without_sox "/c/a.wav" = "/c/a.mfc" ∧
  mfc_sox Samples3.with_sox "/c/a.wav" = "/tmp/tmpA/DAT/a.mfc".
Proof.
  assert (valid_stem "a") as Hstem by (split_and!; [discriminate|reflexivity..]).
  split.
  - exact (proj1 (X5_feature_file_paths Samples3.without_sox "/c" "a" Hstem
                    eq_refl)).
  - exact (proj1 (proj2 (X5_feature_file_paths Samples3.with_sox "/c" "a" Hstem
                           eq_refl))).
Defined.

Lemma X6_witness :
  argvs (world_after (_check_aud Samples3.picky_env Samples3.with_sox
                        ["/c/a.wav"; "/c/b.wav"] false) Samples3.mixed_corpus)
    = [["sox"; "/c/b.wav"; "-r"; "25000"; "/tmp/tmpA/DAT/b.wav"; "remix"; "-"]] ∧
  files (world_after (_check_aud Samples3.picky_env Samples3.with_sox
                        ["/c/a.wav"; "/c/b.wav"] false) Samples3.mixed_corpus)
    !! "/tmp/tmpA/copy.scp"
    = Some ("/c/a.wav /tmp/tmpA/DAT/a.mfc" +:+ nl +:+
            "/tmp/tmpA/DAT/b.wav /tmp/tmpA/DAT/b.mfc" +:+ nl).
Proof.
  pose proof (X6_check_aud_with_sox Samples3.picky_env Samples3.with_sox
                ["/c/a.wav"; "/c/b.wav"] false Samples3.mixed_corpus
                eq_refl) as H.
  destruct H as (_ & H & _).
  - by vm_compute.
  - intros wav Hwav.
    repeat (apply elem_of_cons in Hwav as [->|Hwav];
            [split_and!; [by vm_compute; eexists|done..]|]).
    by apply elem_of_nil in Hwav.
  - by intros argv fs p _.
  - destruct H as (_ & Hc & Ha); [by repeat constructor|].
    split; [refine (eq_trans Ha _)|refine (eq_trans Hc _)]; by vm_compute.
Defined.

End AudFacts.

(** ** The flat start *)

Module FlatFacts.
Import Sys Obs TrainAligner StrFacts MFacts DictFacts GenFacts FlatObs Keeps.

(** The loop over the phones: each gets the prototype under its own
    name. *)
Lemma phones_loop (proto sink protoc : string) (l : list string) : ∀ w c,
  proto ≠ sink →
  files w !! proto = Some protoc → files w !! sink = Some c →
  ∃ w', for_each l (λ phone,
          source ← fread proto;
          fwrite sink ("~h " +:+ dq +:+ Py.rstrip phone +:+ dq +:+ nl) ;;
          fwrite sink (Py.cat (drop 2 (Py.readlines source)))) w = (Ok (), w') ∧
        frame [sink] w w' ∧
        files w' !! sink = Some (c +:+ Py.cat (flat_model protoc <$> l)).
Proof.
  induction l as [|phone l IH]; intros w c Hne Hp Hs.
  { exists w. cbn [for_each fmap list_fmap]. rewrite cat_nil, sapp_nil_r.
    split_and!; [done|apply frame_refl|done]. }
  cbn [for_each].
  set (w1 := mkWorld (dirs w)
               (<[sink := c +:+ flat_model protoc phone]> (files w)) (calls w)).
  assert ((source ← fread proto;
           fwrite sink ("~h " +:+ dq +:+ Py.rstrip phone +:+ dq +:+ nl) ;;
           fwrite sink (Py.cat (drop 2 (Py.readlines source)))) w = (Ok (), w1))
    as Hstep.
  { rewrite (bind_ok _ _ _ _ _ (fread_ok _ _ _ Hp)).
    rewrite (bind_ok _ _ _ _ _ (fwrite_eq _ _ _)). rewrite fwrite_eq.
    unfold w1, flat_model. cbn. rewrite lookup_insert_eq, Hs. cbn.
    by rewrite insert_insert_eq, !sapp_assoc. }
  rewrite (bind_ok _ _ _ _ _ Hstep).
  destruct (IH w1 (c +:+ flat_model protoc phone) Hne)
    as (w' & Hrun & Hfr & Hc).
  - unfold w1. cbn. by rewrite lookup_insert_ne.
  - unfold w1. cbn. apply lookup_insert_eq.
  - exists w'. split_and!; [done| |].
    + eapply frame_trans; [|exact Hfr]. apply frame_insert. by left.
    + rewrite Hc. cbn [fmap list_fmap]. by rewrite cat_cons, sapp_assoc.
Qed.

Lemma macros_is_not_hmmdefs a : Py.join a macro ≠ Py.join a hmmdf.
Proof. intros H. by apply join_inj in H. Qed.

Lemma macros_is_not_vFloors a : Py.join a macro ≠ Py.join a vFloors.
Proof. intros H. by apply join_inj in H. Qed.

Section WithEnv.
Context (env : Env).

(** X7.  The flat start runs HCompV once, on the prototype the script
    has just written.  When HCompV has left a prototype and variance
    floors in the current model directory, and the phone list and the
    prototype are still there, the flat start returns: the macro file
    gets the first three lines of HCompV's prototype and the variance
    floors, and the first model file holds one model per line of the
    phone list, in order, each the prototype from its third line on
    under the name of the phone.  When HCompV has left no prototype in
    the current model directory the flat start ends in an [IOError]. *)
Theorem X7_flat_start_models self w :
  let macros := Py.join (cur_dir self) macro in
  let hmmdefs := Py.join (cur_dir self) hmmdf in
  let trained := Py.join (cur_dir self) (Py.basename (proto self)) in
  let floors_file := Py.join (cur_dir self) vFloors in
  let found := after_HCompV env self w in
  let m := flat_start env self in
  trained ≠ macros →
  phons self ≠ macros → phons self ≠ hmmdefs →
  proto self ≠ macros → proto self ≠ hmmdefs →
  calls (world_after m w)
    = calls w ++ [(["HCompV"; "-f"; "0.01"; "-C"; cfg self;
                    "-S"; train_scp self; "-M"; cur_dir self; proto self],
                   <[proto self := proto_text]> (files w))] ∧
  (∀ source floors phones protoc,
     found !! trained = Some source →
     found !! floors_file = Some floors →
     found !! phons self = Some phones →
     found !! proto self = Some protoc →
     outcome m w = Ok () ∧
     files (world_after m w) !! macros
       = Some (default "" (found !! macros) +:+
               Py.cat (take 3 (Py.readlines source)) +:+ floors) ∧
     files (world_after m w) !! hmmdefs
       = Some (Py.cat ((λ phone,
                          "~h " +:+ dq +:+ Py.rstrip phone +:+ dq +:+ nl +:+
                          Py.cat (drop 2 (Py.readlines protoc)))
                         <$> Py.readlines phones)) ∧
     dirs (world_after m w) = dirs w ∧
     (∀ p, p ≠ macros → p ≠ hmmdefs →
           files (world_after m w) !! p = found !! p)) ∧
  (found !! trained = None → outcome m w = Raise (IOError trained)) ∧
  proto_text
    = "~o <VECSIZE> 39 <MFCC_D_A_0>" +:+ nl +:+
      "~h " +:+ dq +:+ "proto" +:+ dq +:+ nl +:+
      Py.cat (drop 2 (Py.readlines proto_text)).
Proof.
  intros macros hmmdefs trained floors_file found m Htm Hpm Hph Hrm Hrh.
  set (argv := ["HCompV"; "-f"; "0.01"; "-C"; cfg self;
                "-S"; train_scp self; "-M"; cur_dir self; proto self]).
  set (w2 := mkWorld (dirs w) found
               (calls w ++ [(argv, <[proto self := proto_text]> (files w))])).
  set (w3 := mkWorld (dirs w) (<[macros := default "" (found !! macros)]> found)
               (calls w2)).
  set (rest := (source ← fread trained;
                for_each (take 3 (Py.readlines source))
                         (λ line, fwrite macros line) ;;
                floors ← fread floors_file;
                fwrite macros floors ;;
                open_w hmmdefs ;;
                phones ← fread (phons self);
                for_each (Py.readlines phones) (λ phone,
                  source ← fread (proto self);
                  fwrite hmmdefs
                    ("~h " +:+ dq +:+ Py.rstrip phone +:+ dq +:+ nl) ;;
                  fwrite hmmdefs
                    (Py.cat (drop 2 (Py.readlines source)))) : M unit)).
  assert (m w = rest w3) as Hstart.
  { unfold m, flat_start.
    rewrite (bind_ok _ _ _ _ _ (write_file_eq _ _ _)).
    rewrite (bind_ok _ _ _ _ _ (call_eq _ _ _)).
    by rewrite (bind_ok _ _ _ () w3). }
  assert (files w3 !! trained = found !! trained) as Ht3.
  { unfold w3. cbn. by rewrite lookup_insert_ne. }
  split_and!.
  - unfold world_after. rewrite Hstart.
    assert (keeps same_log rest) as Hk by (unfold rest; keeps_go).
    by rewrite (Hk w3).
  - intros source floors phones protoc Hsrc Hfl Hphs Hpr.
    unfold outcome, world_after. rewrite Hstart. unfold rest.
    rewrite Hsrc in Ht3.
    rewrite (bind_ok _ _ _ _ _ (fread_ok _ _ _ Ht3)).
    destruct (for_each_fwrite (λ line : string, line) macros
                (take 3 (Py.readlines source)) w3) as (w4 & Hr4 & F4 & Hc4).
    rewrite (bind_ok _ _ _ _ _ Hr4).
    assert (files w4 !! floors_file = Some floors) as Hfl4.
    { destruct F4 as (_ & _ & F4). rewrite F4.
      - unfold w3. cbn. rewrite lookup_insert_ne; [done|].
        apply macros_is_not_vFloors.
      - intros Hin. apply list_elem_of_singleton in Hin.
        by apply (macros_is_not_vFloors (cur_dir self)). }
    rewrite (bind_ok _ _ _ _ _ (fread_ok _ _ _ Hfl4)).
    rewrite (bind_ok _ _ _ _ _ (fwrite_eq _ _ _)).
    set (w5 := mkWorld _ _ _).
    set (w6 := mkWorld (dirs w5) (<[hmmdefs := ""]> (files w5)) (calls w5)).
    rewrite (bind_ok _ _ w5 () w6) by done.
    assert (∀ p, p ≠ macros → p ≠ hmmdefs → files w6 !! p = found !! p) as Hrest.
    { intros p Hp1 Hp2. unfold w6, w5. cbn.
      rewrite !lookup_insert_ne by done.
      destruct F4 as (_ & _ & F4). rewrite F4.
      - unfold w3. cbn. by rewrite lookup_insert_ne.
      - intros Hin. by apply list_elem_of_singleton in Hin. }
    assert (files w6 !! macros
            = Some (default "" (found !! macros) +:+
                    Py.cat (take 3 (Py.readlines source)) +:+ floors)) as Hm6.
    { unfold w6, w5. cbn.
      rewrite lookup_insert_ne
        by (intros E; by apply (macros_is_not_hmmdefs (cur_dir self))).
      rewrite lookup_insert_eq.
      rewrite (Hc4 (default "" (found !! macros))).
      - cbn. rewrite list_fmap_id. by rewrite sapp_assoc.
      - unfold w3. cbn. apply lookup_insert_eq. }
    assert (files w6 !! phons self = Some phones) as Hph6 by (by rewrite Hrest).
    rewrite (bind_ok _ _ _ _ _ (fread_ok _ _ _ Hph6)).
    destruct (phones_loop (proto self) hmmdefs protoc (Py.readlines phones)
                w6 "" Hrh) as (w7 & Hr7 & F7 & Hc7).
    { by rewrite Hrest. }
    { unfold w6. cbn. apply lookup_insert_eq. }
    rewrite Hr7. cbn [fst snd]. destruct F7 as (D7 & _ & F7).
    split_and!.
    + done.
    + rewrite F7; [done|]. intros Hin. apply list_elem_of_singleton in Hin.
      by apply (macros_is_not_hmmdefs (cur_dir self)).
    + rewrite Hc7. by rewrite sapp_nil_l.
    + rewrite D7. unfold w6, w5. cbn. by destruct F4 as (-> & _).
    + intros p Hp1 Hp2. rewrite F7; [by apply Hrest|].
      intros Hin. by apply list_elem_of_singleton in Hin.
  - intros Hnone. unfold outcome. rewrite Hstart. unfold rest.
    rewrite Hnone in Ht3. apply (f_equal fst (y := (Raise (IOError trained), w3))).
    apply bind_raise. unfold fread. by rewrite Ht3.
  - by vm_compute.
Qed.

End WithEnv.

Lemma X7_witness :
  let m := flat_start Samples4.flat_env (initial Demo.trainer) in
  outcome m Samples4.flat_world = Ok () ∧
  files (world_after m Samples4.flat_world) !! "/tmp/tmpA/HMM/000/hmmdefs"
    = Some (Py.cat (flat_model proto_text <$>
                      ["ah" +:+ nl; "ow" +:+ nl; "sil" +:+ nl])) ∧
  files (world_after m Samples4.flat_world) !! "/tmp/tmpA/HMM/000/macros"
    = Some ("~o <VECSIZE> 39 <MFCC_D_A_0>" +:+ nl +:+
            "~h " +:+ dq +:+ "proto" +:+ dq +:+ nl +:+
            "<BEGINHMM>" +:+ nl +:+ Samples4.floors_text).
Proof.
  intros m.
  destruct (X7_flat_start_models Samples4.flat_env (initial Demo.trainer)
              Samples4.flat_world) as (_ & H & _); [by vm_compute..|].
  destruct (H proto_text Samples4.floors_text
              ("ah" +:+ nl +:+ "ow" +:+ nl +:+ "sil" +:+ nl) proto_text)
    as (Ho & Hm & Hh & _); [by vm_compute..|].
  split_and!; [exact Ho|refine (eq_trans Hh _)|refine (eq_trans Hm _)];
    by vm_compute.
Defined.

End FlatFacts.

(** ** The label files *)

Module LabelFacts.
Import Sys Obs Aligner StrFacts MFacts DictFacts PathFacts LayoutFacts LabelObs.

Lemma in_vocabulary_cons d word ws :
  in_vocabulary d (word :: ws) =
  (if d !! word then [word] else []) ++ in_vocabulary d ws.
Proof.
  unfold in_vocabulary. rewrite filter_cons.
  destruct (d !! word) as [pron|] eqn:E.
  - by rewrite decide_True by by eexists.
  - rewrite decide_False; [done|]. by intros [? ?].
Qed.

Lemma in_vocabulary_split d word ws :
  in_vocabulary d (word :: ws) = in_vocabulary d [word] ++ in_vocabulary d ws.
Proof. unfold in_vocabulary. by rewrite <- filter_app. Qed.

Section OneTranscript.
Context (self : aligner) (lab : string).

Local Abbreviation d := (the_dict self).
Local Abbreviation phon := (phon_lab_path self lab).
Local Abbreviation wordp := (word_lab_path self lab).
Local Abbreviation mlf := (word_mlf self).

Context (Hmp : mlf ≠ phon) (Hmw : mlf ≠ wordp) (Hwp : wordp ≠ phon).

Lemma word_step_files acc word w cm cw :
  files w !! mlf = Some cm → files w !! wordp = Some cw →
  ∃ w', word_step self lab acc word w = (Ok (step_word d lab acc word), w') ∧
        files w' !! mlf =
          Some (cm +:+ Py.cat ((λ x, x +:+ nl) <$> in_vocabulary d [word])) ∧
        files w' !! wordp =
          Some (cw +:+ Py.cat ((λ x, x +:+ " ") <$> in_vocabulary d [word])).
Proof.
  intros Hcm Hcw. unfold word_step, step_word.
  rewrite in_vocabulary_cons. unfold in_vocabulary. rewrite filter_nil, app_nil_r.
  destruct (d !! word) as [pron|] eqn:Hd.
  - destruct (for_each_fwrite (λ ph, ph +:+ nl) phon pron w)
      as (w1 & Hr1 & (_ & _ & F1) & _).
    eexists. split_and!.
    + rewrite (bind_ok _ _ _ _ _ Hr1).
      rewrite (bind_ok _ _ _ _ _ (fwrite_eq _ _ _)).
      rewrite (bind_ok _ _ _ _ _ (fwrite_eq _ _ _)). done.
    + cbn. rewrite lookup_insert_eq, lookup_insert_ne by done.
      rewrite F1; [|intros Hin; by apply list_elem_of_singleton in Hin].
      rewrite Hcm. cbn. by rewrite sapp_nil_r.
    + cbn. rewrite lookup_insert_ne by done. rewrite lookup_insert_eq.
      rewrite F1; [|intros Hin; by apply list_elem_of_singleton in Hin].
      rewrite Hcw. cbn. by rewrite sapp_nil_r.
  - exists w. cbn [fmap list_fmap]. rewrite cat_nil, !sapp_nil_r. done.
Qed.

Lemma words_loop_files (ws : list string) : ∀ acc w cm cw,
  files w !! mlf = Some cm → files w !! wordp = Some cw →
  ∃ w', foldM (word_step self lab) acc ws w
          = (Ok (foldl (step_word d lab) acc ws), w') ∧
        files w' !! mlf =
          Some (cm +:+ Py.cat ((λ x, x +:+ nl) <$> in_vocabulary d ws)) ∧
        files w' !! wordp =
          Some (cw +:+ Py.cat ((λ x, x +:+ " ") <$> in_vocabulary d ws)).
Proof.
  induction ws as [|word ws IH]; intros acc w cm cw Hcm Hcw.
  - exists w. cbn. by rewrite !sapp_nil_r.
  - destruct (word_step_files acc word w cm cw Hcm Hcw) as (w1 & Hr & Hm1 & Hw1).
    destruct (IH (step_word d lab acc word) w1 _ _ Hm1 Hw1)
      as (w2 & Hr2 & Hm2 & Hw2).
    exists w2. cbn [foldM foldl]. rewrite (bind_ok _ _ _ _ _ Hr).
    split_and!; [done|..].
    + rewrite Hm2, (in_vocabulary_split d word ws).
      by rewrite fmap_app, cat_app, sapp_assoc.
    + rewrite Hw2, (in_vocabulary_split d word ws).
      by rewrite fmap_app, cat_app, sapp_assoc.
Qed.

(** One transcript: its three files, when they are three files. *)
Lemma lab_step_files acc w content cm :
  files w !! lab = Some content →
  lab ∉ [mlf; phon; wordp] →
  files w !! mlf = Some cm →
  ∃ w', lab_step self acc lab w = (Ok (step_lab d w acc lab), w') ∧
        frame [mlf; phon; wordp] w w' ∧
        files w' !! phon = Some (phon_label d (words_of w lab)) ∧
        files w' !! wordp = Some (word_label d (words_of w lab)) ∧
        files w' !! mlf = Some (cm +:+ mlf_entry self w lab).
Proof.
  intros Hlab Hapart Hcm.
  destruct (lab_step_run self lab acc w content Hlab Hapart)
    as (w' & Hrun & Hfr & Hphon).
  exists w'. split_and!; [done|done|by apply Hphon|..].
  all: revert Hrun; unfold lab_step.
  all: set (w1 := mkWorld (dirs w) (<[phon := ""]> (files w)) (calls w)).
  all: set (w2 := mkWorld (dirs w) (<[wordp := ""]> (files w1)) (calls w)).
  all: set (w3 := mkWorld (dirs w)
               (<[mlf := default "" (files w2 !! mlf) +:+
                         (dq +:+ wordp +:+ dq +:+ nl)]> (files w2)) (calls w)).
  all: set (w4 := mkWorld (dirs w)
               (<[phon := default "" (files w3 !! phon) +:+ (sil +:+ nl)]>
                  (files w3)) (calls w)).
  all: assert (files w4 !! lab = Some content) as H4
         by (cbn; rewrite !lookup_insert_ne; [done|set_solver..]).
  all: assert (files w4 !! mlf = Some (cm +:+ (dq +:+ wordp +:+ dq +:+ nl)))
         as Hm4
         by (cbn; rewrite lookup_insert_ne, lookup_insert_eq by done;
             by rewrite !lookup_insert_ne, Hcm by done).
  all: assert (files w4 !! wordp = Some "") as Hw4
         by (cbn; rewrite !lookup_insert_ne, lookup_insert_eq by done; done).
  all: destruct (words_loop_files (transcript_words content) acc w4 _ _ Hm4 Hw4)
         as (w5 & Hr5 & Hm5 & Hw5).
  all: rewrite (bind_ok _ _ w () w1) by done.
  all: rewrite (bind_ok _ _ w1 () w2) by done.
  all: rewrite (bind_ok _ _ w2 () w3) by done.
  all: rewrite (bind_ok _ _ w3 () w4) by done.
  all: rewrite (bind_ok _ _ _ _ _ (fread_ok _ _ _ H4)).
  all: rewrite (bind_ok _ _ _ _ _ Hr5).
  all: rewrite (bind_ok _ _ _ _ _ (fwrite_eq _ _ _)).
  all: rewrite (bind_ok _ _ _ _ _ (fwrite_eq _ _ _)).
  all: intros [= _ <-]; cbn.
  - rewrite !lookup_insert_ne by done. rewrite Hw5, sapp_nil_l.
    unfold word_label, words_of. by rewrite Hlab.
  - rewrite lookup_insert_eq, lookup_insert_ne by done. rewrite Hm5. cbn.
    unfold mlf_entry, words_of. rewrite Hlab. cbn. by rewrite !sapp_assoc.
Qed.

End OneTranscript.

(** Transcripts with different base names have different label
    files. *)
Lemma phon_lab_path_inj self a b :
  phon_lab_path self a = phon_lab_path self b → Py.basename a = Py.basename b.
Proof.
  unfold phon_lab_path. intros E.
  apply GenFacts.join_inj in E; [done|apply no_slash_start, basename_no_slash..].
Qed.

Lemma word_lab_path_inj self a b :
  word_lab_path self a = word_lab_path self b → Py.basename a = Py.basename b.
Proof.
  unfold word_lab_path. intros E.
  apply GenFacts.join_inj in E; [done|apply no_slash_start, basename_no_slash..].
Qed.

(** The loop over the transcripts, with base names that may repeat. *)
Lemma labs_loop_files self w0 (l : list string) : ∀ acc w cm,
  (∀ lab, lab ∈ l → lab ∉ label_targets self l) →
  (∀ lab, lab ∈ l → is_Some (files w0 !! lab)) →
  (∀ lab, lab ∈ l → files w !! lab = files w0 !! lab) →
  (∀ a b, a ∈ l → b ∈ l → word_lab_path self a ≠ phon_lab_path self b) →
  (∀ a, a ∈ l → word_mlf self ≠ phon_lab_path self a ∧
                word_mlf self ≠ word_lab_path self a) →
  files w !! word_mlf self = Some cm →
  ∃ w', foldM (lab_step self) acc l w
          = (Ok (foldl (step_lab (the_dict self) w0) acc l), w') ∧
        frame (label_targets self l) w w' ∧
        files w' !! word_mlf self
          = Some (cm +:+ Py.cat (mlf_entry self w0 <$> l)) ∧
        ∀ pre lab post, l = pre ++ lab :: post →
          (∀ later, later ∈ post → Py.basename later ≠ Py.basename lab) →
          files w' !! phon_lab_path self lab
            = Some (phon_label (the_dict self) (words_of w0 lab)) ∧
          files w' !! word_lab_path self lab
            = Some (word_label (the_dict self) (words_of w0 lab)).
Proof.
  induction l as [|h l IH]; intros acc w cm Hapart Hread Hsame Hwp Hm Hcm.
  - exists w. cbn [foldM foldl fmap list_fmap]. rewrite cat_nil, sapp_nil_r.
    split_and!; [done|apply frame_refl|done|].
    intros pre lab post E. by destruct pre.
  - destruct (Hread h ltac:(left)) as [content Hc0].
    assert (files w !! h = Some content) as Hc
      by (by rewrite (Hsame h ltac:(left))).
    assert (h ∉ [word_mlf self; phon_lab_path self h; word_lab_path self h])
      as Hh.
    { intros Hin. apply (Hapart h ltac:(left)).
      by apply label_targets_head. }
    destruct (Hm h ltac:(left)) as [Hmp Hmw].
    pose proof (Hwp h h ltac:(left) ltac:(left)) as Hwph.
    destruct (lab_step_files self h Hmp Hmw Hwph acc w content cm Hc Hh Hcm)
      as (w1 & Hr1 & F1 & Cp & Cw & Cm).
    assert (words_of w h = words_of w0 h) as Hwords.
    { unfold words_of. by rewrite Hc, Hc0. }
    assert (step_lab (the_dict self) w acc h = step_lab (the_dict self) w0 acc h)
      as Hstep.
    { unfold step_lab. by rewrite Hwords. }
    assert (mlf_entry self w h = mlf_entry self w0 h) as Hentry.
    { unfold mlf_entry. by rewrite Hwords. }
    destruct (IH (step_lab (the_dict self) w0 acc h) w1
                (cm +:+ mlf_entry self w0 h)) as (w' & Hr & F & Cm' & C).
    { intros lab Hlab Hin. apply (Hapart lab ltac:(by right)).
      by apply label_targets_tail. }
    { intros lab Hlab. apply Hread. by right. }
    { intros lab Hlab. rewrite <- (Hsame lab ltac:(by right)).
      apply F1. intros Hin. apply (Hapart lab ltac:(by right)).
      by apply label_targets_head. }
    { intros a b Ha Hb. apply Hwp; by right. }
    { intros a Ha. apply Hm. by right. }
    { by rewrite Cm, Hentry. }
    exists w'. cbn [foldM foldl]. rewrite (bind_ok _ _ _ _ _ Hr1), Hstep.
    split_and!; [done| | |].
    + eapply frame_trans.
      * eapply frame_mono; [apply label_targets_head|exact F1].
      * eapply frame_mono; [apply label_targets_tail|exact F].
    + rewrite Cm'. cbn [fmap list_fmap]. by rewrite cat_cons, sapp_assoc.
    + intros pre lab post E Hlater.
      destruct pre as [|x pre]; cbn in E; injection E as -> ->.
      * destruct F as (_ & _ & F). rewrite !F.
        -- by rewrite Cp, Cw, Hwords.
        -- rewrite elem_of_label_targets.
           intros [E|(x & Hx & [E|E])].
           ++ by apply Hmw.
           ++ by apply (Hwp lab x ltac:(left) ltac:(by right)).
           ++ apply word_lab_path_inj in E. by apply (Hlater x).
        -- rewrite elem_of_label_targets.
           intros [E|(x & Hx & [E|E])].
           ++ by apply Hmp.
           ++ apply phon_lab_path_inj in E. by apply (Hlater x).
           ++ by apply (Hwp x lab ltac:(by right) ltac:(left)).
      * by apply (C pre lab post).
Qed.

(** The whole labelling block. *)
Lemma label_files_files self w lab_list :
  (∀ lab, lab ∈ lab_list → lab ∉ label_targets self lab_list) →
  (∀ lab, lab ∈ lab_list → is_Some (files w !! lab)) →
  (∀ a b, a ∈ lab_list → b ∈ lab_list →
          word_lab_path self a ≠ phon_lab_path self b) →
  (∀ a, a ∈ lab_list → word_mlf self ≠ phon_lab_path self a ∧
                       word_mlf self ≠ word_lab_path self a) →
  ∃ w', label_files self lab_list w = (Ok (resolved self w lab_list), w') ∧
        frame (label_targets self lab_list) w w' ∧
        files w' !! word_mlf self
          = Some ("#!MLF!#" +:+ nl +:+ Py.cat (mlf_entry self w <$> lab_list)) ∧
        ∀ pre lab post, lab_list = pre ++ lab :: post →
          (∀ later, later ∈ post → Py.basename later ≠ Py.basename lab) →
          files w' !! phon_lab_path self lab
            = Some (phon_label (the_dict self) (words_of w lab)) ∧
          files w' !! word_lab_path self lab
            = Some (word_label (the_dict self) (words_of w lab)).
Proof.
  intros Hapart Hread Hwp Hm. unfold label_files.
  set (w1 := mkWorld (dirs w) (<[word_mlf self := ""]> (files w)) (calls w)).
  set (w2 := mkWorld (dirs w)
               (<[word_mlf self := default "" (files w1 !! word_mlf self) +:+
                                   ("#!MLF!#" +:+ nl)]> (files w1)) (calls w)).
  assert (frame (label_targets self lab_list) w w2) as F2.
  { split_and!; try done. intros p Hp. cbn.
    rewrite !lookup_insert_ne; [done|intros <-; apply Hp; by left..]. }
  destruct (labs_loop_files self w lab_list (∅, ∅) w2 ("#!MLF!#" +:+ nl)
              Hapart Hread) as (w' & Hr & F & Cm & C); [|done..| |].
  { intros lab Hlab. apply F2. by apply Hapart. }
  { cbn. by rewrite !lookup_insert_eq. }
  exists w'. rewrite (bind_ok _ _ w () w1) by done.
  rewrite (bind_ok _ _ w1 () w2) by done.
  split_and!; [done|by eapply frame_trans| |done].
  by rewrite Cm, sapp_assoc.
Qed.

(** The last element of a list with the same image as a given one. *)
Lemma last_with {A} (g : A → string) (l : list A) : ∀ x, x ∈ l →
  ∃ pre y post, l = pre ++ y :: post ∧ x ∈ pre ++ [y] ∧ g y = g x ∧
                ∀ z, z ∈ post → g z ≠ g x.
Proof.
  induction l as [|a l IH]; intros x Hx; [by apply elem_of_nil in Hx|].
  destruct (decide (Exists (λ z, g z = g x) l)) as [Hex|Hno].
  - apply Exists_exists in Hex as (z & Hz & Ezx).
    destruct (IH z Hz) as (pre & y & post & -> & Hin & Ey & Hpost).
    exists (a :: pre), y, post. split_and!; [done| |congruence|].
    + apply elem_of_cons in Hx as [->|Hx]; [by left|].
      apply elem_of_app in Hx as [Hx|Hx].
      * right. apply elem_of_app. by left.
      * apply elem_of_cons in Hx as [->|Hx].
        -- right. apply elem_of_app. right. by left.
        -- exfalso. by apply (Hpost x Hx).
    + intros u Hu. rewrite <- Ezx. by apply Hpost.
  - assert (∀ z, z ∈ l → g z ≠ g x) as Hpost.
    { intros z Hz E. apply Hno, Exists_exists. by exists z. }
    apply elem_of_cons in Hx as [->|Hx]; [|by destruct (Hpost x Hx)].
    exists [], a, l. split_and!; [done|by left|done|done].
Qed.

Section WithLayout.
Context (self : aligner) (Hlay : laid_out self).

Lemma layout_word_phon a b : word_lab_path self a ≠ phon_lab_path self b.
Proof.
  rewrite (word_lab_path_shape self Hlay), (phon_lab_path_shape self Hlay).
  intros E. by apply String.app_inj in E.
Qed.

Lemma layout_mlf a :
  word_mlf self ≠ phon_lab_path self a ∧ word_mlf self ≠ word_lab_path self a.
Proof.
  rewrite (word_lab_path_shape self Hlay), (phon_lab_path_shape self Hlay),
    (word_mlf_shape self Hlay).
  split; intros E; by apply String.app_inj in E.
Qed.

(** X8.  The label files are named after the base name of the
    transcript alone.  For readable transcripts outside the workspace,
    when the list holds several transcripts with one base name (the
    test and the training directory may each have an [s01.lab]), the
    phone-level and the word-level label under that name are derived
    from the last of them, for every one of them. *)
Theorem X8_labels_of_the_last_namesake lab_list w :
  (∀ lab, lab ∈ lab_list → outside (tmp_dir self) lab) →
  (∀ lab, lab ∈ lab_list → is_Some (files w !! lab)) →
  returns (label_files self lab_list) w ∧
  ∀ pre lab post,
    lab_list = pre ++ lab :: post →
    (∀ later, later ∈ post → Py.basename later ≠ Py.basename lab) →
    ∀ x, x ∈ pre ++ [lab] → Py.basename x = Py.basename lab →
      phon_lab_path self x = Py.join (aud_dir self) (Py.basename lab) ∧
      word_lab_path self x = Py.join (lab_dir self) (Py.basename lab) ∧
      files (world_after (label_files self lab_list) w)
        !! phon_lab_path self x
        = Some ("sil" +:+ nl +:+
                Py.cat ((λ phon, phon +:+ nl) <$>
                        concat (omap (λ word, the_dict self !! word)
                                     (words_of w lab))) +:+
                "sil" +:+ nl) ∧
      files (world_after (label_files self lab_list) w)
        !! word_lab_path self x
        = Some (Py.cat ((λ word, word +:+ " ") <$>
                        filter (λ word, is_Some (the_dict self !! word))
                               (words_of w lab))).
Proof.
  intros Hout Hread.
  destruct (label_files_files self w lab_list
              (transcripts_apart_by_layout self Hlay lab_list Hout) Hread)
    as (w' & Hrun & _ & _ & C).
  { intros a b _ _. apply layout_word_phon. }
  { intros a _. apply layout_mlf. }
  unfold returns, outcome, world_after. rewrite Hrun. cbn [fst snd].
  split; [by eexists|].
  intros pre lab post E Hlater x Hx Hbase.
  destruct (C pre lab post E Hlater) as [Cp Cw].
  unfold phon_lab_path, word_lab_path in *. rewrite Hbase.
  split_and!; [done|done|exact Cp|exact Cw].
Qed.

(** X9.  For readable transcripts outside the workspace the labelling
    leaves a word archive that starts with the line [#!MLF!#] and has
    one entry per transcript, in the order of the list: the quoted path
    of its word-level label, its in-vocabulary words one per line, and
    a period.  Words the dictionary lacks are left out. *)
Theorem X9_word_archive lab_list w :
  (∀ lab, lab ∈ lab_list → outside (tmp_dir self) lab) →
  (∀ lab, lab ∈ lab_list → is_Some (files w !! lab)) →
  files (world_after (label_files self lab_list) w) !! word_mlf self
    = Some ("#!MLF!#" +:+ nl +:+
            Py.cat ((λ lab,
                       dq +:+ Py.join (lab_dir self) (Py.basename lab) +:+ dq
                       +:+ nl +:+
                       Py.cat ((λ word, word +:+ nl) <$>
                               filter (λ word, is_Some (the_dict self !! word))
                                      (words_of w lab)) +:+
                       "." +:+ nl) <$> lab_list)).
Proof.
  intros Hout Hread.
  destruct (label_files_files self w lab_list
              (transcripts_apart_by_layout self Hlay lab_list Hout) Hread)
    as (w' & Hrun & _ & Cm & _).
  { intros a b _ _. apply layout_word_phon. }
  { intros a _. apply layout_mlf. }
  unfold world_after. rewrite Hrun. exact Cm.
Qed.

(** C9.  When the labelling has gone through a list of readable
    transcripts outside the workspace, every transcript of the list has
    a phone-level label under its base name, and this label is
    silence-bounded: the line [sil], then the phones of the
    pronunciations of the in-vocabulary words of a transcript, in the
    order of that transcript, one per line, then the line [sil].  The
    transcript whose words these are is the last one of the list with
    this base name: the transcript itself when no later one shares its
    base name, and otherwise the later one, whose label has replaced
    its own. *)
Theorem C9_phone_label_is_of_the_last_namesake lab_list w :
  (∀ lab, lab ∈ lab_list → outside (tmp_dir self) lab) →
  (∀ lab, lab ∈ lab_list → is_Some (files w !! lab)) →
  let w' := world_after (label_files self lab_list) w in
  let label_of := λ lab,
    "sil" +:+ nl +:+
    Py.cat ((λ phon, phon +:+ nl) <$>
            concat (omap (λ word, the_dict self !! word) (words_of w lab))) +:+
    "sil" +:+ nl in
  returns (label_files self lab_list) w ∧
  (∀ x, x ∈ lab_list →
     ∃ pre lab post,
       lab_list = pre ++ lab :: post ∧ x ∈ pre ++ [lab] ∧
       Py.basename lab = Py.basename x ∧
       (∀ later, later ∈ post → Py.basename later ≠ Py.basename x) ∧
       files w' !! Py.join (aud_dir self) (Py.basename x)
         = Some (label_of lab)) ∧
  (∀ pre x post,
     lab_list = pre ++ x :: post →
     (∀ later, later ∈ post → Py.basename later ≠ Py.basename x) →
     files w' !! Py.join (aud_dir self) (Py.basename x) = Some (label_of x)).
Proof.
  intros Hout Hread w' label_of.
  destruct (label_files_files self w lab_list
              (transcripts_apart_by_layout self Hlay lab_list Hout) Hread)
    as (w1 & Hrun & _ & _ & C).
  { intros a b _ _. apply layout_word_phon. }
  { intros a _. apply layout_mlf. }
  assert (w' = w1) as -> by (unfold w', world_after; by rewrite Hrun).
  assert (∀ pre x post,
            lab_list = pre ++ x :: post →
            (∀ later, later ∈ post → Py.basename later ≠ Py.basename x) →
            files w1 !! Py.join (aud_dir self) (Py.basename x)
              = Some (label_of x)) as Hlast.
  { intros pre x post E Hlater. exact (proj1 (C pre x post E Hlater)). }
  split_and!.
  - unfold returns, outcome. rewrite Hrun. by eexists.
  - intros x Hx.
    destruct (last_with Py.basename lab_list x Hx)
      as (pre & lab & post & E & Hin & Hbase & Hlater).
    exists pre, lab, post. split_and!; [done..|].
    rewrite <- Hbase. apply (Hlast pre lab post E).
    intros later Hl. rewrite Hbase. by apply Hlater.
  - exact Hlast.
Qed.

End WithLayout.

Lemma demo_laid_out : laid_out Demo.reader.
Proof. by split_and!. Qed.

Lemma namesakes_outside lab :
  lab ∈ ["/ts/s01.lab"; "/tr/s01.lab"] → outside (tmp_dir Demo.reader) lab.
Proof.
  intros Hlab.
  repeat (apply elem_of_cons in Hlab as [->|Hlab]; [by vm_compute|]).
  by apply elem_of_nil in Hlab.
Qed.

Lemma namesakes_readable lab :
  lab ∈ ["/ts/s01.lab"; "/tr/s01.lab"] →
  is_Some (files Samples5.namesakes !! lab).
Proof.
  intros Hlab.
  repeat (apply elem_of_cons in Hlab as [->|Hlab]; [by vm_compute; eexists|]).
  by apply elem_of_nil in Hlab.
Qed.

Lemma X8_witness :
  files (world_after (label_files Demo.reader ["/ts/s01.lab"; "/tr/s01.lab"])
                     Samples5.namesakes) !! "/tmp/tmpA/DAT/s01.lab"
    = Some ("sil" +:+ nl +:+
            "hh" +:+ nl +:+ "ax" +:+ nl +:+ "l" +:+ nl +:+ "ow" +:+ nl +:+
            "sil" +:+ nl) ∧
  files (world_after (label_files Demo.reader ["/ts/s01.lab"; "/tr/s01.lab"])
                     Samples5.namesakes) !! "/tmp/tmpA/LAB/s01.lab"
    = Some "hello ".
Proof.
  destruct (X8_labels_of_the_last_namesake Demo.reader demo_laid_out
              ["/ts/s01.lab"; "/tr/s01.lab"] Samples5.namesakes
              namesakes_outside namesakes_readable) as [_ H].
  destruct (H ["/ts/s01.lab"] "/tr/s01.lab" [] eq_refl) with (x := "/ts/s01.lab")
    as (_ & _ & Hp & Hw).
  - intros later Hl. by apply elem_of_nil in Hl.
  - by left.
  - by vm_compute.
  - split; [refine (eq_trans Hp _)|refine (eq_trans Hw _)]; by vm_compute.
Defined.

Lemma X9_witness :
  files (world_after (label_files Demo.reader ["/ts/s01.lab"; "/tr/s01.lab"])
                     Samples5.namesakes) !! "/tmp/tmpA/words.mlf"
    = Some ("#!MLF!#" +:+ nl +:+
            dq +:+ "/tmp/tmpA/LAB/s01.lab" +:+ dq +:+ nl +:+
            "hello" +:+ nl +:+ "world" +:+ nl +:+ "." +:+ nl +:+
            dq +:+ "/tmp/tmpA/LAB/s01.lab" +:+ dq +:+ nl +:+
            "hello" +:+ nl +:+ "." +:+ nl).
Proof.
  refine (eq_trans (X9_word_archive Demo.reader demo_laid_out
                      ["/ts/s01.lab"; "/tr/s01.lab"] Samples5.namesakes
                      namesakes_outside namesakes_readable) _).
  by vm_compute.
Defined.

Lemma C9_witness :
  files (world_after (label_files Demo.reader ["/c/a.lab"; "/c/b.lab"])
                     Demo.corpus) !! "/tmp/tmpA/DAT/b.lab"
  = Some ("sil" +:+ nl +:+
          "hh" +:+ nl +:+ "ax" +:+ nl +:+ "l" +:+ nl +:+ "ow" +:+ nl +:+
          "w" +:+ nl +:+ "er" +:+ nl +:+ "l" +:+ nl +:+ "d" +:+ nl +:+
          "sil" +:+ nl).
Proof.
  destruct (C9_phone_label_is_of_the_last_namesake Demo.reader demo_laid_out
              ["/c/a.lab"; "/c/b.lab"] Demo.corpus) as (_ & _ & H).
  - intros lab Hlab.
    repeat (apply elem_of_cons in Hlab as [->|Hlab]; [by vm_compute|]).
    by apply elem_of_nil in Hlab.
  - exact DictFacts.demo_readable.
  - refine (eq_trans (H ["/c/a.lab"] "/c/b.lab" [] eq_refl _) _).
    + intros later Hl. by apply elem_of_nil in Hl.
    + by vm_compute.
Defined.

(** Two readable transcripts outside the workspace with one base name,
    as a test and a training directory may have them: when the
    labelling is through, the phone-level label of the first holds the
    phones of [hello], the in-vocabulary word of the second, and not
    the phones of its own words [hello world]. *)
Lemma C9_counterexample :
  words_of Samples5.namesakes "/ts/s01.lab" = ["hello"; "world"] ∧
  phon_label (the_dict Demo.reader) ["hello"; "world"]
    = "sil" +:+ nl +:+
      "hh" +:+ nl +:+ "ax" +:+ nl +:+ "l" +:+ nl +:+ "ow" +:+ nl +:+
      "w" +:+ nl +:+ "er" +:+ nl +:+ "l" +:+ nl +:+ "d" +:+ nl +:+
      "sil" +:+ nl ∧
  files (world_after (label_files Demo.reader ["/ts/s01.lab"; "/tr/s01.lab"])
                     Samples5.namesakes)
    !! Py.join (aud_dir Demo.reader) (Py.basename "/ts/s01.lab")
    = Some ("sil" +:+ nl +:+
            "hh" +:+ nl +:+ "ax" +:+ nl +:+ "l" +:+ nl +:+ "ow" +:+ nl +:+
            "sil" +:+ nl) ∧
  files (world_after (label_files Demo.reader ["/ts/s01.lab"; "/tr/s01.lab"])
                     Samples5.namesakes)
    !! Py.join (aud_dir Demo.reader) (Py.basename "/ts/s01.lab")
    ≠ Some (phon_label (the_dict Demo.reader)
              (words_of Samples5.namesakes "/ts/s01.lab")).
Proof.
  split_and!; [by vm_compute..|].
  intros H. vm_compute in H. discriminate H.
Qed.

End LabelFacts.

(** ** The dictionary check, when every word is known *)

Module TaskFacts.
Import Sys Obs Aligner StrFacts MFacts DictFacts.

Lemma open_a_eq p w :
  open_a p w =
  (Ok (), mkWorld (dirs w) (<[p := default "" (files w !! p)]> (files w))
                  (calls w)).
Proof. done. Qed.

(** What [found_words] collects. *)
Lemma found_words_step d lab (ws : list string) : ∀ acc word,
  word ∈ (foldl (step_word d lab) acc ws).1 ↔
  word ∈ acc.1 ∨ (word ∈ ws ∧ is_Some (d !! word)).
Proof.
  induction ws as [|x ws IH]; intros acc word; cbn [foldl].
  { split; [by left|]. intros [H|[H _]]; [done|by apply elem_of_nil in H]. }
  rewrite IH. unfold step_word. destruct (d !! x) as [pron|] eqn:Hx; cbn [fst].
  - rewrite elem_of_union, elem_of_singleton, elem_of_cons. split.
    + intros [[->|H]|[H1 H2]]; [right|by left|right]; split; eauto.
    + intros [H|[[->|H1] H2]]; [left; by right|left; by left|right; eauto].
  - rewrite elem_of_cons. split.
    + intros [H|[H1 H2]]; [by left|right; eauto].
    + intros [H|[[->|H1] H2]]; [by left| |right; eauto].
      rewrite Hx in H2. by destruct H2.
Qed.

Lemma found_words_labs d w (l : list string) : ∀ acc word,
  word ∈ (foldl (step_lab d w) acc l).1 ↔
  word ∈ acc.1 ∨
  ∃ lab, lab ∈ l ∧ word ∈ words_of w lab ∧ is_Some (d !! word).
Proof.
  induction l as [|h l IH]; intros acc word; cbn [foldl].
  { split; [by left|]. intros [H|(lab & H & _)]; [done|by apply elem_of_nil in H]. }
  rewrite IH. unfold step_lab. rewrite found_words_step. split.
  - intros [[H|[H1 H2]]|(lab & H1 & H2)]; [by left|right|right].
    + exists h. split; [by left|done].
    + exists lab. split; [by right|done].
  - intros [H|(lab & H1 & H2)]; [left; by left|].
    apply elem_of_cons in H1 as [->|H1]; [left; by right|right; eauto].
Qed.

Lemma found_words_resolved self w lab_list word :
  word ∈ (resolved self w lab_list).1 ↔
  ∃ lab, lab ∈ lab_list ∧ word ∈ words_of w lab ∧
         is_Some (the_dict self !! word).
Proof.
  unfold resolved. rewrite found_words_labs. cbn [fst]. split.
  - intros [H|H]; [by apply elem_of_empty in H|done].
  - by right.
Qed.

Section WithEnv.
Context (env : Env).

(** X10.  When no word of the transcripts is missing from the
    dictionary, the dictionary check returns after running HDMan and
    then HLEd, once each.  HDMan finds the list of the in-vocabulary
    words of the corpus, each once, one per line, and the script that
    appends [sp] and merges [sil sil sp]; HLEd finds the phone list and
    the task dictionary as HDMan left them with a [sil] entry added to
    each, and in place of HDMan's script its own, at the same path. *)
Theorem X10_check_dct_prepares_the_tools self lab_list ood_mode w :
  let ded := Py.join (tmp_dir self) temp in
  let m := _check_dct env self lab_list ood_mode in
  let found_words := (resolved self w lab_list).1 in
  let HDMan := ["HDMan"; "-m"; "-g"; ded; "-w"; words self; "-n"; phons self;
                taskdict self; dictionary self] in
  let HLEd := ["HLEd"; "-l"; lab_dir self; "-d"; taskdict self; "-i";
               phon_mlf self; ded; word_mlf self] in
  (∀ lab, lab ∈ lab_list → lab ∉ label_targets self lab_list) →
  (∀ lab, lab ∈ lab_list → is_Some (files w !! lab)) →
  ¬ some_word_missing self w lab_list →
  words self ≠ ded → phons self ≠ ded → taskdict self ≠ ded →
  phons self ≠ taskdict self →
  outcome m w = Ok () ∧
  (∀ word, word ∈ found_words ↔
           ∃ lab, lab ∈ lab_list ∧ word ∈ words_of w lab ∧
                  is_Some (the_dict self !! word)) ∧
  ∃ at_HDMan at_HLEd : gmap string string,
    calls (world_after m w) = calls w ++ [(HDMan, at_HDMan); (HLEd, at_HLEd)] ∧
    at_HDMan !! words self = Some (Py.str_join nl (elements found_words)) ∧
    at_HDMan !! ded = Some ("AS sp" +:+ nl +:+ "MP sil sil sp") ∧
    (∀ p, p ≠ words self → p ≠ ded →
          at_HDMan !! p = files (world_after (label_files self lab_list) w) !! p) ∧
    at_HLEd !! phons self
      = Some (default "" (tool_files env HDMan at_HDMan !! phons self) +:+
              "sil" +:+ nl) ∧
    at_HLEd !! taskdict self
      = Some (default "" (tool_files env HDMan at_HDMan !! taskdict self) +:+
              "sil sil" +:+ nl) ∧
    at_HLEd !! ded
      = Some ("EX" +:+ nl +:+ "IS sil sil" +:+ nl +:+ "DE sp" +:+ nl) ∧
    (∀ p, p ≠ phons self → p ≠ taskdict self → p ≠ ded →
          at_HLEd !! p = tool_files env HDMan at_HDMan !! p).
Proof.
  intros ded m found_words HDMan HLEd Hapart Hread Hnone Hwd Hpd Htd Hpt.
  destruct (label_files_run self w lab_list Hapart Hread)
    as (w1 & Hr & (Hd & Hc & _) & _).
  pose proof (proj2 (resolved_ood_empty self w lab_list) Hnone) as Hood.
  assert (world_after (label_files self lab_list) w = w1) as Hw1.
  { unfold world_after. by rewrite Hr. }
  rewrite Hw1.
  unfold outcome, world_after, m, _check_dct.
  rewrite (bind_ok _ _ _ _ _ Hr). subst found_words.
  destruct (resolved self w lab_list) as [found ood] eqn:Hres.
  cbn [snd] in Hood. subst ood. cbn [fst].
  rewrite bool_decide_eq_true_2 by done.
  rewrite (bind_ok _ _ w1 () w1) by done.
  rewrite (bind_ok _ _ _ _ _ (write_file_eq _ _ _)). set (w2 := mkWorld _ _ _).
  rewrite (bind_ok _ _ _ _ _ (write_file_eq _ _ _)). set (w3 := mkWorld _ _ _).
  rewrite (bind_ok _ _ _ _ _ (call_eq _ _ _)). set (w4 := mkWorld _ _ _).
  rewrite (bind_ok _ _ _ _ _ (open_a_eq _ _)). set (w5 := mkWorld _ _ _).
  rewrite (bind_ok _ _ _ _ _ (fwrite_eq _ _ _)). set (w6 := mkWorld _ _ _).
  rewrite (bind_ok _ _ _ _ _ (open_a_eq _ _)). set (w7 := mkWorld _ _ _).
  rewrite (bind_ok _ _ _ _ _ (fwrite_eq _ _ _)). set (w8 := mkWorld _ _ _).
  rewrite (bind_ok _ _ _ _ _ (write_file_eq _ _ _)). set (w9 := mkWorld _ _ _).
  rewrite (call_eq env _ w9). cbn [fst snd calls]. fold ded HDMan HLEd.
  split_and!; [done| |].
  - intros word. rewrite <- (found_words_resolved self w lab_list word).
    by rewrite Hres.
  - exists (files w3), (files w9). split_and!.
    + unfold w9, w8, w7, w6, w5, w4, w3, w2. cbn [calls].
      by rewrite Hc, <- app_assoc.
    + unfold w3, w2. cbn [files].
      rewrite lookup_insert_ne by done. apply lookup_insert_eq.
    + unfold w3. cbn [files]. apply lookup_insert_eq.
    + intros p Hp1 Hp2. unfold w3, w2. cbn [files].
      by rewrite !lookup_insert_ne.
    + unfold w9, w8, w7, w6. cbn [files].
      rewrite !lookup_insert_ne by done. rewrite lookup_insert_eq.
      unfold w5. cbn [files]. by rewrite lookup_insert_eq.
    + unfold w9, w8. cbn [files].
      rewrite lookup_insert_ne by done. rewrite lookup_insert_eq.
      unfold w7. cbn [files]. rewrite lookup_insert_eq. cbn [default].
      unfold w6, w5. cbn [files]. by rewrite !lookup_insert_ne.
    + unfold w9. cbn [files]. apply lookup_insert_eq.
    + intros p Hp1 Hp2 Hp3. unfold w9, w8, w7, w6, w5, w4. cbn [files].
      by rewrite !lookup_insert_ne.
Qed.

End WithEnv.

Lemma X10_witness :
  argvs (world_after (_check_dct (Demo.quiet_env []) Demo.reader ["/c/a.lab"]
                        false) Demo.corpus)
  = [["HDMan"; "-m"; "-g"; "/tmp/tmpA/temp"; "-w"; "/tmp/tmpA/words";
      "-n"; "/tmp/tmpA/phones"; "/tmp/tmpA/taskdict"; "dictionary.txt"];
     ["HLEd"; "-l"; "/tmp/tmpA/LAB"; "-d"; "/tmp/tmpA/taskdict"; "-i";
      "/tmp/tmpA/phones.mlf"; "/tmp/tmpA/temp"; "/tmp/tmpA/words.mlf"]].
Proof.
  destruct (X10_check_dct_prepares_the_tools (Demo.quiet_env []) Demo.reader
              ["/c/a.lab"] false Demo.corpus)
    as (_ & _ & a & b & Hcalls & _).
  - apply (LayoutFacts.transcripts_apart_by_layout Demo.reader
             LabelFacts.demo_laid_out).
    intros lab Hlab. apply list_elem_of_singleton in Hlab as ->. by vm_compute.
  - intros lab Hlab. apply list_elem_of_singleton in Hlab as ->.
    by vm_compute; eexists.
  - intros (lab & word & Hlab & Hword & Hnone).
    apply list_elem_of_singleton in Hlab as ->.
    assert (words_of Demo.corpus "/c/a.lab" = ["hello"; "world"]) as E
      by by vm_compute.
    rewrite E in Hword.
    repeat (apply elem_of_cons in Hword as [->|Hword];
            [by vm_compute in Hnone|]).
    by apply elem_of_nil in Hword.
  - by vm_compute.
  - by vm_compute.
  - by vm_compute.
  - by vm_compute.
  - unfold argvs. rewrite Hcalls. reflexivity.
Defined.

End TaskFacts.

(** ** The score pattern *)

Module TraceFacts.
Import Re StrFacts PathFacts TraceObs.

Lemma plus_sound c k (s : string) r :
  plus c k s = Some r →
  ∃ pre t, s = pre +:+ t ∧ pre ≠ "" ∧ all_of (cls_match c) pre = true ∧
           k t = Some r.
Proof.
  revert r. induction s as [|a s IH]; intros r; cbn [plus]; [done|].
  destruct (cls_match c a) eqn:Ea; [|done].
  destruct (plus c k s) as [r'|] eqn:Ep.
  - intros [= <-]. destruct (IH r' eq_refl) as (pre & t & -> & Hne & Hall & Hk).
    exists (String a pre), t. split_and!; [done|done| |done].
    cbn [all_of]. by rewrite Ea, Hall.
  - intros Hk. exists (String a ""), s. split_and!; [done|done| |done].
    cbn [all_of]. by rewrite Ea.
Qed.

Lemma plus_none c k (t : string) :
  (∀ u v, t = u +:+ v → u ≠ "" → all_of (cls_match c) u = true → k v = None) →
  plus c k t = None.
Proof.
  induction t as [|b t IH]; intros Hfail; cbn [plus]; [done|].
  destruct (cls_match c b) eqn:Eb; [|done].
  rewrite IH.
  - apply (Hfail (String b "") t); [done|done|]. cbn [all_of]. by rewrite Eb.
  - intros u v -> Hu Hall. apply (Hfail (String b u) v); [done|done|].
    cbn [all_of]. by rewrite Eb, Hall.
Qed.

(** Greedy repetition: the continuation gets the longest run after
    which it succeeds. *)
Lemma plus_last c k (pre t : string) r :
  pre ≠ "" → all_of (cls_match c) pre = true → k t = Some r →
  (∀ u v, t = u +:+ v → u ≠ "" → all_of (cls_match c) u = true → k v = None) →
  plus c k (pre +:+ t) = Some r.
Proof.
  intros Hne Hall Hk Hfail. induction pre as [|a pre IH]; [done|].
  cbn [all_of] in Hall. apply andb_true_iff in Hall as [Ha Hall].
  rewrite sapp_cons. cbn [plus]. rewrite Ha.
  destruct pre as [|a' pre].
  - rewrite sapp_nil_l. by rewrite (plus_none c k t Hfail).
  - by rewrite IH.
Qed.

Lemma match_lits (x : string) p st : ∀ s,
  match_items (lits x ++ p) st s =
  if String.prefix x s then match_items p st (Py.sdrop (String.length x) s)
  else None.
Proof.
  induction x as [|a x IH]; intros s; cbn [lits app].
  { by destruct s. }
  cbn [match_items]. destruct s as [|b s]; [done|].
  cbn [cls_match String.length Py.sdrop String.prefix].
  destruct (ascii_dec a b) as [->|Hne].
  - rewrite bool_decide_eq_true_2 by done. apply IH.
  - rewrite bool_decide_eq_false_2; [done|]. by intros ->.
Qed.

Lemma match_lits_app (x : string) p st t :
  match_items (lits x ++ p) st (x +:+ t) = match_items p st t.
Proof.
  rewrite match_lits.
  rewrite (proj2 (prefix_app x (x +:+ t))) by by eexists.
  by rewrite sdrop_app.
Qed.

Lemma match_lits_sound (x : string) p st s r :
  match_items (lits x ++ p) st s = Some r →
  ∃ t, s = x +:+ t ∧ match_items p st t = Some r.
Proof.
  rewrite match_lits. destruct (String.prefix x s) eqn:E; [|done].
  apply prefix_app in E as [t ->]. rewrite sdrop_app. eauto.
Qed.

Lemma stake_length (x y : string) : Py.stake (String.length x) (x +:+ y) = x.
Proof.
  rewrite <- (Nat.add_0_r (String.length x)), stake_app, stake_0.
  apply sapp_nil_r.
Qed.

(** The pattern after the leading [.+]. *)
Local Abbreviation tail_items :=
  (lits "==  [" ++ [Plus Digit] ++ lits " frames] " ++
   [GroupOpen; One (Lit "-"); Plus Digit; One (Lit "."); Plus Digit;
    GroupClose]).

Lemma all_of_dot pre :
  all_of (cls_match Dot) pre =
  all_of (λ c, negb (bool_decide (c = "010"%char))) pre.
Proof. done. Qed.

(** X11.  A trace line matches the score pattern only if it reads:
    something on one line, [==  [], a number, [ frames] ], and then a
    minus sign, a number, a dot and a number; and these last four are
    the text taken for the score.  So every score in the table is
    negative, with digits on both sides of the dot. *)
Theorem X11_score_text_shape line g :
  match_group1 HVite_score line = Some g →
  ∃ pre n a b rest,
    line = pre +:+ "==  [" +:+ n +:+ " frames] " +:+ g +:+ rest ∧
    g = "-" +:+ a +:+ "." +:+ b ∧
    on_one_line pre ∧ number n ∧ number a ∧ number b.
Proof.
  unfold match_group1, HVite_score. cbn [app].
  destruct (match_items _ _ line) as [r|] eqn:E; [|done].
  intros [= <-]. cbn [match_items] in E.
  apply plus_sound in E as (pre & t & -> & Hpre & Hdot & E).
  apply (match_lits_sound "==  [") in E as (t1 & -> & E).
  cbn [app match_items] in E.
  apply plus_sound in E as (n & t2 & -> & Hn & Hnd & E).
  apply (match_lits_sound " frames] ") in E as (t3 & -> & E).
  cbn [match_items] in E.
  destruct t3 as [|c t3]; [done|]. cbn [cls_match] in E.
  case_bool_decide as Hc; [subst c|done].
  apply plus_sound in E as (a & t4 & -> & Ha & Had & E).
  destruct t4 as [|c t4]; [done|]. cbn [cls_match] in E.
  case_bool_decide as Hc; [subst c|done].
  apply plus_sound in E as (b & rest & -> & Hb & Hbd & E).
  injection E as <-. cbn [g_text g_open].
  set (g := "-" +:+ a +:+ "." +:+ b).
  assert (String "-" (a +:+ String "." (b +:+ rest)) = g +:+ rest) as Eg.
  { unfold g. by rewrite !sapp_assoc. }
  assert (S (String.length (a +:+ String "." (b +:+ rest)))
          = (String.length g + String.length rest)%nat) as El.
  { rewrite <- slength_app, <- Eg. done. }
  rewrite El, Eg, Nat.add_sub, stake_length.
  exists pre, n, a, b, rest. by split_and!.
Qed.

Lemma X11_witness :
  ∃ pre n a b rest,
    Demo.trace_a = pre +:+ "==  [" +:+ n +:+ " frames] " +:+ "-61.3071" +:+ rest ∧
    "-61.3071" = "-" +:+ a +:+ "." +:+ b ∧
    on_one_line pre ∧ number n ∧ number a ∧ number b.
Proof. apply X11_score_text_shape. by vm_compute. Defined.

Lemma all_of_impl (P Q : ascii → bool) s :
  (∀ c, P c = true → Q c = true) → all_of P s = true → all_of Q s = true.
Proof.
  intros HPQ. induction s as [|c s IH]; cbn [all_of]; [done|].
  intros [Hc Hs]%andb_true_iff. by rewrite (HPQ c Hc), IH.
Qed.

Lemma digit_is_no_equals c :
  is_digit c = true → negb (bool_decide (c = "="%char)) = true.
Proof. intros H. case_bool_decide as E; [subst c; by vm_compute in H|done]. Qed.

Lemma has_eqeq_tail c s : has_eqeq (String c s) = false → has_eqeq s = false.
Proof.
  cbn [has_eqeq]. destruct s as [|c' s]; [done|].
  by intros [_ H]%orb_false_iff.
Qed.

Lemma has_eqeq_skip u s :
  all_of (λ c, negb (bool_decide (c = "="%char))) u = true →
  has_eqeq (u +:+ s) = has_eqeq s.
Proof.
  induction u as [|c u IH]; [by rewrite sapp_nil_l|].
  cbn [all_of]. intros [Hc Hu]%andb_true_iff. rewrite sapp_cons.
  cbn [has_eqeq]. destruct (u +:+ s) as [|c' r] eqn:E.
  - rewrite <- (IH Hu). done.
  - apply negb_true_iff in Hc. rewrite Hc. cbn [andb orb]. by apply IH.
Qed.

(** Where no two equals signs stand in a row, no place starts the
    literal part of the pattern. *)
Lemma no_eqeq_no_start (u v : string) :
  has_eqeq (u +:+ v) = false → String.prefix "==  [" v = false.
Proof.
  induction u as [|c u IH].
  - rewrite sapp_nil_l. destruct v as [|c1 [|c2 v]]; [done| |].
    + cbn [String.prefix]. by destruct (ascii_dec "=" c1).
    + cbn [has_eqeq String.prefix]. intros [H _]%orb_false_iff.
      destruct (ascii_dec "=" c1) as [<-|]; [|done].
      destruct (ascii_dec "=" c2) as [<-|]; [|done]. done.
  - rewrite sapp_cons. intros H. by apply IH, (has_eqeq_tail c).
Qed.

Lemma no_run_ahead c (t : string) (k : string → option mstate) :
  match t with "" => True | String x _ => cls_match c x = false end →
  ∀ u v, t = u +:+ v → u ≠ "" → all_of (cls_match c) u = true → k v = None.
Proof.
  intros Ht u v -> Hu Hall. destruct u as [|x u]; [done|].
  rewrite sapp_cons in Ht. cbn [all_of] in Hall.
  apply andb_true_iff in Hall as [Hx _]. congruence.
Qed.

(** X12.  A line as HVite prints it for an utterance -- some text on
    one line, [==  [], a number, [ frames] ], a minus sign, a number, a
    dot, a number, and a rest that does not go on with a digit and has
    no two equals signs in a row -- matches the score pattern, and the
    text taken for the score is the minus sign, the number, the dot and
    the number. *)
Theorem X12_trace_line_gives_its_score pre n a b rest :
  on_one_line pre → number n → number a → number b →
  no_digit_ahead rest → has_eqeq rest = false →
  match_group1 HVite_score
    (pre +:+ "==  [" +:+ n +:+ " frames] -" +:+ a +:+ "." +:+ b +:+ rest)
  = Some ("-" +:+ a +:+ "." +:+ b).
Proof.
  intros [Hpre Hdot] [Hn Hnd] [Ha Had] [Hb Hbd] Hrest Heq.
  set (g := "-" +:+ a +:+ "." +:+ b).
  set (st1 := {| g_open := g +:+ rest; g_text := "" |}).
  set (r := {| g_open := g +:+ rest; g_text := g |}).
  (* the last number, up to the end of the group *)
  assert (plus Digit (match_items [GroupClose] st1) (b +:+ rest) = Some r) as E4.
  { apply plus_last; [done|done| |].
    - cbn [match_items g_open]. unfold st1, r. cbn [g_open]. f_equal. f_equal.
      rewrite slength_app, Nat.add_sub. apply stake_length.
    - apply no_run_ahead. destruct rest; [done|]. exact Hrest. }
  (* the number before the dot *)
  assert (plus Digit (match_items [One (Lit "."); Plus Digit; GroupClose] st1)
            (a +:+ "." +:+ b +:+ rest) = Some r) as E3.
  { apply plus_last; [done|done| |].
    - cbn [match_items]. rewrite sapp_cons, sapp_nil_l. cbn [cls_match].
      rewrite bool_decide_eq_true_2 by done. exact E4.
    - apply no_run_ahead. by rewrite sapp_cons. }
  (* the group *)
  assert (match_items [GroupOpen; One (Lit "-"); Plus Digit; One (Lit ".");
                       Plus Digit; GroupClose] {| g_open := ""; g_text := "" |}
            (g +:+ rest) = Some r) as E2.
  { assert (g +:+ rest = String "-" (a +:+ "." +:+ b +:+ rest)) as Eg.
    { unfold g. by rewrite !sapp_assoc. }
    cbn [match_items g_text]. fold st1. rewrite Eg. cbn [cls_match].
    rewrite bool_decide_eq_true_2 by done. exact E3. }
  (* the frame count *)
  assert (match_items ([Plus Digit] ++ lits " frames] " ++
                       [GroupOpen; One (Lit "-"); Plus Digit; One (Lit ".");
                        Plus Digit; GroupClose]) {| g_open := ""; g_text := "" |}
            (n +:+ " frames] " +:+ g +:+ rest) = Some r) as E1.
  { cbn [app match_items]. apply plus_last; [done|done| |].
    - rewrite (match_lits_app " frames] "). exact E2.
    - apply no_run_ahead. by rewrite sapp_cons. }
  (* the whole pattern *)
  assert (pre +:+ "==  [" +:+ n +:+ " frames] -" +:+ a +:+ "." +:+ b +:+ rest
          = pre +:+ "==  [" +:+ n +:+ " frames] " +:+ g +:+ rest) as ->.
  { unfold g. by rewrite !sapp_assoc. }
  unfold match_group1, HVite_score. cbn [app match_items].
  rewrite (plus_last Dot _ pre _ r); [done|done|done| |].
  - rewrite (match_lits_app "==  ["). exact E1.
  - intros u v E Hu _. rewrite match_lits.
    assert (String.prefix "==  [" v = false) as ->; [|done].
    destruct u as [|c u]; [done|].
    assert (String "=" ("=  [" +:+ n +:+ " frames] " +:+ g +:+ rest)
            = String c (u +:+ v)) as E' by exact E.
    injection E' as <- E'.
    apply (no_eqeq_no_start u v). rewrite <- E'.
    assert (∀ x, has_eqeq ("=  [" +:+ x) = has_eqeq ("  [" +:+ x)) as ->
      by (intros x; reflexivity).
    rewrite (has_eqeq_skip "  [") by done.
    rewrite has_eqeq_skip by (by apply (all_of_impl is_digit), Hnd;
                              apply digit_is_no_equals).
    rewrite (has_eqeq_skip " frames] ") by done.
    unfold g. rewrite !sapp_assoc.
    rewrite (has_eqeq_skip "-") by done.
    rewrite has_eqeq_skip by (by apply (all_of_impl is_digit), Had;
                              apply digit_is_no_equals).
    rewrite (has_eqeq_skip ".") by done.
    rewrite has_eqeq_skip by (by apply (all_of_impl is_digit), Hbd;
                              apply digit_is_no_equals).
    exact Heq.
Qed.

Lemma X12_witness :
  match_group1 HVite_score Demo.trace_a = Some "-61.3071".
Proof.
  refine (eq_trans _ (X12_trace_line_gives_its_score "sil hh ax l ow sil  "
            "397" "61" "3071" (" [Ac=-24338.9 LM=0.0] (Act=118.9)" +:+ nl)
            _ _ _ _ _ _)); by vm_compute.
Defined.

End TraceFacts.

(** ** The small pause, at its edges *)

Module PauseEdgeFacts.
Import Sys Obs TrainAligner StrFacts MFacts GenFacts PauseFacts PauseObs.

Lemma skip_past_absent x (l : list string) : x ∉ l → skip_past x l = [].
Proof.
  induction l as [|y l IH]; [done|]. intros Hx. cbn [skip_past].
  rewrite decide_False by (intros ->; apply Hx; by left).
  apply IH. intros H. apply Hx. by right.
Qed.

Lemma take_before_absent x (l : list string) : x ∉ l → take_before x l = l.
Proof.
  induction l as [|y l IH]; [done|]. intros Hx. cbn [take_before].
  rewrite decide_False by (intros ->; apply Hx; by left).
  f_equal. apply IH. intros H. apply Hx. by right.
Qed.

Section WithEnv.
Context (env : Env).

(** What HHEd finds, whatever the model file holds. *)
Lemma small_pause_found self w content :
  let source := Py.join (cur_dir self) hmmdf in
  let hed := Py.join (tmp_dir self) temp in
  files w !! source = Some content →
  ∃ found : gmap string string,
    small_pause env self w
      = _nxt_dir self (mkWorld (dirs w) (tool_files env (HHEd_argv self hed) found)
                               (calls w ++ [(HHEd_argv self hed, found)])) ∧
    calls (world_after (small_pause env self) w)
      = calls w ++ [(HHEd_argv self hed, found)] ∧
    found !! source
      = Some (content +:+ Py.cat (saved_lines (Py.readlines content))) ∧
    (∀ p, p ≠ source → p ≠ hed → found !! p = files w !! p).
Proof.
  intros source hed Hc.
  set (fs1 := <[source := content +:+ Py.cat (saved_lines (Py.readlines content))]>
                (files w)).
  set (fs2 := <[hed := hed_text]> fs1).
  set (w3 := mkWorld (dirs w) (tool_files env (HHEd_argv self hed) fs2)
               (calls w ++ [(HHEd_argv self hed, fs2)])).
  assert (hed ≠ source) as Hne by apply hed_is_not_hmmdefs.
  assert (small_pause env self w = _nxt_dir self w3) as Hrun.
  { unfold small_pause. fold source hed.
    rewrite (bind_ok _ _ _ _ _ (fread_ok _ _ _ Hc)).
    rewrite (bind_ok _ _ _ _ _ (fwrite_eq _ _ _)), Hc.
    rewrite (bind_ok _ _ _ _ _ (write_file_eq _ _ _)).
    by rewrite (bind_ok _ _ _ _ _ (call_eq _ _ _)). }
  exists fs2. split_and!; [done| | |].
  - unfold world_after. rewrite Hrun.
    by rewrite (proj1 (nxt_dir_keeps_log self w3)).
  - unfold fs2, fs1. rewrite lookup_insert_ne by done. apply lookup_insert_eq.
  - intros p Hp1 Hp2. unfold fs2, fs1. by rewrite !lookup_insert_ne.
Qed.

(** X13.  [small_pause] does not check that it finds what it copies.
    On a model file without a silence model, or whose silence model
    has no line [<STATE> 3], it raises nothing and appends a
    small-pause model without a state body; and where no line
    [<STATE> 4] follows the third state of the silence model, it takes
    every line up to the end of the file for the state of the small
    pause.  HHEd is run on the result all the same. *)
Theorem X13_small_pause_copies_unchecked self w content :
  let source := Py.join (cur_dir self) hmmdf in
  let st3 := "<STATE> 3" +:+ nl in
  let st4 := "<STATE> 4" +:+ nl in
  let lines := Py.readlines content in
  files w !! source = Some content →
  ∃ found : gmap string string,
    calls (world_after (small_pause env self) w)
      = calls w ++ [(["HHEd"; "-H"; Py.join (cur_dir self) macro;
                      "-H"; source; "-M"; nxt_dir self;
                      Py.join (tmp_dir self) temp; phons self], found)] ∧
    (sil_header ∉ lines → found !! source = Some (content +:+ empty_pause)) ∧
    (∀ pre l1, lines = pre ++ sil_header :: l1 → sil_header ∉ pre → st3 ∉ l1 →
               found !! source = Some (content +:+ empty_pause)) ∧
    (∀ pre l1 rest,
       lines = pre ++ sil_header :: l1 ++ st3 :: rest →
       sil_header ∉ pre → st3 ∉ l1 → st4 ∉ rest →
       found !! source
         = Some (content +:+
                 "~h " +:+ dq +:+ "sp" +:+ dq +:+ nl +:+
                 "<BEGINHMM>" +:+ nl +:+ "<NUMSTATES> 3" +:+ nl +:+
                 "<STATE> 2" +:+ nl +:+
                 Py.cat rest +:+
                 "<TRANSP> 3" +:+ nl +:+
                 " 0.0 1.0 0.0" +:+ nl +:+ " 0.0 0.9 0.1" +:+ nl +:+
                 " 0.0 0.0 0.0" +:+ nl +:+ "<ENDHMM>")).
Proof.
  intros source st3 st4 lines Hc.
  destruct (small_pause_found self w content Hc) as (found & _ & Hcalls & Hf & _).
  exists found. split_and!; [exact Hcalls|..].
  - intros Hno. refine (eq_trans Hf _). fold lines. f_equal. f_equal.
    unfold saved_lines. rewrite (skip_past_absent _ lines Hno).
    cbn [skip_past take_before app]. by vm_compute.
  - intros pre l1 E Hpre Hl1. refine (eq_trans Hf _). fold lines. f_equal. f_equal.
    unfold saved_lines. rewrite E, (skip_past_app _ pre) by done.
    rewrite (skip_past_absent ("<STATE> 3" +:+ nl) l1 Hl1).
    cbn [skip_past take_before app]. by vm_compute.
  - intros pre l1 rest E Hpre Hl1 Hrest. refine (eq_trans Hf _). fold lines.
    f_equal. f_equal.
    unfold saved_lines. rewrite E, (skip_past_app _ pre) by done.
    rewrite (skip_past_app _ l1) by done.
    rewrite (take_before_absent ("<STATE> 4" +:+ nl) rest Hrest).
    rewrite !cat_app, !cat_cons, cat_nil, sapp_nil_r.
    unfold sp_header, sp_open, sp. by rewrite !sapp_assoc.
Qed.

(** X14.  With the bookkeeping of generations in order and tools that
    create nothing at the path of a generation directory, [small_pause]
    returns exactly when the current generation has a model file; when
    it has none the call ends in an [IOError] and has changed
    nothing. *)
Theorem X14_small_pause_needs_a_model_file self w :
  let source := Py.join (cur_dir self) hmmdf in
  gen_inv self w → tools_spare_generations env self →
  (returns (small_pause env self) w ↔ is_Some (files w !! source)) ∧
  (is_Some (files w !! source) →
   outcome (small_pause env self) w = Ok (advanced self) ∧
   dirs (world_after (small_pause env self) w)
     = {[gen_dir self (n self + 1)]} ∪ dirs w) ∧
  (files w !! source = None →
   small_pause env self w = (Raise (IOError source), w)).
Proof.
  intros source Hinv Hspare.
  assert (files w !! source = None →
          small_pause env self w = (Raise (IOError source), w)) as Hnone.
  { intros Hc. unfold small_pause. apply bind_raise. unfold fread.
    fold source. by rewrite Hc. }
  assert (is_Some (files w !! source) →
          outcome (small_pause env self) w = Ok (advanced self) ∧
          dirs (world_after (small_pause env self) w)
            = {[gen_dir self (n self + 1)]} ∪ dirs w) as Hsome.
  { intros [content Hc].
    destruct (small_pause_found self w content Hc) as (found & Hrun & _ & _ & Hrest).
    set (hed := Py.join (tmp_dir self) temp) in *.
    set (w3 := mkWorld _ _ _) in Hrun.
    assert (gen_inv self w3) as Hinv3.
    { apply (call_inv env self
               (mkWorld (dirs w) found (calls w)) (HHEd_argv self hed) Hspare).
      destruct Hinv as (Hn & Hold & Hnew). split_and!; [done|done|].
      intros k Hk.
      destruct (proj1 (path_exists_false _ _) (Hnew k Hk)) as [Hd Hf].
      apply path_exists_false. cbn. split; [done|].
      rewrite Hrest; [done| |].
      - intros E. symmetry in E. by apply hmmdefs_is_no_generation in E.
      - intros E. symmetry in E. by apply hed_is_no_generation in E. }
    unfold outcome, world_after. rewrite Hrun.
    by rewrite (nxt_dir_run self w3 Hinv3). }
  split_and!; [|done|done].
  split.
  - intros [a Ha]. destruct (files w !! source) eqn:E; [done|].
    unfold outcome in Ha. by rewrite Hnone in Ha.
  - intros Hs. destruct (Hsome Hs) as [Ho _]. by eexists.
Qed.

(** X15.  Training rounds add up: [train] with [a + b] rounds is
    [train] with [a] rounds followed by [train] with [b] rounds on the
    object and the world the first leaves; and a count that is not
    positive trains nothing. *)
Theorem X15_train_rounds_add_up self w (a b : Z) :
  0 ≤ a → 0 ≤ b →
  train env self (a + b) w
    = (self' ← train env self a; train env self' b) w ∧
  ∀ niter, niter ≤ 0 → train env self niter w = (Ok self, w).
Proof.
  intros Ha Hb. split.
  - unfold train. rewrite Z2Nat.inj_add by done.
    generalize (Z.to_nat b) as kb. intros kb.
    revert self w. induction (Z.to_nat a) as [|ka IH]; intros self w.
    + reflexivity.
    + cbn [Nat.add repeatM]. unfold mbind at 1 2 3. unfold M_bind at 1 2 3.
      destruct (train_round env self w) as [[self1|e] w1]; [|done].
      apply IH.
  - intros niter Hn. unfold train.
    by replace (Z.to_nat niter) with 0%nat by lia.
Qed.

End WithEnv.

Lemma X13_witness :
  ∃ found : gmap string string,
    calls (world_after (small_pause (Demo.quiet_env []) (initial Demo.trainer))
                       Samples8.mute_world)
    = [(["HHEd"; "-H"; "/tmp/tmpA/HMM/000/macros";
         "-H"; "/tmp/tmpA/HMM/000/hmmdefs"; "-M"; "/tmp/tmpA/HMM/001";
         "/tmp/tmpA/temp"; "/tmp/tmpA/phones"], found)] ∧
    found !! "/tmp/tmpA/HMM/000/hmmdefs"
    = Some (Py.cat Demo.ah_lines +:+ empty_pause).
Proof.
  destruct (X13_small_pause_copies_unchecked (Demo.quiet_env [])
              (initial Demo.trainer) Samples8.mute_world (Py.cat Demo.ah_lines)
              eq_refl) as (found & Hcalls & Hf & _).
  exists found. split; [exact Hcalls|].
  apply Hf. apply (bool_decide_unpack _). by vm_compute.
Defined.

Lemma X14_witness :
  let w := world_after (init_generations Demo.trainer) Demo.workspace in
  small_pause (Demo.quiet_env []) (initial Demo.trainer) w
  = (Raise (IOError "/tmp/tmpA/HMM/000/hmmdefs"), w).
Proof.
  cbv zeta. unfold world_after.
  destruct (init_generations_run Demo.trainer Demo.workspace
              demo_workspace_fresh) as [-> Hinv].
  exact (proj2 (proj2 (X14_small_pause_needs_a_model_file (Demo.quiet_env [])
                         _ _ Hinv (TrainFacts.quiet_env_spares [] _)))
           eq_refl).
Defined.

Lemma X15_witness :
  train (Demo.quiet_env []) (initial Demo.trainer) 5 Demo.workspace
  = (self' ← train (Demo.quiet_env []) (initial Demo.trainer) 2;
     train (Demo.quiet_env []) self' 3) Demo.workspace.
Proof.
  exact (proj1 (X15_train_rounds_add_up (Demo.quiet_env [])
                  (initial Demo.trainer) Demo.workspace 2 3
                  ltac:(lia) ltac:(lia))).
Defined.

End PauseEdgeFacts.

(** ** The names of the generations *)

Module GenNameFacts.
Import Sys Obs TrainAligner StrFacts GenFacts.

Lemma zeros_length k : String.length (Py.zeros k) = k.
Proof. induction k as [|k IH]; cbn; [done|by rewrite IH]. Qed.

Lemma str_short (k : nat) : (k < 1000)%nat → (String.length (Py.str k) ≤ 3)%nat.
Proof.
  intros Hk.
  assert (forallb (λ k, String.length (Py.str k) <=? 3)%nat (seq 0 1000) = true)
    as Hall by by vm_compute.
  rewrite forallb_forall in Hall. apply Nat.leb_le, Hall, in_seq. lia.
Qed.

(** X16.  The directory of generation [k] is named in the directory of
    the models by the decimal numeral of [k], padded with zeros to three
    digits and longer from generation 1000 on; the name reads back as
    [k], so different generations have different directories. *)
Theorem X16_generation_names self (k : nat) :
  ∃ name,
    gen_dir self k = Py.join (hmm_dir self) name ∧
    parse_nat name = Some k ∧
    (3 ≤ String.length name)%nat ∧
    ((k < 1000)%nat → String.length name = 3%nat) ∧
    (∀ j, gen_dir self j = gen_dir self k → j = k).
Proof.
  exists (Py.zfill 3 (Py.str k)). split_and!.
  - done.
  - apply parse_zfill.
  - unfold Py.zfill. rewrite slength_app, zeros_length. lia.
  - intros Hk. unfold Py.zfill. rewrite slength_app, zeros_length.
    pose proof (str_short k Hk). lia.
  - intros j. apply gen_dir_inj.
Qed.

End GenNameFacts.

(** ** The finalizer and the label files *)

Module DelLabelFacts.
Import Sys Obs Aligner StrFacts PathFacts LayoutFacts DelFacts.

Lemma under_prefix d rest : under d (dir_slash d +:+ rest) = true.
Proof.
  unfold under. apply orb_true_iff. right.
  apply prefix_app. by eexists.
Qed.

Lemma no_slash_outside d p :
  d ≠ "" → Py.rfind "/" p = None → outside d p.
Proof.
  intros Hd Hp. unfold outside.
  destruct (Py.startswith p (dir_slash d)) eqn:E; [|done].
  apply prefix_app in E as [r ->].
  destruct (dir_slash_shape d) as [Hs|[q Hs]].
  - exfalso. unfold dir_slash, Py.join in Hs.
    cbn [Py.startswith String.prefix] in Hs.
    rewrite bool_decide_eq_false_2 in Hs by done. cbn [orb] in Hs.
    destruct (Py.endswith d "/"); destruct d; done.
  - rewrite Hs, sapp_assoc, rfind_app in Hp.
    destruct (Py.rfind "/" ("/" +:+ r)) eqn:E; [done|].
    rewrite rfind_app in E. by destruct (Py.rfind "/" r).
Qed.

(** X17.  When [__del__] runs on an object whose label files are laid
    out as [__init__] lays them out, in a workspace with an absolute
    path as [mkdtemp] gives it, it removes the workspace with
    every phone-level and word-level label and the word archive;
    whatever lies outside the workspace -- the transcripts and the
    audio, and the reports [unpaired.txt] and [outofdict.txt], which
    the script writes to the working directory -- stays as it is; and
    the record of the tools run is kept. *)
Theorem X17_del_removes_the_labels self w lab_list :
  laid_out self → Py.startswith (tmp_dir self) "/" = true →
  let w' := world_after (__del__ self) w in
  path_exists w' (tmp_dir self) = false ∧
  (∀ p, p ∈ label_targets self lab_list → path_exists w' p = false) ∧
  (∀ p, p ≠ tmp_dir self → outside (tmp_dir self) p →
        files w' !! p = files w !! p ∧ path_exists w' p = path_exists w p) ∧
  files w' !! "unpaired.txt" = files w !! "unpaired.txt" ∧
  files w' !! "outofdict.txt" = files w !! "outofdict.txt" ∧
  calls w' = calls w.
Proof.
  intros Hlay Habs w'.
  assert (∀ p, p ≠ tmp_dir self → outside (tmp_dir self) p →
               files w' !! p = files w !! p ∧
               path_exists w' p = path_exists w p) as Hrest.
  { intros p Hp Hout.
    assert (under (tmp_dir self) p = false) as Hu.
    { unfold under. rewrite bool_decide_eq_false_2 by done. exact Hout. }
    destruct (del_keeps_the_rest self w p Hu) as [H1 H2]. by split. }
  assert (∀ p, Py.rfind "/" p = None → Py.startswith p "/" = false →
               files w' !! p = files w !! p) as Hreport.
  { intros p Hp Hrel. apply Hrest.
    - intros ->. congruence.
    - apply no_slash_outside; [|done]. intros E. by rewrite E in Habs. }
  split_and!.
  - apply del_removes_workspace. unfold under.
    by rewrite bool_decide_eq_true_2.
  - intros p Hp. apply del_removes_workspace.
    apply DictFacts.elem_of_label_targets in Hp as [->|(lab & _ & [-> | ->])].
    + rewrite (word_mlf_shape self Hlay). apply under_prefix.
    + rewrite (phon_lab_path_shape self Hlay). apply under_prefix.
    + rewrite (word_lab_path_shape self Hlay). apply under_prefix.
  - exact Hrest.
  - by apply Hreport.
  - by apply Hreport.
  - done.
Qed.

Lemma X17_witness :
  let w := world_after (label_files Demo.reader ["/c/a.lab"; "/c/b.lab"])
                       Demo.corpus in
  path_exists w "/tmp/tmpA/DAT/a.lab" = true ∧
  path_exists (world_after (__del__ Demo.reader) w) "/tmp/tmpA/DAT/a.lab"
    = false ∧
  files (world_after (__del__ Demo.reader) w) !! "/c/a.lab"
    = Some ("hello world" +:+ nl).
Proof.
  intros w.
  destruct (X17_del_removes_the_labels Demo.reader w ["/c/a.lab"; "/c/b.lab"]
              LabelFacts.demo_laid_out) as (_ & Hgone & Hkept & _);
    [done|].
  split_and!.
  - by vm_compute.
  - apply Hgone. right. by left.
  - destruct (Hkept "/c/a.lab") as [-> _]; by vm_compute.
Defined.

End DelLabelFacts.

(** ** What a whole run keeps *)

Module RunFacts.
Import Sys Obs Keeps KeepsFacts StrFacts PathFacts LayoutFacts RunObs.

Lemma under_refl d : under d d = true.
Proof. unfold under. by rewrite bool_decide_eq_true_2. Qed.

Lemma dir_slash_prefix tmp a :
  under tmp a = true → String.prefix (dir_slash tmp) (dir_slash a) = true.
Proof.
  unfold under. intros [->%bool_decide_eq_true|H]%orb_true_iff.
  - apply prefix_app. exists "". by rewrite sapp_nil_r.
  - apply prefix_app in H as [r ->]. apply prefix_app.
    generalize (dir_slash tmp) as D. intros D.
    unfold dir_slash, Py.join. cbn [Py.startswith String.prefix].
    destruct (_ || _); rewrite ?sapp_assoc; eauto.
Qed.

(** A relative name joined to a path of the workspace stays in the
    workspace. *)
Lemma under_join tmp a x :
  under tmp a = true → Py.startswith x "/" = false →
  under tmp (Py.join a x) = true.
Proof.
  intros Ha Hx. rewrite (join_dir_slash a x Hx).
  apply dir_slash_prefix in Ha. apply prefix_app in Ha as [r ->].
  unfold under. apply orb_true_iff. right. apply prefix_app.
  rewrite sapp_assoc. eauto.
Qed.

Lemma under_join_basename tmp a p :
  under tmp a = true → under tmp (Py.join a (Py.basename p)) = true.
Proof. intros Ha. apply under_join; [done|]. apply no_slash_start, basename_no_slash. Qed.

Lemma under_gen_dir tmp self k :
  under tmp (hmm_dir self) = true → under tmp (TrainAligner.gen_dir self k) = true.
Proof. intros H. apply under_join; [done|]. apply GenFacts.zfill_str_no_slash. Qed.

Section Housed.
Context (tmp : string) (self : aligner) (H : housed tmp self).

Lemma housed_path p : p ∈ paths_of self → under tmp p = true.
Proof.
  intros Hp.
  destruct H as (Ht & Ha & Hl & Hh & Hw & Hph & Hpr & Htd & Hc & Hts & Htr &
                 Hcfg & Hpm & Hwm & Hphm).
  assert (∀ x, Py.startswith x "/" = false → under tmp (Py.join tmp x) = true)
    as Hj.
  { intros x Hx. apply under_join; [apply under_refl|done]. }
  unfold paths_of in Hp. rewrite !elem_of_cons, elem_of_nil in Hp.
  repeat (destruct Hp as [->|Hp]);
    [rewrite Ha|rewrite Hl|rewrite Hh|rewrite Hw|rewrite Hph|rewrite Hpr
    |rewrite Htd|rewrite Hc|rewrite Hts|destruct Htr as [-> | ->]
    |rewrite Hcfg|rewrite Hpm|rewrite Hwm|rewrite Hphm|destruct Hp];
    apply Hj; reflexivity.
Qed.

Lemma housed_tmp : under tmp (tmp_dir self) = true.
Proof. destruct H as [-> _]. apply under_refl. Qed.

Lemma housed_laid_out : laid_out self.
Proof.
  destruct H as (Ht & Ha & Hl & _ & _ & _ & _ & _ & _ & _ & _ & _ & _ & Hwm & _).
  unfold laid_out. by rewrite Ht, Ha, Hl, Hwm.
Qed.

End Housed.

Lemma log_in_preorder progs : PreOrder (log_in progs).
Proof.
  split.
  - intros w. exists []. by rewrite app_nil_r.
  - intros w1 w2 w3 (l1 & E1 & F1) (l2 & E2 & F2).
    exists (l1 ++ l2). split; [by rewrite E2, E1, app_assoc|].
    by apply Forall_app.
Qed.

Lemma files_kept_preorder allowed : PreOrder (files_kept allowed).
Proof.
  split.
  - by intros w p Hp.
  - intros w1 w2 w3 H1 H2 p Hp. by rewrite H2, H1.
Qed.

Lemma log_in_same progs w w' : calls w' = calls w → log_in progs w w'.
Proof. intros E. exists []. unfold argvs. by rewrite E, app_nil_r. Qed.

Lemma log_in_disciplined env progs :
  disciplined env (log_in progs) (λ _, True) (runs_one_of progs).
Proof.
  split.
  - intros p s _ w. by apply log_in_same.
  - intros p _ w. by apply log_in_same.
  - intros p _ w. by apply log_in_same.
  - intros p w. apply log_in_same. unfold mkdir. by destruct (path_exists w p).
  - intros w. by apply log_in_same.
  - intros argv Hargv w. exists [argv]. split; [|by constructor].
    unfold argvs. cbn. by rewrite fmap_app.
  - intros argv Hargv w. exists [argv]. split; [|by constructor].
    unfold argvs. cbn. by rewrite fmap_app.
Qed.

Lemma files_kept_disciplined env allowed :
  tools_keep env allowed →
  disciplined env (files_kept allowed) allowed (λ _, True).
Proof.
  intros Htools. split.
  - intros p s Hp w q Hq. cbn. apply lookup_insert_ne. by intros ->.
  - intros p Hp w q Hq. cbn. apply lookup_insert_ne. by intros ->.
  - intros p Hp w q Hq. cbn. apply lookup_insert_ne. by intros ->.
  - intros p w q Hq. unfold mkdir. by destruct (path_exists w p).
  - by intros w q Hq.
  - intros argv _ w q Hq. cbn. by apply Htools.
  - intros argv _ w q Hq. cbn. by apply Htools.
Qed.

Lemma dirs_kept_preorder : PreOrder dirs_kept.
Proof.
  split.
  - intros w. unfold dirs_kept. set_solver.
  - intros x y z H1 H2. unfold dirs_kept in *. set_solver.
Qed.

Lemma names_kept_preorder : PreOrder names_kept.
Proof.
  split.
  - intros w. unfold names_kept. set_solver.
  - intros x y z H1 H2. unfold names_kept in *. set_solver.
Qed.

Lemma dirs_kept_disciplined env :
  disciplined env dirs_kept (λ _, True) (λ _, True).
Proof.
  split; unfold keeps, dirs_kept.
  - by intros p s _ w.
  - by intros p _ w.
  - by intros p _ w.
  - intros p w. unfold mkdir. destruct (path_exists w p); cbn; set_solver.
  - intros w. cbn. set_solver.
  - by intros argv _ w.
  - by intros argv _ w.
Qed.

Lemma names_kept_disciplined env :
  (∀ argv fs, dom fs ⊆ dom (tool_files env argv fs)) →
  disciplined env names_kept (λ _, True) (λ _, True).
Proof.
  intros Htools. split; unfold keeps, names_kept.
  - intros p s _ w. unfold fwrite. cbn. rewrite dom_insert. set_solver.
  - intros p _ w. cbn. rewrite dom_insert. set_solver.
  - intros p _ w. cbn. rewrite dom_insert. set_solver.
  - intros p w. unfold mkdir. by destruct (path_exists w p).
  - by intros w.
  - intros argv _ w. cbn. apply Htools.
  - intros argv _ w. cbn. apply Htools.
Qed.

End RunFacts.

(** One step through a computation, for a relation given with its
    discipline [HD]; what is left are the conditions on the paths written
    and the programs run. *)
Ltac run_step HD :=
  first
    [ apply KeepsFacts.keeps_bind; [apply _| |intros ?]
    | apply KeepsFacts.keeps_for_each; [apply _|intros ?]
    | apply KeepsFacts.keeps_foldM; [apply _|intros ? ?]
    | apply KeepsFacts.keeps_repeatM; [apply _|intros ?]
    | apply KeepsFacts.keeps_if
    | apply KeepsFacts.keeps_ret; apply _
    | apply KeepsFacts.keeps_error; apply _
    | apply KeepsFacts.keeps_raise; apply _
    | apply KeepsFacts.keeps_fread; apply _
    | apply KeepsFacts.keeps_get_world; apply _
    | apply (Keeps.d_fwrite _ _ _ _ HD)
    | apply (Keeps.d_open_w _ _ _ _ HD)
    | apply (Keeps.d_open_a _ _ _ _ HD)
    | apply (Keeps.d_mkdir _ _ _ _ HD)
    | apply (Keeps.d_mkdtemp _ _ _ _ HD)
    | apply (Keeps.d_call _ _ _ _ HD)
    | apply (Keeps.d_popen _ _ _ _ HD)
    | match goal with
      | |- Keeps.keeps _ (match ?x with Some _ => _ | None => _ end) =>
          destruct x
      | |- Keeps.keeps _ (match ?x with [] => _ | _ :: _ => _ end) =>
          destruct x
      | |- Keeps.keeps _ (let '(_, _) := ?x in _) => destruct x
      end ].
Ltac run_go HD := repeat (cbv beta zeta; run_step HD).
Ltac in_paths :=
  unfold RunObs.paths_of; solve [repeat (first [by left | right])].

(** ** The script, function by function *)

Module TraverseFacts.
Import Sys Obs Keeps KeepsFacts StrFacts PathFacts LayoutFacts RunObs RunFacts.

Section Traverse.
Context (env : Env) (R : relation World) (HR : PreOrder R).
Context (may_write : string → Prop) (may_run : list string → Prop).
Context (HD : disciplined env R may_write may_run).
Context (tmp : string).
Context (Hunder : ∀ p, under tmp p = true → may_write p).
Context (Hunp : may_write unpaired) (Hood : may_write outofdict).
Context (Halign : ∀ prog rest, prog ∈ align_tools → may_run (prog :: rest)).

Lemma run_write_file p s : may_write p → keeps R (write_file p s).
Proof. intros Hp. unfold write_file. run_go HD; done. Qed.

Lemma run_the_dict dictionary : keeps R (Aligner._the_dict dictionary).
Proof. unfold Aligner._the_dict. run_go HD. Qed.

Lemma run_lists path : keeps R (Aligner._lists env path).
Proof. unfold Aligner._lists. run_go HD; done. Qed.

Section WithSelf.
Context (self : aligner) (Hself : housed tmp self).

Lemma self_path p : p ∈ paths_of self → may_write p.
Proof. intros Hp. apply Hunder. by eapply housed_path. Qed.

Lemma self_tmp_name x :
  Py.startswith x "/" = false → may_write (Py.join (tmp_dir self) x).
Proof.
  intros Hx. apply Hunder, under_join; [|done]. by eapply housed_tmp.
Qed.

Lemma self_phon_lab lab : may_write (Aligner.phon_lab_path self lab).
Proof.
  apply Hunder, under_join_basename. eapply housed_path; [done|]. in_paths.
Qed.

Lemma self_word_lab lab : may_write (Aligner.word_lab_path self lab).
Proof.
  apply Hunder, under_join_basename. eapply housed_path; [done|]. in_paths.
Qed.

Lemma self_gen_name k x :
  Py.startswith x "/" = false →
  may_write (Py.join (TrainAligner.gen_dir self k) x).
Proof.
  intros Hx. apply Hunder, under_join; [|done]. apply under_gen_dir.
  eapply housed_path; [done|]. in_paths.
Qed.

Lemma run_word_step lab acc word : keeps R (Aligner.word_step self lab acc word).
Proof.
  unfold Aligner.word_step. run_go HD.
  all: first [apply self_phon_lab|apply self_word_lab|apply self_path; in_paths].
Qed.

Lemma run_lab_step acc lab : keeps R (Aligner.lab_step self acc lab).
Proof.
  unfold Aligner.lab_step. run_go HD.
  all: first [apply self_phon_lab|apply self_word_lab|apply self_path; in_paths
             |apply run_word_step].
Qed.

Ltac self_fin :=
  first [done|apply self_phon_lab|apply self_word_lab|apply self_path; in_paths
        |apply self_tmp_name; done
        |apply Halign; unfold align_tools; in_paths
        |apply run_write_file;
         first [apply self_path; in_paths|apply self_tmp_name; done]
        |apply run_word_step].

Lemma run_label_files lab_list : keeps R (Aligner.label_files self lab_list).
Proof.
  unfold Aligner.label_files. run_go HD. all: self_fin.
Qed.

Lemma run_check_dct lab_list ood_mode :
  keeps R (Aligner._check_dct env self lab_list ood_mode).
Proof.
  unfold Aligner._check_dct.
  apply keeps_bind; [apply _|apply run_label_files|]. intros [found ood].
  run_go HD. all: self_fin.
Qed.

Lemma run_check_aud wav_list training :
  keeps R (Aligner._check_aud env self wav_list training).
Proof.
  unfold Aligner._check_aud. run_go HD.
  all: try (destruct (wave_header env _);
            [apply keeps_raise|apply keeps_ret]; apply _).
  all: first [self_fin|destruct training; apply self_path; in_paths].
Qed.

Lemma run_HCopy : keeps R (Aligner._HCopy env self).
Proof.
  unfold Aligner._HCopy. run_go HD. all: self_fin.
Qed.

Lemma run_align mlf : keeps R (Aligner.align env self mlf).
Proof.
  unfold Aligner.align. run_go HD. all: self_fin.
Qed.

Lemma run_align_and_score mlf score :
  may_write score → keeps R (Aligner.align_and_score env self mlf score).
Proof.
  intros Hscore. unfold Aligner.align_and_score. run_go HD.
  all: try self_fin.
  unfold Aligner.score_step. run_go HD. done.
Qed.

End WithSelf.

Lemma housed_set_wav_list self l :
  housed tmp self → housed tmp (set_wav_list l self).
Proof. intros H. exact H. Qed.

Lemma housed_set_cur_dir self p :
  housed tmp self → housed tmp (set_cur_dir p self).
Proof. intros H. exact H. Qed.

Lemma housed_set_n self k : housed tmp self → housed tmp (set_n k self).
Proof. intros H. exact H. Qed.

Lemma housed_set_nxt_dir self p :
  housed tmp self → housed tmp (set_nxt_dir p self).
Proof. intros H. exact H. Qed.

Lemma housed_set_train_scp self :
  housed tmp self → housed tmp (set_train_scp (test_scp self) self).
Proof.
  intros (Ht & Ha & Hl & Hh & Hw & Hph & Hpr & Htd & Hc & Hts & Htr &
          Hcfg & Hpm & Hwm & Hphm).
  unfold housed. cbn. split_and!; try assumption. by right.
Qed.

(** [_check] and [_subclass_specific_init] of the aligner. *)
Lemma run_check self ts_dir ood_mode :
  housed tmp self →
  yields R (housed tmp) (Aligner._check env self ts_dir ood_mode).
Proof.
  intros Hself. unfold Aligner._check.
  apply yields_then; [apply _|apply run_lists|]. intros [wav_list lab_list].
  cbv zeta.
  apply yields_then; [apply _|by apply run_check_dct|]. intros _.
  apply yields_then; [apply _|by apply run_check_aud|]. intros _.
  by apply yields_ret.
Qed.

Lemma run_init_aligner self ts_dir tr_dir ood_mode :
  housed tmp self →
  yields R (housed tmp)
    (Aligner._subclass_specific_init env self ts_dir tr_dir ood_mode).
Proof.
  intros Hself. unfold Aligner._subclass_specific_init.
  apply (yields_bind R (housed tmp)); [by apply run_check|].
  intros self1 H1.
  apply yields_then; [apply _|by apply run_HCopy|]. intros _.
  by apply yields_ret.
Qed.

(** *** The trainer *)

Context (Htrain : ∀ prog rest, prog ∈ train_tools → may_run (prog :: rest)).

Lemma run_check_trainer self ts_dir tr_dir ood_mode :
  housed tmp self →
  yields R (housed tmp) (TrainAligner._check env self ts_dir tr_dir ood_mode).
Proof.
  intros Hself. unfold TrainAligner._check. case_bool_decide.
  - apply yields_then; [apply _|apply run_lists|]. intros [wav_list lab_list].
    cbv zeta.
    apply yields_then; [apply _|by apply run_check_dct|]. intros _.
    apply yields_then; [apply _|by apply run_check_aud|]. intros _.
    apply yields_ret; [apply _|]. by apply housed_set_train_scp.
  - apply yields_then; [apply _|apply run_lists|]. intros [wav_list lab_list].
    cbv zeta.
    apply yields_then; [apply _|apply run_lists|]. intros [wav_list' lab_list'].
    apply yields_then; [apply _|by apply run_check_dct|]. intros _.
    apply yields_then; [apply _|by apply run_check_aud|]. intros _.
    apply yields_then; [apply _|by apply run_check_aud|]. intros _.
    by apply yields_ret.
Qed.

Lemma stationed_gen self k :
  housed tmp self → under tmp (TrainAligner.gen_dir self k) = true.
Proof.
  intros Hself. apply under_gen_dir. eapply housed_path; [done|]. in_paths.
Qed.

Lemma run_init_generations self :
  housed tmp self → yields R (stationed tmp) (TrainAligner.init_generations self).
Proof.
  intros Hself. unfold TrainAligner.init_generations. cbv zeta.
  apply yields_then; [apply _|apply (d_mkdir _ _ _ _ HD)|]. intros _.
  apply yields_then; [apply _|apply (d_mkdir _ _ _ _ HD)|]. intros _.
  apply yields_ret; [apply _|]. split_and!.
  - exact Hself.
  - apply (stationed_gen self 0 Hself).
  - apply (stationed_gen self 1 Hself).
Qed.

Lemma station_name self x :
  stationed tmp self → Py.startswith x "/" = false →
  may_write (Py.join (cur_dir self) x).
Proof. intros (_ & Hc & _) Hx. by apply Hunder, under_join. Qed.

Lemma run_flat_start self :
  stationed tmp self → keeps R (TrainAligner.flat_start env self).
Proof.
  intros Hst. pose proof Hst as (Hself & _ & _).
  unfold TrainAligner.flat_start. run_go HD.
  all: first [apply station_name; done
             |apply (self_path self Hself); in_paths
             |apply Htrain; unfold train_tools; in_paths
             |apply run_write_file, (self_path self Hself); in_paths].
Qed.

Lemma run_init_trainer self ts_dir tr_dir ood_mode :
  housed tmp self →
  yields R (stationed tmp)
    (TrainAligner._subclass_specific_init env self ts_dir tr_dir ood_mode).
Proof.
  intros Hself. unfold TrainAligner._subclass_specific_init.
  apply (yields_bind R (housed tmp)); [by apply run_check_trainer|].
  intros self1 H1.
  apply yields_then; [apply _|by apply run_HCopy|]. intros _.
  apply (yields_bind R (stationed tmp)); [by apply run_init_generations|].
  intros self2 H2.
  apply yields_then; [apply _|by apply run_flat_start|]. intros _.
  by apply yields_ret.
Qed.

Lemma run_nxt_dir self :
  stationed tmp self → yields R (stationed tmp) (TrainAligner._nxt_dir self).
Proof.
  intros (Hself & Hc & Hn). unfold TrainAligner._nxt_dir. cbv zeta.
  apply yields_then; [apply _|apply (d_mkdir _ _ _ _ HD)|]. intros _.
  apply yields_ret; [apply _|]. split_and!; [exact Hself|exact Hn|].
  apply (stationed_gen self _ Hself).
Qed.

Lemma run_train_round self :
  stationed tmp self → yields R (stationed tmp) (TrainAligner.train_round env self).
Proof.
  intros Hst. unfold TrainAligner.train_round.
  apply yields_then; [apply _| |intros _; by apply run_nxt_dir].
  apply (d_call _ _ _ _ HD), Htrain. unfold train_tools. in_paths.
Qed.

Lemma run_train self niter :
  stationed tmp self → yields R (stationed tmp) (TrainAligner.train env self niter).
Proof.
  intros Hst. unfold TrainAligner.train.
  apply yields_repeatM; [apply _| |done]. apply run_train_round.
Qed.

Lemma run_small_pause self :
  stationed tmp self → yields R (stationed tmp) (TrainAligner.small_pause env self).
Proof.
  intros Hst. pose proof Hst as (Hself & _ & _).
  unfold TrainAligner.small_pause. cbv zeta.
  apply yields_then; [apply _|apply keeps_fread; apply _|]. intros content.
  apply yields_then; [apply _| |intros _].
  { apply (d_fwrite _ _ _ _ HD). by apply station_name. }
  apply yields_then; [apply _| |intros _].
  { apply run_write_file. by apply (self_tmp_name self Hself). }
  apply yields_then; [apply _| |intros _; by apply run_nxt_dir].
  apply (d_call _ _ _ _ HD), Htrain. unfold train_tools. in_paths.
Qed.

(** *** [__init__] and the run, from the world [w0] in which [mkdtemp]
    makes the workspace [tmp] *)

Lemma run_init {Q : aligner → Prop}
    (subclass_init : aligner → string → string → bool → M aligner)
    ts_dir tr_dir dictionary sr ood_mode w0 :
  mkdtemp_name env w0 = tmp →
  (∀ self, housed tmp self →
           yields R Q (subclass_init self ts_dir tr_dir ood_mode)) →
  yields_from R Q
    (Aligner.__init__ env subclass_init ts_dir tr_dir dictionary sr ood_mode) w0.
Proof.
  intros Htmp Hsub. unfold Aligner.__init__.
  apply (yields_from_bind R (λ p, p = tmp)).
  { split; [apply (d_mkdtemp _ _ _ _ HD)|]. by intros a [= <-]. }
  intros p ->. cbv zeta.
  apply yields_then; [apply _|apply (d_mkdir _ _ _ _ HD)|]. intros _.
  apply yields_then; [apply _|apply (d_mkdir _ _ _ _ HD)|]. intros _.
  apply yields_then; [apply _|apply (d_mkdir _ _ _ _ HD)|]. intros _.
  apply yields_then; [apply _|apply run_the_dict|]. intros the_dict.
  apply Hsub. unfold housed. cbn. split_and!; try reflexivity. by left.
Qed.

Lemma run_init_after {Q : aligner → Prop}
    (subclass_init : aligner → string → string → bool → M aligner)
    ts_dir tr_dir dictionary sr ood_mode w0 :
  mkdtemp_name env w0 = tmp →
  (∀ self, housed tmp self →
           yields R Q (subclass_init self ts_dir tr_dir ood_mode)) →
  yields_after R Q
    (Aligner.__init__ env subclass_init ts_dir tr_dir dictionary sr ood_mode)
    (world_after (mkdtemp env) w0) w0.
Proof.
  intros Htmp Hsub. unfold Aligner.__init__.
  assert (∀ k : string → M aligner,
            (mkdtemp env ≫= k) w0 = k tmp (world_after (mkdtemp env) w0)) as E.
  { intros k. by rewrite <- Htmp. }
  unfold yields_after. rewrite E. cbv zeta.
  generalize (world_after (mkdtemp env) w0).
  change (yields R Q
    (mkdir (Py.join tmp "DAT") ;;
     mkdir (Py.join tmp "LAB") ;;
     mkdir (Py.join tmp "HMM") ;;
     the_dict ← Aligner._the_dict dictionary;
     subclass_init
       (mkAligner sr (sox_in_path env) tmp (Py.join tmp "DAT")
          (Py.join tmp "LAB") (Py.join tmp "HMM") dictionary the_dict
          (Py.join tmp "words") (Py.join tmp "phones")
          (Py.join tmp "proto") (Py.join tmp "taskdict")
          (Py.join tmp "copy.scp") (Py.join tmp "test.scp")
          (Py.join tmp "train.scp") (Py.join tmp "cfg")
          (Py.join tmp "pron.mlf") (Py.join tmp "words.mlf")
          (Py.join tmp "phones.mlf") [] "" 0%nat "")
       ts_dir tr_dir ood_mode)).
  apply yields_then; [apply _|apply (d_mkdir _ _ _ _ HD)|]. intros _.
  apply yields_then; [apply _|apply (d_mkdir _ _ _ _ HD)|]. intros _.
  apply yields_then; [apply _|apply (d_mkdir _ _ _ _ HD)|]. intros _.
  apply yields_then; [apply _|apply run_the_dict|]. intros the_dict.
  apply Hsub. unfold housed. cbn. split_and!; try reflexivity. by left.
Qed.

Lemma run_main_train_after ts_dir tr_dir dictionary sr ood_mode n_per_round
    require_training w0 :
  mkdtemp_name env w0 = tmp →
  may_write (Py.join ts_dir scores_txt) →
  yields_after R (stationed tmp)
    (Main.run env ts_dir (Some tr_dir) dictionary sr ood_mode n_per_round
       require_training) (world_after (mkdtemp env) w0) w0.
Proof.
  intros Htmp Hscore. unfold Main.run. cbv zeta.
  apply (yields_after_bind R (stationed tmp)).
  { apply run_init_after; [done|]. intros self Hself.
    by apply run_init_trainer. }
  intros a0 H0.
  apply (yields_bind R (stationed tmp)); [by apply run_train|]. intros a1 H1.
  apply (yields_bind R (stationed tmp)); [by apply run_small_pause|].
  intros a2 H2.
  apply (yields_bind R (stationed tmp)); [by apply run_train|]. intros a3 H3.
  apply yields_then; [apply _|apply run_align|]. intros _.
  apply (yields_bind R (stationed tmp)); [by apply run_train|]. intros a4 H4.
  apply yields_then; [apply _|by apply run_align_and_score|].
  intros _. by apply yields_ret.
Qed.

Lemma run_main_align_after ts_dir dictionary sr ood_mode n_per_round w0 :
  mkdtemp_name env w0 = tmp →
  may_write (Py.join ts_dir scores_txt) →
  yields_after R (housed tmp)
    (Main.run env ts_dir None dictionary sr ood_mode n_per_round false)
    (world_after (mkdtemp env) w0) w0.
Proof.
  intros Htmp Hscore. unfold Main.run. cbv zeta.
  assert (∀ k : M aligner, ((mret () : M unit) ;; k) w0 = k w0) as E by done.
  unfold yields_after. rewrite E.
  apply (yields_after_bind R (housed tmp)).
  { apply run_init_after; [done|]. intros self Hself.
    by apply run_init_aligner. }
  intros a0 H0.
  apply yields_then; [apply _|by apply run_align_and_score|].
  intros _. by apply yields_ret.
Qed.

Lemma run_main_train ts_dir tr_dir dictionary sr ood_mode n_per_round
    require_training w0 :
  mkdtemp_name env w0 = tmp →
  may_write (Py.join ts_dir scores_txt) →
  yields_from R (stationed tmp)
    (Main.run env ts_dir (Some tr_dir) dictionary sr ood_mode n_per_round
       require_training) w0.
Proof.
  intros Htmp Hscore. unfold Main.run. cbv zeta.
  apply (yields_from_bind R (stationed tmp)).
  { apply run_init; [done|]. intros self Hself. by apply run_init_trainer. }
  intros a0 H0.
  apply (yields_bind R (stationed tmp)); [by apply run_train|]. intros a1 H1.
  apply (yields_bind R (stationed tmp)); [by apply run_small_pause|].
  intros a2 H2.
  apply (yields_bind R (stationed tmp)); [by apply run_train|]. intros a3 H3.
  apply yields_then; [apply _|apply run_align|]. intros _.
  apply (yields_bind R (stationed tmp)); [by apply run_train|]. intros a4 H4.
  apply yields_then; [apply _|by apply run_align_and_score|].
  intros _. by apply yields_ret.
Qed.

Lemma run_main_align ts_dir dictionary sr ood_mode n_per_round
    require_training w0 :
  mkdtemp_name env w0 = tmp →
  may_write (Py.join ts_dir scores_txt) →
  yields_from R (housed tmp)
    (Main.run env ts_dir None dictionary sr ood_mode n_per_round
       require_training) w0.
Proof.
  intros Htmp Hscore. unfold Main.run. cbv zeta.
  destruct require_training.
  - split; [cbn; reflexivity|]. intros a. cbn. done.
  - assert (∀ k : M aligner, ((mret () : M unit) ;; k) w0 = k w0) as E by done.
    unfold yields_from. rewrite E.
    apply (yields_from_bind R (housed tmp)).
    { apply run_init; [done|]. intros self Hself. by apply run_init_aligner. }
    intros a0 H0.
    apply yields_then; [apply _|by apply run_align_and_score|].
    intros _. by apply yields_ret.
Qed.

End Traverse.

End TraverseFacts.

(** ** Whole runs *)

Module WholeRunFacts.
Import Sys Obs Keeps KeepsFacts RunObs RunFacts TraverseFacts.

Lemma runs_one_of_mono progs progs' argv :
  progs ⊆ progs' → runs_one_of progs argv → runs_one_of progs' argv.
Proof. intros Hsub (prog & rest & -> & Hin). exists prog, rest. auto. Qed.

Section WithEnv.
Context (env : Env).

(** X18.  Whatever the corpus, the dictionary and the tools do, and
    however the run ends: from the making of the object to the score
    table, a run without [-t] runs no program but HDMan, HLEd, sox,
    HCopy and HVite, and a run with [-t] none but these and HCompV,
    HERest and HHEd. *)
Theorem X18_programs_of_a_run ts_dir tr_dir dictionary sr ood_mode n_per_round
    require_training w :
  let m := Main.run env ts_dir tr_dir dictionary sr ood_mode n_per_round
             require_training in
  (∃ l, argvs (world_after m w) = argvs w ++ l ∧
        Forall (λ argv, ∃ prog rest,
                  argv = prog :: rest ∧
                  prog ∈ ["HDMan"; "HLEd"; "sox"; "HCopy"; "HVite";
                          "HCompV"; "HERest"; "HHEd"]) l) ∧
  (tr_dir = None →
   ∃ l, argvs (world_after m w) = argvs w ++ l ∧
        Forall (λ argv, ∃ prog rest,
                  argv = prog :: rest ∧
                  prog ∈ ["HDMan"; "HLEd"; "sox"; "HCopy"; "HVite"]) l).
Proof.
  intros m.
  assert (tr_dir = None → log_in align_tools w (world_after m w)) as Halign.
  { intros ->.
    apply (run_main_align env (log_in align_tools) (log_in_preorder _)
             (λ _, True) (runs_one_of align_tools)
             (log_in_disciplined env align_tools) (mkdtemp_name env w));
      try done.
    intros prog rest Hin. by exists prog, rest. }
  split; [|exact Halign].
  change (log_in (align_tools ++ train_tools) w (world_after m w)).
  destruct tr_dir as [tr_dir|].
  - apply (run_main_train env (log_in (align_tools ++ train_tools))
             (log_in_preorder _) (λ _, True)
             (runs_one_of (align_tools ++ train_tools))
             (log_in_disciplined env _) (mkdtemp_name env w)); try done.
    + intros prog rest Hin. exists prog, rest. split; [done|].
      apply elem_of_app. by left.
    + intros prog rest Hin. exists prog, rest. split; [done|].
      apply elem_of_app. by right.
  - destruct (Halign eq_refl) as (l & E & Hall). exists l. split; [done|].
    eapply Forall_impl; [exact Hall|]. intros argv.
    apply runs_one_of_mono. intros x Hx. apply elem_of_app. by left.
Qed.

(** X19.  From the making of the object to the score table, the
    script itself writes no file but those of its workspace, the
    reports [unpaired.txt] and [outofdict.txt], and the score table.
    For any set [allowed] of paths that holds these: if no tool
    changes a file outside [allowed], then after the run, however it
    ends, every file outside [allowed] -- the transcripts, the audio,
    the dictionary -- is as it was. *)
Theorem X19_run_keeps_the_corpus ts_dir tr_dir dictionary sr ood_mode
    n_per_round require_training w (allowed : string → Prop) :
  let m := Main.run env ts_dir tr_dir dictionary sr ood_mode n_per_round
             require_training in
  (∀ p, under (mkdtemp_name env w) p = true → allowed p) →
  allowed "unpaired.txt" → allowed "outofdict.txt" →
  allowed (Py.join ts_dir ".SCORES.txt") →
  (∀ argv fs p, ¬ allowed p → tool_files env argv fs !! p = fs !! p) →
  ∀ p, ¬ allowed p → files (world_after m w) !! p = files w !! p.
Proof.
  intros m Hunder Hunp Hood Hscore Htools.
  change (files_kept allowed w (world_after m w)).
  pose proof (files_kept_disciplined env allowed Htools) as HD.
  destruct tr_dir as [tr_dir|].
  - by apply (run_main_train env (files_kept allowed) (files_kept_preorder _)
                allowed (λ _, True) HD (mkdtemp_name env w)).
  - by apply (run_main_align env (files_kept allowed) (files_kept_preorder _)
                allowed (λ _, True) HD (mkdtemp_name env w)).
Qed.

(** X20.  The object a run has made when it gets to the end of the
    score table is laid out in the workspace [mkdtemp] made, whichever
    class it is of and whatever the methods run on it since: the
    audio, label and model directories are [DAT], [LAB] and [HMM] in
    it, and the word list, the phone list, the prototype, the task
    dictionary, the lists of files, the configuration and the three
    archives are the files the constructor names in it; only the
    training list may be the test list instead, as it is for a trainer
    that trains on the test data. *)
Theorem X20_run_object_is_housed ts_dir tr_dir dictionary sr ood_mode
    n_per_round require_training w self :
  outcome (Main.run env ts_dir tr_dir dictionary sr ood_mode n_per_round
             require_training) w = Ok self →
  let tmp := mkdtemp_name env w in
  tmp_dir self = tmp ∧
  aud_dir self = Py.join tmp "DAT" ∧
  lab_dir self = Py.join tmp "LAB" ∧
  hmm_dir self = Py.join tmp "HMM" ∧
  words self = Py.join tmp "words" ∧
  phons self = Py.join tmp "phones" ∧
  proto self = Py.join tmp "proto" ∧
  taskdict self = Py.join tmp "taskdict" ∧
  copy_scp self = Py.join tmp "copy.scp" ∧
  test_scp self = Py.join tmp "test.scp" ∧
  (train_scp self = Py.join tmp "train.scp" ∨
   train_scp self = Py.join tmp "test.scp") ∧
  cfg self = Py.join tmp "cfg" ∧
  pron_mlf self = Py.join tmp "pron.mlf" ∧
  word_mlf self = Py.join tmp "words.mlf" ∧
  phon_mlf self = Py.join tmp "phones.mlf".
Proof.
  intros Hout tmp.
  change (housed tmp self).
  pose proof (Disciplined env (λ _ _ : World, True) (λ _, True) (λ _, True)
                (λ _ _ _ _, I) (λ _ _ _, I) (λ _ _ _, I) (λ _ _, I) (λ _, I)
                (λ _ _ _, I) (λ _ _ _, I)) as HD.
  assert (PreOrder (λ _ _ : World, True)) as HR by (by split).
  destruct tr_dir as [tr_dir|].
  - apply (run_main_train env _ HR _ _ HD tmp) in Hout; try done.
    apply Hout.
  - by apply (run_main_align env _ HR _ _ HD tmp) in Hout.
Qed.

(** X21.  The script removes nothing on its way to the score table.
    With [-n] or [-s] and no [-t] the run ends before it has done
    anything.  Any other run makes its workspace, and however it ends
    -- by a validation exit, an error of Python, or after the score
    table -- the workspace is still there: no path through the
    program removes it, which is left to the finalizer of the object.
    The directories that were there are still there, and so are the
    files, when the tools remove none.  (A tool is taken to change
    files only.) *)
Theorem X21_run_removes_nothing ts_dir tr_dir dictionary sr ood_mode
    n_per_round require_training w :
  let m := Main.run env ts_dir tr_dir dictionary sr ood_mode n_per_round
             require_training in
  (tr_dir = None → require_training = true →
   m w = (Raise (SystemExit
                   "Error: -n, -s only available in training (-t) mode"), w)) ∧
  (¬ (tr_dir = None ∧ require_training = true) →
   mkdtemp_name env w ∈ dirs (world_after m w)) ∧
  dirs w ⊆ dirs (world_after m w) ∧
  ((∀ argv fs, dom fs ⊆ dom (tool_files env argv fs)) →
   dom (files w) ⊆ dom (files (world_after m w))).
Proof.
  intros m.
  pose proof (dirs_kept_disciplined env) as HD.
  pose proof dirs_kept_preorder as HR.
  assert (∀ R (HR : PreOrder R),
            disciplined env R (λ _, True) (λ _, True) → R w (world_after m w))
    as Hall.
  { intros R HR' HD'. destruct tr_dir as [tr_dir|].
    - by apply (run_main_train env R HR' _ _ HD' (mkdtemp_name env w)).
    - by apply (run_main_align env R HR' _ _ HD' (mkdtemp_name env w)). }
  split_and!.
  - intros -> ->. reflexivity.
  - intros Hnot.
    assert (dirs_kept (world_after (mkdtemp env) w) (world_after m w)) as H.
    { destruct tr_dir as [tr_dir|].
      - by apply (run_main_train_after env _ HR _ _ HD (mkdtemp_name env w)).
      - destruct require_training; [by destruct Hnot|].
        by apply (run_main_align_after env _ HR _ _ HD (mkdtemp_name env w)). }
    apply H. cbn. set_solver.
  - by apply (Hall dirs_kept).
  - intros Htools.
    apply (Hall names_kept names_kept_preorder).
    by apply names_kept_disciplined.
Qed.

End WithEnv.

Lemma X19_witness :
  files (world_after (Main.run (Demo.quiet_env []) "/c" None "dictionary.txt"
                        25000 false 4 false) Samples9.plain_corpus)
    !! "/c/a.lab" = Some ("hello world" +:+ nl).
Proof.
  refine (eq_trans
    (X19_run_keeps_the_corpus (Demo.quiet_env []) "/c" None "dictionary.txt"
       25000 false 4 false Samples9.plain_corpus Samples9.run_files
       _ _ _ _ _ "/c/a.lab" _) _).
  - intros p Hp. by left.
  - right. by left.
  - right. right. by left.
  - right. right. right. by left.
  - intros argv fs p _. reflexivity.
  - intros [H|H]; [by vm_compute in H|].
    apply (bool_decide_pack _) in H. by vm_compute in H.
  - by vm_compute.
Defined.

Lemma X20_witness :
  ∃ self,
    outcome (Main.run (Demo.quiet_env []) "/c" None "dictionary.txt"
               25000 false 4 false) Samples9.plain_corpus = Ok self ∧
    aud_dir self = "/tmp/tmpA/DAT" ∧ phon_mlf self = "/tmp/tmpA/phones.mlf".
Proof.
  destruct (outcome (Main.run (Demo.quiet_env []) "/c" None "dictionary.txt"
                       25000 false 4 false) Samples9.plain_corpus)
    as [self|e] eqn:E; [|by vm_compute in E].
  exists self. split; [reflexivity|].
  destruct (X20_run_object_is_housed (Demo.quiet_env []) "/c" None
              "dictionary.txt" 25000 false 4 false Samples9.plain_corpus
              self E)
    as (_ & Haud & _ & _ & _ & _ & _ & _ & _ & _ & _ & _ & _ & _ & Hmlf).
  split.
  - refine (eq_trans Haud _). by vm_compute.
  - refine (eq_trans Hmlf _). by vm_compute.
Defined.

End WholeRunFacts.

(** ** The options *)

Module OptionFacts.
Import Sys Obs Options OptObs SampleRate.

Lemma last_cons_default {A} (x : A) (l : list A) d :
  List.last (x :: l) d = List.last l x.
Proof.
  revert x d. induction l as [|y l IH]; intros x d; [done|].
  change (List.last (y :: l) d = List.last (y :: l) x).
  by rewrite !IH.
Qed.

Lemma values_cons opt o v opts :
  values opt ((o, v) :: opts)
  = if decide (o = opt) then v :: values opt opts else values opt opts.
Proof.
  unfold values. rewrite filter_cons. cbn. by destruct (decide (o = opt)).
Qed.

Lemma given_cons opt o v opts :
  given opt ((o, v) :: opts) ↔ o = opt ∨ given opt opts.
Proof. unfold given. cbn. rewrite elem_of_cons. naive_solver. Qed.

Lemma values_not_given opt opts : ¬ given opt opts → values opt opts = [].
Proof.
  induction opts as [|[o v] opts IH]; [done|].
  rewrite values_cons, given_cons. intros H.
  rewrite decide_False by (intros ->; apply H; by left).
  apply IH. intros Hg. apply H. by right.
Qed.

Section WithShell.
Context (int : string → option Z) (readable present : string → bool).

Local Abbreviation step := (option_step int readable present).
Local Abbreviation run_options := (options int readable present).

(** The options that get through a turn of the loop, with what each
    does to the settings. *)
Lemma option_step_inr st o v st' :
  step st (o, v) = inr st' →
  (o = "-d" ∧ readable v = true ∧
   st' = mkSettings v (o_sr st) (o_tr_dir st) (o_ood_mode st)
           (o_n_per_round st) (o_require_training st)) ∨
  (o = "-m" ∧
   st' = mkSettings (o_dictionary st) (o_sr st) (o_tr_dir st) true
           (o_n_per_round st) (o_require_training st)) ∨
  (o = "-n" ∧ ∃ n, int v = Some n ∧ 0 < n < 25 ∧
   st' = mkSettings (o_dictionary st) (o_sr st) (o_tr_dir st)
           (o_ood_mode st) n true) ∨
  (o = "-s" ∧ ∃ sr, int v = Some sr ∧ 0 < sr ∧
   st' = mkSettings (o_dictionary st) (sane_samplerate sr) (o_tr_dir st)
           (o_ood_mode st) (o_n_per_round st) true) ∨
  (o = "-t" ∧ present v = true ∧
   st' = mkSettings (o_dictionary st) (o_sr st) (Some v) (o_ood_mode st)
           (o_n_per_round st) (o_require_training st)).
Proof.
  unfold option_step, usage_error.
  repeat case_bool_decide; subst; try discriminate.
  - destruct (readable v) eqn:E; [|discriminate]. intros [= <-]. by left.
  - intros [= <-]. right. by left.
  - destruct (int v) as [n|] eqn:E; [|discriminate].
    destruct (_ && _) eqn:En; [|discriminate]. intros [= <-].
    right. right. left. split; [done|]. exists n. split_and!; [done|lia|lia|done].
  - destruct (int v) as [sr|] eqn:E; [|discriminate].
    destruct (0 <? sr) eqn:En; [|discriminate]. intros [= <-].
    right. right. right. left. split; [done|]. exists sr.
    split_and!; [done|lia|done].
  - destruct (present v) eqn:E; [|discriminate]. intros [= <-].
    right. right. right. by right.
Qed.

Lemma options_settings opts : ∀ st0 st,
  run_options opts st0 = inr st →
  o_dictionary st = List.last (values "-d" opts) (o_dictionary st0) ∧
  o_tr_dir st = match last (values "-t" opts) with
                | Some d => Some d
                | None => o_tr_dir st0
                end ∧
  o_sr st = List.last (sane_samplerate <$> omap int (values "-s" opts))
                      (o_sr st0) ∧
  o_n_per_round st = List.last (omap int (values "-n" opts))
                               (o_n_per_round st0) ∧
  (o_ood_mode st = true ↔ o_ood_mode st0 = true ∨ given "-m" opts) ∧
  (o_require_training st = true ↔
   o_require_training st0 = true ∨ given "-n" opts ∨ given "-s" opts).
Proof.
  induction opts as [|[o v] opts IH]; intros st0 st; cbn [options].
  { intros [= <-]. unfold given. cbn. set_solver. }
  destruct (step st0 (o, v)) as [s|st1] eqn:E; [done|]. intros Hrest.
  apply IH in Hrest as (Hd & Ht & Hs & Hn & Hm & Hr).
  rewrite !values_cons, !given_cons.
  apply option_step_inr in E
    as [(-> & _ & ->)|[(-> & ->)|[(-> & n & En & _ & ->)|
        [(-> & sr & Es & _ & ->)|(-> & _ & ->)]]]];
    cbn [o_dictionary o_sr o_tr_dir o_ood_mode o_n_per_round
         o_require_training] in *;
    repeat (case_decide; try done);
    rewrite ?last_cons_default, ?last_cons; cbn [omap fmap list_fmap];
    rewrite ?En, ?Es, ?last_cons_default.
  all: split_and!; try done.
  all: try (rewrite Ht; by destruct (last _)).
  all: try (cbn [omap list_omap]; rewrite ?En, ?Es; cbn [fmap list_fmap];
            by rewrite last_cons_default).
  all: first [rewrite Hm|rewrite Hr]; cbn;
    intuition (try discriminate; try done).
Qed.

Lemma options_accepted opts : ∀ st0 st,
  run_options opts st0 = inr st →
  Forall (λ ov, ov.1 ∈ ["-d"; "-m"; "-n"; "-s"; "-t"]) opts ∧
  (∀ v, v ∈ values "-d" opts → readable v = true) ∧
  (∀ v, v ∈ values "-t" opts → present v = true) ∧
  (∀ v, v ∈ values "-n" opts → ∃ n, int v = Some n ∧ 0 < n < 25) ∧
  (∀ v, v ∈ values "-s" opts → ∃ sr, int v = Some sr ∧ 0 < sr).
Proof.
  induction opts as [|[o v] opts IH]; intros st0 st; cbn [options].
  { intros _. unfold values. cbn. split_and!; [done|..]; by intros v ?%elem_of_nil. }
  destruct (step st0 (o, v)) as [s|st1] eqn:E; [done|]. intros Hrest.
  apply IH in Hrest as (Hall & Hd & Ht & Hn & Hs).
  rewrite !values_cons.
  apply option_step_inr in E
    as [(-> & Hv & ->)|[(-> & ->)|[(-> & n & En & Hn' & ->)|
        [(-> & sr & Es & Hs' & ->)|(-> & Hv & ->)]]]];
    repeat (case_decide; try done).
  all: split_and!; try done.
  all: try (constructor; [cbn; solve [repeat (first [by left|right])]|done]).
  all: intros x [->|Hx]%elem_of_cons; eauto.
Qed.

(** The settings stay in range whatever the options. *)
Lemma options_in_range opts : ∀ st0 st,
  run_options opts st0 = inr st →
  o_sr st0 ∈ SRs → 0 < o_n_per_round st0 < 25 →
  o_sr st ∈ SRs ∧ 0 < o_n_per_round st < 25.
Proof.
  induction opts as [|[o v] opts IH]; intros st0 st; cbn [options].
  { by intros [= <-]. }
  destruct (step st0 (o, v)) as [s|st1] eqn:E; [done|]. intros Hrest H1 H2.
  apply (IH _ _ Hrest);
    apply option_step_inr in E
      as [(-> & _ & ->)|[(-> & ->)|[(-> & n & En & Hn' & ->)|
          [(-> & sr & Es & _ & ->)|(-> & _ & ->)]]]];
    cbn; try done.
  apply RateFacts.sane_samplerate_in_SRs.
Qed.

(** X22.  When the options and arguments are accepted, the test
    directory is the last argument that is not an option, and of an
    option given more than once the last one counts: the dictionary is
    the last [-d], the training directory the last [-t], the sample
    rate what the script settles on for the last [-s], the number of
    rounds the last [-n]; without the option it is [dictionary.txt],
    no training, 25000 and 4.  The sample rate is a supported one and
    the number of rounds is from 1 to 24 in every case.  Every [-d]
    names a readable file and every [-t] a path that exists, also
    those that a later one overrides; no option but [-d], [-m], [-n],
    [-s] and [-t] is accepted. *)
Theorem X22_settings_of_the_options opts args ts_dir st :
  command_line int readable present opts args = inr (ts_dir, st) →
  last args = Some ts_dir ∧
  o_dictionary st = List.last (values "-d" opts) "dictionary.txt" ∧
  o_tr_dir st = last (values "-t" opts) ∧
  o_sr st = List.last (sane_samplerate <$> omap int (values "-s" opts))
                      25000 ∧
  o_n_per_round st = List.last (omap int (values "-n" opts)) 4 ∧
  (o_ood_mode st = true ↔ given "-m" opts) ∧
  (o_require_training st = true ↔ given "-n" opts ∨ given "-s" opts) ∧
  o_sr st ∈ SRs ∧ 0 < o_n_per_round st < 25 ∧
  Forall (λ ov, ov.1 ∈ ["-d"; "-m"; "-n"; "-s"; "-t"]) opts ∧
  (∀ v, v ∈ values "-d" opts → readable v = true) ∧
  (∀ v, v ∈ values "-t" opts → present v = true) ∧
  (∀ v, v ∈ values "-n" opts → ∃ n, int v = Some n ∧ 0 < n < 25) ∧
  (∀ v, v ∈ values "-s" opts → ∃ sr, int v = Some sr ∧ 0 < sr).
Proof.
  unfold command_line.
  destruct (run_options opts defaults) as [s|st'] eqn:E; [done|].
  destruct (last args) as [ts|] eqn:Ea; [|done]. intros [= <- <-].
  destruct (options_settings _ _ _ E) as (Hd & Ht & Hs & Hn & Hm & Hr).
  destruct (options_accepted _ _ _ E) as (Hall & Hds & Hts & Hns & Hss).
  destruct (options_in_range _ _ _ E) as [Hsr Hnr];
    [by apply (bool_decide_unpack _)|done|].
  cbn in Hd, Ht, Hs, Hn, Hm, Hr.
  split_and!; try done.
  - rewrite Ht. by destruct (last (values "-t" opts)).
  - rewrite Hm. intuition discriminate.
  - rewrite Hr. intuition discriminate.
  - apply Hnr.
  - apply Hnr.
Qed.

(** X23.  [-n] and [-s] are refused without [-t], also with the values
    that are the defaults: when the options and arguments are accepted
    as such and hold an [-n] or an [-s] but no [-t], the script ends in
    the exit for training mode, and has made no workspace and run no
    tool. *)
Theorem X23_training_options_need_t env opts args ts_dir st w :
  command_line int readable present opts args = inr (ts_dir, st) →
  given "-n" opts ∨ given "-s" opts → ¬ given "-t" opts →
  script int readable present env opts args w
  = (inr (Raise (SystemExit
                   "Error: -n, -s only available in training (-t) mode")), w).
Proof.
  intros Hc Hns Ht. unfold script. rewrite Hc.
  unfold command_line in Hc.
  destruct (run_options opts defaults) as [s|st'] eqn:E; [done|].
  destruct (last args) as [ts|] eqn:Ea; [|done]. injection Hc as <- <-.
  destruct (options_settings _ _ _ E) as (_ & Htr & _ & _ & _ & Hr).
  cbn in Htr, Hr.
  rewrite (values_not_given _ _ Ht) in Htr. cbn in Htr.
  assert (o_require_training st' = true) as Hreq by (apply Hr; by right).
  unfold training_dir. rewrite Htr. unfold Main.run. by rewrite Hreq.
Qed.

End WithShell.

Lemma X22_witness :
  ∃ st,
    command_line Samples10.int_of (λ _, true) (λ _, true)
      [("-s", "8100"); ("-n", "2"); ("-t", "/tr"); ("-s", "25000");
       ("-s", "8100")] ["x"; "/ts"] = inr ("/ts", st) ∧
    o_sr st = 10000 ∧ o_tr_dir st = Some "/tr" ∧ o_n_per_round st = 2.
Proof.
  eexists. split; [by vm_compute|].
  pose proof (X22_settings_of_the_options Samples10.int_of (λ _, true)
                (λ _, true) _ _ _ _
                (eq_refl : command_line Samples10.int_of (λ _, true)
                             (λ _, true)
                             [("-s", "8100"); ("-n", "2"); ("-t", "/tr");
                              ("-s", "25000"); ("-s", "8100")]
                             ["x"; "/ts"] = inr ("/ts", _)))
    as (_ & _ & Ht & Hs & Hn & _).
  split_and!.
  - refine (eq_trans Hs _). by vm_compute.
  - refine (eq_trans Ht _). by vm_compute.
  - refine (eq_trans Hn _). by vm_compute.
Defined.

Lemma X23_witness :
  script Samples10.int_of (λ _, true) (λ _, true) (Demo.quiet_env [])
    [("-s", "25000")] ["/c"] Demo.corpus
  = (inr (Raise (SystemExit
                   "Error: -n, -s only available in training (-t) mode")),
     Demo.corpus).
Proof.
  apply (X23_training_options_need_t Samples10.int_of (λ _, true) (λ _, true)
           (Demo.quiet_env []) [("-s", "25000")] ["/c"] "/c"
           (mkSettings "dictionary.txt" 25000 None false 4 true)).
  - by vm_compute.
  - right. unfold given. cbn. by left.
  - unfold given. cbn. intros H. by apply list_elem_of_singleton in H.
Defined.

End OptionFacts.
